(** * The DASH video player component: a shallow embedding

    The player is a React function component.  Its behaviour is modelled
    in three layers:

    - [JS]: the few ECMAScript built-ins the component relies on
      (IEEE-754 numbers, truthiness, [String.prototype.split],
      [Number] applied to a string, [Array.prototype.find]);
    - the pure helpers of the component ([parseTimeToSeconds], the
      subtitle effect, the quality-list builder);
    - the handlers that touch refs, the streaming engine, timers and
      object URLs, written in a small state-and-exception monad over an
      explicit [World]. *)

From Stdlib Require Import ZArith List Bool Ascii String DecimalString Lia.
From Stdlib Require Import Floats.
Import ListNotations.

Local Open Scope string_scope.
Local Open Scope list_scope.

(** ** ECMAScript built-ins *)

Module JS.

(** A JavaScript [number] is an IEEE-754 binary64 value. *)
Definition number := float.

Definition NaN : number := PrimFloat.nan.

(** [ToBoolean] on numbers: [0], [-0] and [NaN] are falsy. *)
Definition truthy_number (x : number) : bool :=
  negb (PrimFloat.eqb x 0%float) && PrimFloat.eqb x x.

(** [ToBoolean] on strings: only the empty string is falsy. *)
Definition truthy_string (s : string) : bool :=
  negb (String.eqb s "").

(** [ToBoolean] on an optional string ([undefined] is falsy). *)
Definition truthy_opt_string (o : option string) : bool :=
  match o with
  | Some s => truthy_string s
  | None => false
  end.

(** [x === y] on numbers. *)
Definition strict_eq (x y : number) : bool := PrimFloat.eqb x y.

(** An array index or length as a number (exact below 2^53). *)
Definition of_nat (n : nat) : number :=
  SF2Prim (binary_normalize prec emax (Z.of_nat n) 0 false).

(** [s.split(sep)] for a one-character separator: the result is never
    empty, and consecutive separators delimit empty strings. *)
Fixpoint split (sep : ascii) (s : string) : list string :=
  match s with
  | EmptyString => [EmptyString]
  | String c rest =>
      if Ascii.eqb c sep then EmptyString :: split sep rest
      else match split sep rest with
           | [] => [String c EmptyString]
           | h :: t => String c h :: t
           end
  end.

(** [s.includes(c)] for a one-character [c]. *)
Fixpoint includes (c : ascii) (s : string) : bool :=
  match s with
  | EmptyString => false
  | String d rest => Ascii.eqb d c || includes c rest
  end.

(** [arr.find(p)] and [arr.findIndex(p)]. *)
Fixpoint find {A} (p : A -> bool) (l : list A) : option A :=
  match l with
  | [] => None
  | x :: rest => if p x then Some x else find p rest
  end.

Fixpoint findIndex_from {A} (p : A -> bool) (l : list A) (i : nat) : option nat :=
  match l with
  | [] => None
  | x :: rest => if p x then Some i else findIndex_from p rest (S i)
  end.

(** [None] stands for the [-1] that [findIndex] returns on failure. *)
Definition findIndex {A} (p : A -> bool) (l : list A) : option nat :=
  findIndex_from p l 0.

(** *** [Number(s)] on a string: the StringToNumber grammar

    Strings are byte sequences; the white space stripped is the ASCII
    part of the WhiteSpace and LineTerminator productions. *)

Definition is_space (c : ascii) : bool :=
  match nat_of_ascii c with
  | 9 | 10 | 11 | 12 | 13 | 32 => true
  | _ => false
  end.

Fixpoint trim_left (s : string) : string :=
  match s with
  | String c rest => if is_space c then trim_left rest else s
  | EmptyString => EmptyString
  end.

Fixpoint trim_right (s : string) : string :=
  match s with
  | EmptyString => EmptyString
  | String c rest =>
      match trim_right rest with
      | EmptyString => if is_space c then EmptyString else String c EmptyString
      | r => String c r
      end
  end.

Definition digit_value (radix : Z) (c : ascii) : option Z :=
  let n := Z.of_nat (nat_of_ascii c) in
  let v :=
    if (48 <=? n)%Z && (n <=? 57)%Z then Some (n - 48)%Z
    else if (97 <=? n)%Z && (n <=? 122)%Z then Some (n - 87)%Z
    else if (65 <=? n)%Z && (n <=? 90)%Z then Some (n - 55)%Z
    else None in
  match v with
  | Some d => if (d <? radix)%Z then Some d else None
  | None => None
  end.

(** Longest prefix of digits in the given radix: its value, its
    length, and the rest of the string. *)
Fixpoint digits_from (radix : Z) (s : string) (acc : Z) (len : nat)
  : Z * nat * string :=
  match s with
  | EmptyString => (acc, len, EmptyString)
  | String c rest =>
      match digit_value radix c with
      | Some d => digits_from radix rest (acc * radix + d)%Z (S len)
      | None => (acc, len, s)
      end
  end.

Definition digits (radix : Z) (s : string) : Z * nat * string :=
  digits_from radix s 0%Z 0.

(** The binary64 value nearest to [m / d] (ties to even), [m, d > 0]. *)
Definition round_ratio (neg : bool) (m d : Z) : number :=
  let s := (Z.log2 d + 66)%Z in
  let n := Z.shiftl m s in
  let q := (n / d)%Z in
  let r := (n mod d)%Z in
  let loc := if (r =? 0)%Z then loc_Exact
             else loc_Inexact (Z.compare (2 * r) d) in
  SF2Prim (binary_round_aux prec emax neg q (- s) loc).

(** The binary64 value nearest to [m * 10^e], with the sign [neg]. *)
Definition round_decimal (neg : bool) (m : Z) (nd : nat) (e : Z) : number :=
  let zero := if neg then PrimFloat.neg_zero else PrimFloat.zero in
  let inf := if neg then PrimFloat.neg_infinity else PrimFloat.infinity in
  if (m =? 0)%Z then zero
  else if (310 <? e)%Z then inf
  else if (Z.of_nat nd + e <? -330)%Z then zero
  else if (0 <=? e)%Z then
    SF2Prim (binary_normalize prec emax
               (if neg then - (m * 10 ^ e) else m * 10 ^ e)%Z 0 neg)
  else round_ratio neg m (10 ^ (- e))%Z.

(** ExponentPart (optional): [e] or [E], an optional sign, digits. *)
Definition exponent_part (s : string) : option (Z * string) :=
  match s with
  | String c rest =>
      if Ascii.eqb c "e" || Ascii.eqb c "E" then
        let '(neg, body) :=
          match rest with
          | String "-" r => (true, r)
          | String "+" r => (false, r)
          | _ => (false, rest)
          end in
        match digits 10 body with
        | (_, O, _) => None
        | (v, _, tl) => Some (if neg then (- v)%Z else v, tl)
        end
      else Some (0%Z, s)
  | EmptyString => Some (0%Z, s)
  end.

(** StrUnsignedDecimalLiteral, the whole of [s]. *)
Definition unsigned_decimal (neg : bool) (s : string) : number :=
  if String.eqb s "Infinity" then
    if neg then PrimFloat.neg_infinity else PrimFloat.infinity
  else
    let '(ip, ilen, after_int) := digits 10 s in
    let '(m, nd, flen, after_frac) :=
      match after_int with
      | String "." r =>
          let '(v, flen, tl) := digits_from 10 r ip 0 in
          (v, (ilen + flen)%nat, flen, tl)
      | _ => (ip, ilen, O, after_int)
      end in
    match nd with
    | O => NaN
    | _ =>
        match exponent_part after_frac with
        | Some (e, EmptyString) => round_decimal neg m nd (e - Z.of_nat flen)
        | _ => NaN
        end
    end.

(** NonDecimalIntegerLiteral: [0x], [0o], [0b] and digits, unsigned. *)
Definition non_decimal (s : string) : option number :=
  match s with
  | String "0" (String p body) =>
      let radix :=
        if Ascii.eqb p "x" || Ascii.eqb p "X" then Some 16%Z
        else if Ascii.eqb p "o" || Ascii.eqb p "O" then Some 8%Z
        else if Ascii.eqb p "b" || Ascii.eqb p "B" then Some 2%Z
        else None in
      match radix with
      | Some r =>
          match digits r body with
          | (_, O, _) => Some NaN
          | (v, _, EmptyString) =>
              Some (SF2Prim (binary_normalize prec emax v 0 false))
          | _ => Some NaN
          end
      | None => None
      end
  | _ => None
  end.

Definition Number (s : string) : number :=
  let t := trim_right (trim_left s) in
  match t with
  | EmptyString => PrimFloat.zero
  | String "-" r => unsigned_decimal true r
  | String "+" r => unsigned_decimal false r
  | _ =>
      match non_decimal t with
      | Some v => v
      | None => unsigned_decimal false t
      end
  end.

(** [ToNumber] of a possibly [undefined] number (a missing array
    element used in arithmetic). *)
Definition ToNumber (o : option number) : number :=
  match o with
  | Some x => x
  | None => NaN
  end.

End JS.

(** ** Time codec *)

(** [const [time, milliseconds] = timeString.split(',')]: [time] always
    exists, [milliseconds] is [undefined] when there is no comma. *)
Definition parseTimeToSeconds (timeString : string) : JS.number :=
  let parts := JS.split "," timeString in
  let time := nth 0 parts "" in
  let milliseconds := nth_error parts 1 in
  let hms := map JS.Number (JS.split ":" time) in
  let hours := JS.ToNumber (nth_error hms 0) in
  let minutes := JS.ToNumber (nth_error hms 1) in
  let seconds := JS.ToNumber (nth_error hms 2) in
  let ms :=
    match milliseconds with
    | Some s => if JS.truthy_string s then JS.Number s else 0%float
    | None => 0%float
    end in
  (hours * 3600 + minutes * 60 + seconds + ms / 1000)%float.


(** ** Data model *)

Module Source.
Record t := { src : string; type : string }.
End Source.

Module FormatItem.
Record t := {
  id : JS.number;
  new_description : string;
  display_desc : option string;
  codecs : option string
}.
End FormatItem.

Module Subtitle.
Record t := { end_ : string; seq : JS.number; text : string; start : string }.
End Subtitle.

(** An element of [processedSubtitles]: the subtitle spread, plus the two
    times in seconds. *)
Module ProcessedSubtitle.
Record t := { sub : Subtitle.t; startTime : JS.number; endTime : JS.number }.
Definition text (p : t) : string := Subtitle.text (sub p).
End ProcessedSubtitle.

(** The entries of the quality menu, as the stream-initialized handler
    builds them. *)
Module Quality.
Record t := { index : JS.number; label : string; id : JS.number; needLogin : bool }.
End Quality.

(** ** The streaming engine, seen from the component

    Only what the component calls is modelled.  The two calls the
    component wraps in [try] may throw; which of them does is part of the
    engine's state. *)

Module Dash.

Record Representation := { id : string; index : JS.number }.

Record MediaPlayer := {
  autoSwitchBitrateVideo : bool;
  autoSwitchBitrateAudio : bool;
  view : bool;
  autoPlay : bool;
  source : option string;
  videoRepresentations : list Representation;
  currentVideoRepresentation : option Representation;
  requestedVideoIndex : option JS.number;
  switchThrows : bool;
  resetThrows : bool
}.

(** [dashJs.MediaPlayer().create()] *)
Definition create : MediaPlayer :=
  {| autoSwitchBitrateVideo := true; autoSwitchBitrateAudio := true;
     view := false; autoPlay := false; source := None;
     videoRepresentations := []; currentVideoRepresentation := None;
     requestedVideoIndex := None; switchThrows := false; resetThrows := false |}.

(** [updateSettings({streaming:{abr:{autoSwitchBitrate:{video, audio}}}})];
    a key that is not given keeps its value. *)
Definition updateSettings (video : bool) (audio : option bool) (p : MediaPlayer)
  : MediaPlayer :=
  {| autoSwitchBitrateVideo := video;
     autoSwitchBitrateAudio :=
       match audio with Some a => a | None => autoSwitchBitrateAudio p end;
     view := view p; autoPlay := autoPlay p; source := source p;
     videoRepresentations := videoRepresentations p;
     currentVideoRepresentation := currentVideoRepresentation p;
     requestedVideoIndex := requestedVideoIndex p;
     switchThrows := switchThrows p; resetThrows := resetThrows p |}.

(** [attachSource(url)] *)
Definition attachSource (url : string) (p : MediaPlayer) : MediaPlayer :=
  {| autoSwitchBitrateVideo := autoSwitchBitrateVideo p;
     autoSwitchBitrateAudio := autoSwitchBitrateAudio p;
     view := view p; autoPlay := autoPlay p; source := Some url;
     videoRepresentations := videoRepresentations p;
     currentVideoRepresentation := currentVideoRepresentation p;
     requestedVideoIndex := requestedVideoIndex p;
     switchThrows := switchThrows p; resetThrows := resetThrows p |}.

(** [initialize(view, source, autoPlay)]: the view is attached, and the
    source too when it is not empty. *)
Definition initialize (url : string) (auto : bool) (p : MediaPlayer) : MediaPlayer :=
  {| autoSwitchBitrateVideo := autoSwitchBitrateVideo p;
     autoSwitchBitrateAudio := autoSwitchBitrateAudio p;
     view := true; autoPlay := auto;
     source := if JS.truthy_string url then Some url else source p;
     videoRepresentations := videoRepresentations p;
     currentVideoRepresentation := currentVideoRepresentation p;
     requestedVideoIndex := requestedVideoIndex p;
     switchThrows := switchThrows p; resetThrows := resetThrows p |}.

(** [setRepresentationForTypeByIndex('video', index, false)], or [None]
    when it throws. *)
Definition setRepresentationForTypeByIndex (index : JS.number) (p : MediaPlayer)
  : option MediaPlayer :=
  if switchThrows p then None
  else Some
    {| autoSwitchBitrateVideo := autoSwitchBitrateVideo p;
       autoSwitchBitrateAudio := autoSwitchBitrateAudio p;
       view := view p; autoPlay := autoPlay p; source := source p;
       videoRepresentations := videoRepresentations p;
       currentVideoRepresentation := currentVideoRepresentation p;
       requestedVideoIndex := Some index;
       switchThrows := switchThrows p; resetThrows := resetThrows p |}.

(** [reset()], or [None] when it throws. *)
Definition reset (p : MediaPlayer) : option MediaPlayer :=
  if resetThrows p then None
  else Some
    {| autoSwitchBitrateVideo := autoSwitchBitrateVideo p;
       autoSwitchBitrateAudio := autoSwitchBitrateAudio p;
       view := false; autoPlay := autoPlay p; source := None;
       videoRepresentations := []; currentVideoRepresentation := None;
       requestedVideoIndex := None;
       switchThrows := switchThrows p; resetThrows := resetThrows p |}.

End Dash.

(** ** The video element, seen from the component *)

Module Video.

(** [playRejects] says whether the promise of the next [play()] is
    rejected; [playCalls] counts the calls of [play()]. *)
Record Element := {
  muted : bool;
  volume : JS.number;
  paused : bool;
  playCalls : nat;
  playRejects : bool
}.

Definition set_muted (b : bool) (e : Element) : Element :=
  {| muted := b; volume := volume e; paused := paused e;
     playCalls := playCalls e; playRejects := playRejects e |}.

Definition set_volume (v : JS.number) (e : Element) : Element :=
  {| muted := muted e; volume := v; paused := paused e;
     playCalls := playCalls e; playRejects := playRejects e |}.

(** [play()]: playback starts unless the promise is rejected. *)
Definition play (e : Element) : Element :=
  {| muted := muted e; volume := volume e;
     paused := if playRejects e then paused e else false;
     playCalls := S (playCalls e); playRejects := playRejects e |}.

End Video.

(** ** Component state *)

Module Props.
Record t := { url : option string; autoPlay : bool }.
End Props.

(** The [useState] cells the modelled handlers read or write. *)
Module State.
Record t := {
  options : Source.t;
  isPlaying : bool;
  volume : JS.number;
  isMuted : bool;
  showControls : bool;
  formatListTwo : list FormatItem.t;
  availableQualities : list Quality.t;
  currentQualityIndex : JS.number;
  currentQuality : string;
  currentAutoQuality : string;
  isLoggedIn : bool;
  switchMessage : string;
  showLoginModal : bool;
  currentSubtitle : string
}.

#[warnings="-inexact-float"]
Definition initial : t :=
  {| options := {| Source.src := ""; Source.type := "application/dash+xml" |};
     isPlaying := false; volume := 0.7%float; isMuted := false;
     showControls := true; formatListTwo := []; availableQualities := [];
     currentQualityIndex := (-1)%float; currentQuality := "自动";
     currentAutoQuality := ""; isLoggedIn := false; switchMessage := "";
     showLoginModal := false; currentSubtitle := "" |}.

Definition with_options (v : Source.t) (s : t) : t :=
  {| options := v; isPlaying := isPlaying s; volume := volume s;
     isMuted := isMuted s; showControls := showControls s;
     formatListTwo := formatListTwo s;
     availableQualities := availableQualities s;
     currentQualityIndex := currentQualityIndex s;
     currentQuality := currentQuality s;
     currentAutoQuality := currentAutoQuality s; isLoggedIn := isLoggedIn s;
     switchMessage := switchMessage s; showLoginModal := showLoginModal s;
     currentSubtitle := currentSubtitle s |}.

Definition with_isPlaying (v : bool) (s : t) : t :=
  {| options := options s; isPlaying := v; volume := volume s;
     isMuted := isMuted s; showControls := showControls s;
     formatListTwo := formatListTwo s;
     availableQualities := availableQualities s;
     currentQualityIndex := currentQualityIndex s;
     currentQuality := currentQuality s;
     currentAutoQuality := currentAutoQuality s; isLoggedIn := isLoggedIn s;
     switchMessage := switchMessage s; showLoginModal := showLoginModal s;
     currentSubtitle := currentSubtitle s |}.

Definition with_volume (v : JS.number) (s : t) : t :=
  {| options := options s; isPlaying := isPlaying s; volume := v;
     isMuted := isMuted s; showControls := showControls s;
     formatListTwo := formatListTwo s;
     availableQualities := availableQualities s;
     currentQualityIndex := currentQualityIndex s;
     currentQuality := currentQuality s;
     currentAutoQuality := currentAutoQuality s; isLoggedIn := isLoggedIn s;
     switchMessage := switchMessage s; showLoginModal := showLoginModal s;
     currentSubtitle := currentSubtitle s |}.

Definition with_isMuted (v : bool) (s : t) : t :=
  {| options := options s; isPlaying := isPlaying s; volume := volume s;
     isMuted := v; showControls := showControls s;
     formatListTwo := formatListTwo s;
     availableQualities := availableQualities s;
     currentQualityIndex := currentQualityIndex s;
     currentQuality := currentQuality s;
     currentAutoQuality := currentAutoQuality s; isLoggedIn := isLoggedIn s;
     switchMessage := switchMessage s; showLoginModal := showLoginModal s;
     currentSubtitle := currentSubtitle s |}.

Definition with_showControls (v : bool) (s : t) : t :=
  {| options := options s; isPlaying := isPlaying s; volume := volume s;
     isMuted := isMuted s; showControls := v;
     formatListTwo := formatListTwo s;
     availableQualities := availableQualities s;
     currentQualityIndex := currentQualityIndex s;
     currentQuality := currentQuality s;
     currentAutoQuality := currentAutoQuality s; isLoggedIn := isLoggedIn s;
     switchMessage := switchMessage s; showLoginModal := showLoginModal s;
     currentSubtitle := currentSubtitle s |}.

Definition with_formatListTwo (v : list FormatItem.t) (s : t) : t :=
  {| options := options s; isPlaying := isPlaying s; volume := volume s;
     isMuted := isMuted s; showControls := showControls s;
     formatListTwo := v; availableQualities := availableQualities s;
     currentQualityIndex := currentQualityIndex s;
     currentQuality := currentQuality s;
     currentAutoQuality := currentAutoQuality s; isLoggedIn := isLoggedIn s;
     switchMessage := switchMessage s; showLoginModal := showLoginModal s;
     currentSubtitle := currentSubtitle s |}.

Definition with_availableQualities (v : list Quality.t) (s : t) : t :=
  {| options := options s; isPlaying := isPlaying s; volume := volume s;
     isMuted := isMuted s; showControls := showControls s;
     formatListTwo := formatListTwo s; availableQualities := v;
     currentQualityIndex := currentQualityIndex s;
     currentQuality := currentQuality s;
     currentAutoQuality := currentAutoQuality s; isLoggedIn := isLoggedIn s;
     switchMessage := switchMessage s; showLoginModal := showLoginModal s;
     currentSubtitle := currentSubtitle s |}.

Definition with_currentQualityIndex (v : JS.number) (s : t) : t :=
  {| options := options s; isPlaying := isPlaying s; volume := volume s;
     isMuted := isMuted s; showControls := showControls s;
     formatListTwo := formatListTwo s;
     availableQualities := availableQualities s; currentQualityIndex := v;
     currentQuality := currentQuality s;
     currentAutoQuality := currentAutoQuality s; isLoggedIn := isLoggedIn s;
     switchMessage := switchMessage s; showLoginModal := showLoginModal s;
     currentSubtitle := currentSubtitle s |}.

Definition with_currentQuality (v : string) (s : t) : t :=
  {| options := options s; isPlaying := isPlaying s; volume := volume s;
     isMuted := isMuted s; showControls := showControls s;
     formatListTwo := formatListTwo s;
     availableQualities := availableQualities s;
     currentQualityIndex := currentQualityIndex s; currentQuality := v;
     currentAutoQuality := currentAutoQuality s; isLoggedIn := isLoggedIn s;
     switchMessage := switchMessage s; showLoginModal := showLoginModal s;
     currentSubtitle := currentSubtitle s |}.

Definition with_currentAutoQuality (v : string) (s : t) : t :=
  {| options := options s; isPlaying := isPlaying s; volume := volume s;
     isMuted := isMuted s; showControls := showControls s;
     formatListTwo := formatListTwo s;
     availableQualities := availableQualities s;
     currentQualityIndex := currentQualityIndex s;
     currentQuality := currentQuality s; currentAutoQuality := v;
     isLoggedIn := isLoggedIn s; switchMessage := switchMessage s;
     showLoginModal := showLoginModal s;
     currentSubtitle := currentSubtitle s |}.

Definition with_isLoggedIn (v : bool) (s : t) : t :=
  {| options := options s; isPlaying := isPlaying s; volume := volume s;
     isMuted := isMuted s; showControls := showControls s;
     formatListTwo := formatListTwo s;
     availableQualities := availableQualities s;
     currentQualityIndex := currentQualityIndex s;
     currentQuality := currentQuality s;
     currentAutoQuality := currentAutoQuality s; isLoggedIn := v;
     switchMessage := switchMessage s; showLoginModal := showLoginModal s;
     currentSubtitle := currentSubtitle s |}.

Definition with_switchMessage (v : string) (s : t) : t :=
  {| options := options s; isPlaying := isPlaying s; volume := volume s;
     isMuted := isMuted s; showControls := showControls s;
     formatListTwo := formatListTwo s;
     availableQualities := availableQualities s;
     currentQualityIndex := currentQualityIndex s;
     currentQuality := currentQuality s;
     currentAutoQuality := currentAutoQuality s; isLoggedIn := isLoggedIn s;
     switchMessage := v; showLoginModal := showLoginModal s;
     currentSubtitle := currentSubtitle s |}.

Definition with_showLoginModal (v : bool) (s : t) : t :=
  {| options := options s; isPlaying := isPlaying s; volume := volume s;
     isMuted := isMuted s; showControls := showControls s;
     formatListTwo := formatListTwo s;
     availableQualities := availableQualities s;
     currentQualityIndex := currentQualityIndex s;
     currentQuality := currentQuality s;
     currentAutoQuality := currentAutoQuality s; isLoggedIn := isLoggedIn s;
     switchMessage := switchMessage s; showLoginModal := v;
     currentSubtitle := currentSubtitle s |}.

Definition with_currentSubtitle (v : string) (s : t) : t :=
  {| options := options s; isPlaying := isPlaying s; volume := volume s;
     isMuted := isMuted s; showControls := showControls s;
     formatListTwo := formatListTwo s;
     availableQualities := availableQualities s;
     currentQualityIndex := currentQualityIndex s;
     currentQuality := currentQuality s;
     currentAutoQuality := currentAutoQuality s; isLoggedIn := isLoggedIn s;
     switchMessage := switchMessage s; showLoginModal := showLoginModal s;
     currentSubtitle := v |}.
End State.

(** What a handler created during a render sees of props and state:
    the values of that render, whatever the setters did since. *)
Record Render := { props : Props.t; state : State.t }.

(** A pending [setTimeout] callback. *)
Inductive Timer :=
| ClearSwitchMessage
| HideControlsIfPlaying (isPlaying : bool).

Inductive LogEntry :=
| ConsoleError (msg : string)
| ConsoleWarn (msg : string).

(** A call of one of the host's optional callbacks. *)
Inductive HostCall :=
| OnError (msg : string)
| OnLoaded
| OnEnded
| OnLoginSuccess.

Module World.
Record t := {
  props : Props.t;
  state : State.t;
  (* refs; a timer id is a positive integer, so a kept id is truthy *)
  videoPlayerRef : option Video.Element;
  playerRef : option Dash.MediaPlayer;
  formatListRef : list FormatItem.t;
  hideControlsTimer : option positive;
  previousBlobUrl : option string;
  (* the render whose handlers are subscribed to the engine's events *)
  listeners : option Render;
  (* browser *)
  objectURLs : list string;
  nextObjectURL : nat;
  timers : list (positive * Timer);
  nextTimer : positive;
  requests : list string;
  console : list LogEntry;
  (* host *)
  calls : list HostCall
}.

Definition initial (p : Props.t) (el : option Video.Element) : t :=
  {| props := p; state := State.initial; videoPlayerRef := el;
     playerRef := None; formatListRef := []; hideControlsTimer := None;
     previousBlobUrl := None; listeners := None; objectURLs := [];
     nextObjectURL := 0; timers := []; nextTimer := 1%positive;
     requests := []; console := []; calls := [] |}.

Definition with_state (s : State.t) (w : t) : t :=
  {| props := props w; state := s; videoPlayerRef := videoPlayerRef w;
     playerRef := playerRef w; formatListRef := formatListRef w;
     hideControlsTimer := hideControlsTimer w;
     previousBlobUrl := previousBlobUrl w; listeners := listeners w;
     objectURLs := objectURLs w; nextObjectURL := nextObjectURL w;
     timers := timers w; nextTimer := nextTimer w; requests := requests w;
     console := console w; calls := calls w |}.

Definition with_videoPlayerRef (v : option Video.Element) (w : t) : t :=
  {| props := props w; state := state w; videoPlayerRef := v;
     playerRef := playerRef w; formatListRef := formatListRef w;
     hideControlsTimer := hideControlsTimer w;
     previousBlobUrl := previousBlobUrl w; listeners := listeners w;
     objectURLs := objectURLs w; nextObjectURL := nextObjectURL w;
     timers := timers w; nextTimer := nextTimer w; requests := requests w;
     console := console w; calls := calls w |}.

Definition with_playerRef (v : option Dash.MediaPlayer) (w : t) : t :=
  {| props := props w; state := state w; videoPlayerRef := videoPlayerRef w;
     playerRef := v; formatListRef := formatListRef w;
     hideControlsTimer := hideControlsTimer w;
     previousBlobUrl := previousBlobUrl w; listeners := listeners w;
     objectURLs := objectURLs w; nextObjectURL := nextObjectURL w;
     timers := timers w; nextTimer := nextTimer w; requests := requests w;
     console := console w; calls := calls w |}.

Definition with_formatListRef (v : list FormatItem.t) (w : t) : t :=
  {| props := props w; state := state w; videoPlayerRef := videoPlayerRef w;
     playerRef := playerRef w; formatListRef := v;
     hideControlsTimer := hideControlsTimer w;
     previousBlobUrl := previousBlobUrl w; listeners := listeners w;
     objectURLs := objectURLs w; nextObjectURL := nextObjectURL w;
     timers := timers w; nextTimer := nextTimer w; requests := requests w;
     console := console w; calls := calls w |}.

Definition with_hideControlsTimer (v : option positive) (w : t) : t :=
  {| props := props w; state := state w; videoPlayerRef := videoPlayerRef w;
     playerRef := playerRef w; formatListRef := formatListRef w;
     hideControlsTimer := v;
     previousBlobUrl := previousBlobUrl w; listeners := listeners w;
     objectURLs := objectURLs w; nextObjectURL := nextObjectURL w;
     timers := timers w; nextTimer := nextTimer w; requests := requests w;
     console := console w; calls := calls w |}.

Definition with_previousBlobUrl (v : option string) (w : t) : t :=
  {| props := props w; state := state w; videoPlayerRef := videoPlayerRef w;
     playerRef := playerRef w; formatListRef := formatListRef w;
     hideControlsTimer := hideControlsTimer w;
     previousBlobUrl := v; listeners := listeners w;
     objectURLs := objectURLs w; nextObjectURL := nextObjectURL w;
     timers := timers w; nextTimer := nextTimer w; requests := requests w;
     console := console w; calls := calls w |}.

Definition with_listeners (v : option Render) (w : t) : t :=
  {| props := props w; state := state w; videoPlayerRef := videoPlayerRef w;
     playerRef := playerRef w; formatListRef := formatListRef w;
     hideControlsTimer := hideControlsTimer w;
     previousBlobUrl := previousBlobUrl w; listeners := v;
     objectURLs := objectURLs w; nextObjectURL := nextObjectURL w;
     timers := timers w; nextTimer := nextTimer w; requests := requests w;
     console := console w; calls := calls w |}.

Definition with_objectURLs (v : list string) (n : nat) (w : t) : t :=
  {| props := props w; state := state w; videoPlayerRef := videoPlayerRef w;
     playerRef := playerRef w; formatListRef := formatListRef w;
     hideControlsTimer := hideControlsTimer w;
     previousBlobUrl := previousBlobUrl w; listeners := listeners w;
     objectURLs := v; nextObjectURL := n;
     timers := timers w; nextTimer := nextTimer w; requests := requests w;
     console := console w; calls := calls w |}.

Definition with_timers (v : list (positive * Timer)) (n : positive) (w : t) : t :=
  {| props := props w; state := state w; videoPlayerRef := videoPlayerRef w;
     playerRef := playerRef w; formatListRef := formatListRef w;
     hideControlsTimer := hideControlsTimer w;
     previousBlobUrl := previousBlobUrl w; listeners := listeners w;
     objectURLs := objectURLs w; nextObjectURL := nextObjectURL w;
     timers := v; nextTimer := n; requests := requests w;
     console := console w; calls := calls w |}.

Definition with_requests (v : list string) (w : t) : t :=
  {| props := props w; state := state w; videoPlayerRef := videoPlayerRef w;
     playerRef := playerRef w; formatListRef := formatListRef w;
     hideControlsTimer := hideControlsTimer w;
     previousBlobUrl := previousBlobUrl w; listeners := listeners w;
     objectURLs := objectURLs w; nextObjectURL := nextObjectURL w;
     timers := timers w; nextTimer := nextTimer w; requests := v;
     console := console w; calls := calls w |}.

Definition with_console (v : list LogEntry) (w : t) : t :=
  {| props := props w; state := state w; videoPlayerRef := videoPlayerRef w;
     playerRef := playerRef w; formatListRef := formatListRef w;
     hideControlsTimer := hideControlsTimer w;
     previousBlobUrl := previousBlobUrl w; listeners := listeners w;
     objectURLs := objectURLs w; nextObjectURL := nextObjectURL w;
     timers := timers w; nextTimer := nextTimer w; requests := requests w;
     console := v; calls := calls w |}.

Definition with_calls (v : list HostCall) (w : t) : t :=
  {| props := props w; state := state w; videoPlayerRef := videoPlayerRef w;
     playerRef := playerRef w; formatListRef := formatListRef w;
     hideControlsTimer := hideControlsTimer w;
     previousBlobUrl := previousBlobUrl w; listeners := listeners w;
     objectURLs := objectURLs w; nextObjectURL := nextObjectURL w;
     timers := timers w; nextTimer := nextTimer w; requests := requests w;
     console := console w; calls := v |}.
End World.

(** ** Handlers: state and exceptions

    A handler runs on the world and either returns or throws; what it
    wrote before throwing stays written. *)

Inductive Exn := EngineError | TypeError.

Inductive Outcome (A : Type) :=
| Returned (a : A)
| Thrown (e : Exn).
Arguments Returned {A} a.
Arguments Thrown {A} e.

Definition M (A : Type) : Type := World.t -> Outcome A * World.t.

Definition ret {A} (a : A) : M A := fun w => (Returned a, w).

Definition bind {A B} (m : M A) (k : A -> M B) : M B :=
  fun w =>
    match m w with
    | (Returned a, w') => k a w'
    | (Thrown e, w') => (Thrown e, w')
    end.

Definition throw {A} (e : Exn) : M A := fun w => (Thrown e, w).

(** [try { body } catch (err) { handler }] *)
Definition try_catch {A} (body : M A) (handler : Exn -> M A) : M A :=
  fun w =>
    match body w with
    | (Returned a, w') => (Returned a, w')
    | (Thrown e, w') => handler e w'
    end.

Definition get : M World.t := fun w => (Returned w, w).
Definition modify (f : World.t -> World.t) : M unit := fun w => (Returned tt, f w).

Declare Scope handler_scope.
Delimit Scope handler_scope with handler.
Notation "x <- m ;; k" := (bind m (fun x => k))
  (at level 61, m at next level, right associativity) : handler_scope.
Notation "m ;; k" := (bind m (fun _ => k))
  (at level 61, right associativity) : handler_scope.
Local Open Scope handler_scope.

(** The world a handler leaves, and whether it threw. *)
Definition exec {A} (m : M A) (w : World.t) : World.t := snd (m w).

Definition throws {A} (m : M A) (w : World.t) : bool :=
  match fst (m w) with
  | Returned _ => false
  | Thrown _ => true
  end.

(** *** State setters, callbacks, console *)

Definition setState (f : State.t -> State.t) : M unit :=
  modify (fun w => World.with_state (f (World.state w)) w).

Definition setOptions v := setState (State.with_options v).
Definition setIsPlaying v := setState (State.with_isPlaying v).
Definition setVolume v := setState (State.with_volume v).
Definition setIsMuted v := setState (State.with_isMuted v).
Definition setShowControls v := setState (State.with_showControls v).
Definition setFormatListTwo v := setState (State.with_formatListTwo v).
Definition setAvailableQualities v := setState (State.with_availableQualities v).
Definition setCurrentQualityIndex v := setState (State.with_currentQualityIndex v).
Definition setCurrentQuality v := setState (State.with_currentQuality v).
Definition setCurrentAutoQuality v := setState (State.with_currentAutoQuality v).
Definition setIsLoggedIn v := setState (State.with_isLoggedIn v).
Definition setSwitchMessage v := setState (State.with_switchMessage v).
Definition setShowLoginModal v := setState (State.with_showLoginModal v).
Definition setCurrentSubtitle v := setState (State.with_currentSubtitle v).

(** [onError?.(...)], [onLoaded?.(...)], ...: the call is recorded. *)
Definition callHost (c : HostCall) : M unit :=
  modify (fun w => World.with_calls (World.calls w ++ [c]) w).

Definition consoleLog (l : LogEntry) : M unit :=
  modify (fun w => World.with_console (World.console w ++ [l]) w).

(** *** Browser: object URLs and timers *)

Definition blobUrlOfNat (n : nat) : string :=
  "blob:" ++ NilEmpty.string_of_uint (Nat.to_uint n).

(** [URL.createObjectURL(blob)]: a fresh URL, live until revoked. *)
Definition createObjectURL : M string :=
  w <- get ;;
  let u := blobUrlOfNat (World.nextObjectURL w) in
  modify (World.with_objectURLs (World.objectURLs w ++ [u])
            (S (World.nextObjectURL w))) ;;
  ret u.

(** [URL.revokeObjectURL(u)] *)
Definition revokeObjectURL (u : string) : M unit :=
  modify (fun w =>
    World.with_objectURLs (remove string_dec u (World.objectURLs w))
      (World.nextObjectURL w) w).

(** [setTimeout(callback, delay)]; the delay is not modelled: a pending
    timer may fire at any later step. *)
Definition setTimeout (t : Timer) : M positive :=
  w <- get ;;
  let i := World.nextTimer w in
  modify (World.with_timers (World.timers w ++ [(i, t)]) (Pos.succ i)) ;;
  ret i.

Definition clearTimeout (i : positive) : M unit :=
  modify (fun w =>
    World.with_timers
      (filter (fun p => negb (Pos.eqb (fst p) i)) (World.timers w))
      (World.nextTimer w) w).

(** *** Calls on [playerRef.current] and [videoPlayerRef.current]

    Reading a property of [null] is a [TypeError]. *)

Definition onPlayer (f : Dash.MediaPlayer -> Dash.MediaPlayer) : M unit :=
  w <- get ;;
  match World.playerRef w with
  | Some p => modify (World.with_playerRef (Some (f p)))
  | None => throw TypeError
  end.

Definition onPlayerThrowing (f : Dash.MediaPlayer -> option Dash.MediaPlayer)
  : M unit :=
  w <- get ;;
  match World.playerRef w with
  | Some p =>
      match f p with
      | Some p' => modify (World.with_playerRef (Some p'))
      | None => throw EngineError
      end
  | None => throw TypeError
  end.

Definition onVideo (f : Video.Element -> Video.Element) : M unit :=
  w <- get ;;
  match World.videoPlayerRef w with
  | Some e => modify (World.with_videoPlayerRef (Some (f e)))
  | None => throw TypeError
  end.

(** [videoPlayerRef.current.play().catch(err => console.warn(...))] *)
Definition playAndWarn : M unit :=
  w <- get ;;
  match World.videoPlayerRef w with
  | Some e =>
      modify (World.with_videoPlayerRef (Some (Video.play e))) ;;
      if Video.playRejects e
      then consoleLog (ConsoleWarn "切换后播放失败：")
      else ret tt
  | None => throw TypeError
  end.

(** ** The component *)

(** *** Subtitles *)

Definition processedSubtitles (subtitles : list Subtitle.t)
  : list ProcessedSubtitle.t :=
  map (fun sub =>
         {| ProcessedSubtitle.sub := sub;
            ProcessedSubtitle.startTime := parseTimeToSeconds (Subtitle.start sub);
            ProcessedSubtitle.endTime := parseTimeToSeconds (Subtitle.end_ sub) |})
      subtitles.

(** The value the subtitle effect passes to [setCurrentSubtitle];
    [currentTime >= sub.startTime] is [startTime <= currentTime]. *)
Definition currentSubtitleAt (currentTime : JS.number)
    (processed : list ProcessedSubtitle.t) : string :=
  if Nat.eqb (List.length processed) 0 then ""
  else
    let currentSub :=
      JS.find (fun sub =>
                 PrimFloat.leb (ProcessedSubtitle.startTime sub) currentTime
                 && PrimFloat.leb currentTime (ProcessedSubtitle.endTime sub))
              processed in
    match currentSub with
    | Some sub =>
        if JS.truthy_string (ProcessedSubtitle.text sub)
        then ProcessedSubtitle.text sub else ""
    | None => ""
    end.

Definition subtitleEffect (currentTime : JS.number)
    (processed : list ProcessedSubtitle.t) : M unit :=
  setCurrentSubtitle (currentSubtitleAt currentTime processed).

(** *** Manifest *)

(** The body of a successful response: [data.data]. *)
Record ManifestData := {
  unifiedMpd : string;
  formatList : list FormatItem.t
}.

(** [refetchManifest]: the request is recorded by the [url] it is made
    for (the proxy address [getBilibiliProxy] derives from it is not
    modelled); the response arrives later, in [manifestResponse]. *)
Definition refetchManifest (r : Render) : M unit :=
  match Props.url (props r) with
  | Some u =>
      if JS.truthy_string u
      then modify (fun w => World.with_requests (World.requests w ++ [u]) w)
      else ret tt
  | None => ret tt
  end.

(** The [then] and [catch] callbacks of the fetch; [None] is a failed
    request or a body that is not a manifest. *)
Definition manifestResponse (resp : option ManifestData) : M unit :=
  match resp with
  | Some data =>
      setFormatListTwo (formatList data) ;;
      blobUrl <- createObjectURL ;;
      setOptions {| Source.src := blobUrl; Source.type := "application/dash+xml" |}
  | None => consoleLog (ConsoleError "Failed to fetch MPD:")
  end.

(** [useEffect(() => { formatListRef.current = formatListTwo }, [formatListTwo])] *)
Definition formatListEffect (r : Render) : M unit :=
  modify (World.with_formatListRef (State.formatListTwo (state r))).

(** *** Controls *)

Definition toggleMute (r : Render) : M unit :=
  w <- get ;;
  match World.videoPlayerRef w with
  | None => ret tt
  | Some _ =>
      if State.isMuted (state r) then
        onVideo (Video.set_muted false) ;;
        setIsMuted false ;;
        if JS.strict_eq (State.volume (state r)) 0%float then
          let newVolume := 0.5%float in
          setVolume newVolume ;;
          onVideo (Video.set_volume newVolume)
        else ret tt
      else
        onVideo (Video.set_muted true) ;;
        setIsMuted true
  end.

Definition handleMouseMove (r : Render) : M unit :=
  setShowControls true ;;
  w <- get ;;
  match World.hideControlsTimer w with
  | Some i => clearTimeout i
  | None => ret tt
  end ;;
  i <- setTimeout (HideControlsIfPlaying (State.isPlaying (state r))) ;;
  modify (World.with_hideControlsTimer (Some i)).

(** *** Quality *)

Definition autoLabel : string := "自动".

Definition updateQualityList (r : Render) : M unit :=
  w <- get ;;
  match World.playerRef w with
  | None => ret tt
  | Some player =>
      if negb (JS.strict_eq (State.currentQualityIndex (state r)) (-1)%float)
      then ret tt
      else
        let videoRepresentations := Dash.videoRepresentations player in
        if Nat.eqb (List.length videoRepresentations) 0 then ret tt
        else
          match Dash.currentVideoRepresentation player with
          | None =>
              setCurrentQuality autoLabel ;;
              setCurrentAutoQuality ""
          | Some currentRepresentation =>
              let matchingQuality :=
                JS.find (fun quality =>
                           JS.strict_eq (FormatItem.id quality)
                             (JS.Number (Dash.id currentRepresentation)))
                        (World.formatListRef w) in
              match matchingQuality with
              | Some matchingQuality =>
                  let formatItem :=
                    JS.find (fun item =>
                               JS.strict_eq (FormatItem.id item)
                                 (FormatItem.id matchingQuality))
                            (World.formatListRef w) in
                  let autoDesc :=
                    match formatItem with
                    | Some item => FormatItem.display_desc item
                    | None => None
                    end in
                  match autoDesc with
                  | Some d =>
                      if JS.truthy_string d then setCurrentAutoQuality d
                      else ret tt
                  | None => ret tt
                  end ;;
                  setCurrentQuality autoLabel
              | None =>
                  setCurrentQuality autoLabel ;;
                  setCurrentAutoQuality ""
              end
          end
  end.

(** [if (wasPlaying && videoPlayerRef.current) ...play().catch(...)] *)
Definition resumeIfWasPlaying (wasPlaying : bool) : M unit :=
  w <- get ;;
  match World.videoPlayerRef w with
  | Some _ => if wasPlaying then playAndWarn else ret tt
  | None => ret tt
  end.

Definition changeQuality (r : Render) (index : JS.number) : M unit :=
  w <- get ;;
  match World.playerRef w with
  | None => ret tt
  | Some _ =>
      if Nat.eqb (List.length (State.availableQualities (state r))) 0 then ret tt
      else
        let wasPlaying := State.isPlaying (state r) in
        if JS.strict_eq index (-1)%float then
          onPlayer (Dash.updateSettings true None) ;;
          setCurrentQualityIndex (-1)%float ;;
          setCurrentQuality autoLabel ;;
          updateQualityList r ;;
          resumeIfWasPlaying wasPlaying
        else
          match JS.find (fun q => JS.strict_eq (Quality.index q) index)
                        (State.availableQualities (state r)) with
          | None => ret tt
          | Some targetQuality =>
              setSwitchMessage
                ("正在切换到 " ++ Quality.label targetQuality ++ ", 请稍等...") ;;
              _ <- setTimeout ClearSwitchMessage ;;
              try_catch
                (onPlayer (Dash.updateSettings false None) ;;
                 onPlayerThrowing (Dash.setRepresentationForTypeByIndex index) ;;
                 setCurrentQualityIndex index ;;
                 setCurrentQuality (Quality.label targetQuality) ;;
                 setCurrentAutoQuality "")
                (fun err =>
                   consoleLog (ConsoleError "切换清晰度失败：") ;;
                   onPlayer (Dash.updateSettings true None) ;;
                   setCurrentQualityIndex (-1)%float ;;
                   setCurrentQuality autoLabel ;;
                   setSwitchMessage "") ;;
              resumeIfWasPlaying wasPlaying
          end
  end.

(** The body of the [forEach] in the stream-initialized handler. *)
Definition pushQuality (isLoggedIn : bool)
    (videoReps : list Dash.Representation)
    (newQualities : list Quality.t) (item : FormatItem.t) : list Quality.t :=
  if JS.truthy_number (FormatItem.id item)
     && JS.truthy_opt_string (FormatItem.codecs item)
  then
    match JS.findIndex
            (fun rep => JS.strict_eq (JS.Number (Dash.id rep)) (FormatItem.id item))
            videoReps with
    | Some repIndex =>
        newQualities ++
        [ {| Quality.index := JS.of_nat repIndex;
             Quality.label := FormatItem.new_description item;
             Quality.id := FormatItem.id item;
             Quality.needLogin := false |} ]
    | None => newQualities
    end
  else if negb isLoggedIn && PrimFloat.ltb (FormatItem.id item) 112%float then
    newQualities ++
    [ {| Quality.index := FormatItem.id item;
         Quality.label := FormatItem.new_description item;
         Quality.id := FormatItem.id item;
         Quality.needLogin := true |} ]
  else newQualities.

Definition newQualities (isLoggedIn : bool) (formatList : list FormatItem.t)
    (videoReps : list Dash.Representation) : list Quality.t :=
  fold_left (pushQuality isLoggedIn videoReps) formatList [].

(** The handler of [STREAM_INITIALIZED], created in render [r]. *)
Definition onStreamInitialized (r : Render) : M unit :=
  w <- get ;;
  let videoReps :=
    match World.playerRef w with
    | Some player => Dash.videoRepresentations player
    | None => []
    end in
  setAvailableQualities
    (newQualities (State.isLoggedIn (state r)) (World.formatListRef w) videoReps) ;;
  updateQualityList r.

(** The handler of [PLAYBACK_ENDED]. *)
Definition onPlaybackEnded : M unit :=
  callHost OnEnded ;;
  setIsPlaying false.

(** The handler of [ERROR]; [e] is the event as the template string
    prints it. *)
Definition onEngineError (e : string) : M unit :=
  consoleLog (ConsoleError "dash.js 播放错误:") ;;
  callHost (OnError ("播放错误: " ++ e)).

(** The handler of [QUALITY_CHANGE_RENDERED], created in render [r]. *)
Definition onQualityChangeRendered (r : Render)
    (newRepresentation oldRepresentation : option Dash.Representation) : M unit :=
  (if JS.strict_eq (State.currentQualityIndex (state r)) (-1)%float
   then updateQualityList r else ret tt) ;;
  match newRepresentation, oldRepresentation with
  | Some n, Some o =>
      if negb (JS.strict_eq (Dash.index n) (Dash.index o)) then
        w <- get ;;
        match JS.find (fun q => JS.strict_eq (FormatItem.id q) (JS.Number (Dash.id n)))
                      (World.formatListRef w) with
        | Some quality =>
            setSwitchMessage ("已经切换到 " ++ FormatItem.new_description quality) ;;
            _ <- setTimeout ClearSwitchMessage ;;
            ret tt
        | None => ret tt
        end
      else ret tt
  | _, _ => ret tt
  end.

(** *** Lifecycle *)

Definition revokePreviousBlobUrl : M unit :=
  w <- get ;;
  match World.previousBlobUrl w with
  | Some u =>
      if JS.truthy_string u then
        revokeObjectURL u ;;
        modify (World.with_previousBlobUrl None)
      else ret tt
  | None => ret tt
  end.

Definition destroyPlayer : M unit :=
  w <- get ;;
  match World.playerRef w with
  | Some _ =>
      try_catch
        (onPlayerThrowing Dash.reset ;;
         modify (World.with_playerRef None))
        (fun error => consoleLog (ConsoleWarn "销毁播放器时发生错误:"))
  | None => ret tt
  end ;;
  w <- get ;;
  match World.hideControlsTimer w with
  | Some i =>
      clearTimeout i ;;
      modify (World.with_hideControlsTimer None)
  | None => ret tt
  end ;;
  revokePreviousBlobUrl.

Definition initPlayer (r : Render) : M unit :=
  w <- get ;;
  match World.videoPlayerRef w with
  | None => callHost (OnError "视频元素未初始化")
  | Some _ =>
      match World.playerRef w with
      | Some _ => destroyPlayer
      | None => ret tt
      end ;;
      modify (World.with_playerRef (Some Dash.create)) ;;
      onPlayer (Dash.updateSettings true (Some true)) ;;
      modify (World.with_listeners (Some r)) ;;
      onPlayer (Dash.initialize (Source.src (State.options (state r)))
                  (Props.autoPlay (props r))) ;;
      callHost OnLoaded
  end.

Definition updateSrc (r : Render) (newSource : Source.t) : M unit :=
  w <- get ;;
  match World.playerRef w with
  | None => initPlayer r
  | Some _ => ret tt
  end ;;
  w <- get ;;
  match World.playerRef w with
  | None => callHost (OnError "播放器未初始化")
  | Some _ =>
      if negb (JS.truthy_string (Source.src newSource)) then
        callHost (OnError "视频源地址不能为空")
      else
        revokePreviousBlobUrl ;;
        onPlayer (Dash.attachSource (Source.src newSource))
  end.

(** [useEffect(() => { if (options?.src) updateSrc(options) }, [options])] *)
Definition optionsEffect (r : Render) : M unit :=
  if JS.truthy_string (Source.src (State.options (state r)))
  then updateSrc r (State.options (state r))
  else ret tt.

Definition handleLoginSuccess (r : Render) : M unit :=
  setShowLoginModal false ;;
  callHost OnLoginSuccess ;;
  setIsLoggedIn true ;;
  refetchManifest r.

(** A pending timer fires: it leaves the list and its callback runs. *)
Definition fireTimer (i : positive) : M unit :=
  w <- get ;;
  match JS.find (fun p => Pos.eqb (fst p) i) (World.timers w) with
  | Some (_, t) =>
      clearTimeout i ;;
      match t with
      | ClearSwitchMessage => setSwitchMessage ""
      | HideControlsIfPlaying playing =>
          if playing then setShowControls false else ret tt
      end
  | None => ret tt
  end.

(** *** The component as a transition system *)

Inductive Event :=
| FetchSettled (resp : option ManifestData)
| HandleUpdateSrc (newSource : Source.t)
| LoginSucceeded
| EngineStreamInitialized
| UserChangeQuality (index : JS.number)
| UserToggleMute
| TimerFired (i : positive)
| Unmounted.

(** The render that follows the current state. *)
Definition render (w : World.t) : Render :=
  {| props := World.props w; state := World.state w |}.

(** One event: its handler runs with the values of the last render; a
    settled fetch changes [formatListTwo] and [options], so the two
    effects that depend on them run after the next render.  The engine
    calls the handlers of the render that created it. *)
Definition step (w : World.t) (e : Event) : World.t :=
  match e with
  | FetchSettled resp =>
      let w1 := exec (manifestResponse resp) w in
      match resp with
      | Some _ =>
          exec (formatListEffect (render w1) ;; optionsEffect (render w1)) w1
      | None => w1
      end
  | HandleUpdateSrc s => exec (updateSrc (render w) s) w
  | LoginSucceeded => exec (handleLoginSuccess (render w)) w
  | EngineStreamInitialized =>
      match World.playerRef w, World.listeners w with
      | Some _, Some r => exec (onStreamInitialized r) w
      | _, _ => w
      end
  | UserChangeQuality i => exec (changeQuality (render w) i) w
  | UserToggleMute => exec (toggleMute (render w)) w
  | TimerFired i => exec (fireTimer i) w
  | Unmounted => exec destroyPlayer w
  end.

Definition run (w : World.t) (events : list Event) : World.t :=
  fold_left step events w.

(** ** Vocabulary of the statements *)

(** The separators do not occur in a field of a timestamp. *)
Definition field (s : string) : Prop :=
  JS.includes ":" s = false /\ JS.includes "," s = false.

(** The interval of [sub] contains [t], both ends included. *)
Definition inInterval (t : JS.number) (sub : ProcessedSubtitle.t) : Prop :=
  PrimFloat.leb (ProcessedSubtitle.startTime sub) t = true
  /\ PrimFloat.leb t (ProcessedSubtitle.endTime sub) = true.

(** The number of manifests that arrived among the events. *)
Fixpoint manifests (events : list Event) : nat :=
  match events with
  | [] => 0
  | FetchSettled (Some _) :: rest => S (manifests rest)
  | _ :: rest => manifests rest
  end.

(** What a handler keeps true of the world, whether it returns or throws. *)
Definition preserves {A} (P : World.t -> Prop) (m : M A) : Prop :=
  forall w, P w -> P (snd (m w)).

(** No URL is remembered for revocation, and the live object URLs are [urls]. *)
Definition holdsUrls (urls : list string) (w : World.t) : Prop :=
  World.previousBlobUrl w = None /\ World.objectURLs w = urls.

(** ** Sample values *)

Module Sample.

#[warnings="-inexact-float"]
Definition video : Video.Element :=
  {| Video.muted := false; Video.volume := 0.7%float; Video.paused := true;
     Video.playCalls := 0; Video.playRejects := false |}.

Definition rejectingVideo : Video.Element :=
  {| Video.muted := true; Video.volume := 0%float; Video.paused := true;
     Video.playCalls := 0; Video.playRejects := true |}.

Definition props : Props.t :=
  {| Props.url := Some "https://www.bilibili.com/video/BV1GJ411x7h7";
     Props.autoPlay := false |}.

(** The component after mounting, with and without its video element. *)
Definition mounted : World.t := World.initial props (Some video).
Definition detached : World.t := World.initial props None.

Definition representations : list Dash.Representation :=
  [ {| Dash.id := "32"; Dash.index := 0%float |};
    {| Dash.id := "64"; Dash.index := 1%float |};
    {| Dash.id := "80"; Dash.index := 2%float |} ].

(** An engine that plays the second representation; [throwing] makes
    its representation switch throw. *)
Definition player (throwing : bool) : Dash.MediaPlayer :=
  {| Dash.autoSwitchBitrateVideo := true; Dash.autoSwitchBitrateAudio := true;
     Dash.view := true; Dash.autoPlay := false; Dash.source := Some "blob:0";
     Dash.videoRepresentations := representations;
     Dash.currentVideoRepresentation := nth_error representations 1;
     Dash.requestedVideoIndex := None;
     Dash.switchThrows := throwing; Dash.resetThrows := false |}.

Definition formats : list FormatItem.t :=
  [ {| FormatItem.id := 80%float; FormatItem.new_description := "1080P 高清";
       FormatItem.display_desc := Some "1080P"; FormatItem.codecs := Some "avc1.640032" |};
    {| FormatItem.id := 64%float; FormatItem.new_description := "720P 准高清";
       FormatItem.display_desc := Some "720P"; FormatItem.codecs := Some "avc1.640028" |};
    {| FormatItem.id := 32%float; FormatItem.new_description := "480P 标清";
       FormatItem.display_desc := None; FormatItem.codecs := Some "avc1.64001F" |} ].

Definition qualities : list Quality.t := newQualities false formats representations.

(** A playing component with an engine and the quality menu built. *)
Definition playing (throwing : bool) (el : Video.Element) : World.t :=
  World.with_state
    (State.with_isPlaying true
       (State.with_availableQualities qualities State.initial))
    (World.with_formatListRef formats
       (World.with_playerRef (Some (player throwing))
          (World.initial props (Some el)))).

Definition manifest : ManifestData :=
  {| unifiedMpd := "<MPD/>"; formatList := formats |}.

End Sample.

(** ** Further handlers *)

(** [videoPlayerRef.current.volume = v]: the element takes a volume
    between 0 and 1; for any other value the assignment raises an
    exception (an [IndexSizeError], or a [TypeError] when the value is
    not finite), recorded here as one exception. *)
Definition volumeAccepted (v : JS.number) : bool :=
  PrimFloat.leb 0%float v && PrimFloat.leb v 1%float.

Definition assignVolume (v : JS.number) : M unit :=
  if volumeAccepted v then onVideo (Video.set_volume v) else throw TypeError.

Definition handleVolumeChange (newVolume : JS.number) : M unit :=
  setVolume newVolume ;;
  w <- get ;;
  match World.videoPlayerRef w with
  | Some _ =>
      assignVolume newVolume ;;
      setIsMuted (JS.strict_eq newVolume 0%float)
  | None => ret tt
  end.

Definition hideControlsFn (r : Render) : M unit :=
  if State.isPlaying (state r) then setShowControls false else ret tt.

(** *** The handlers as one transition system *)

(** The props after a render with the url prop [url]. *)
Definition withUrl (url : option string) (w : World.t) : World.t :=
  {| World.props :=
       {| Props.url := url; Props.autoPlay := Props.autoPlay (World.props w) |};
     World.state := World.state w;
     World.videoPlayerRef := World.videoPlayerRef w;
     World.playerRef := World.playerRef w;
     World.formatListRef := World.formatListRef w;
     World.hideControlsTimer := World.hideControlsTimer w;
     World.previousBlobUrl := World.previousBlobUrl w;
     World.listeners := World.listeners w;
     World.objectURLs := World.objectURLs w;
     World.nextObjectURL := World.nextObjectURL w;
     World.timers := World.timers w;
     World.nextTimer := World.nextTimer w;
     World.requests := World.requests w;
     World.console := World.console w;
     World.calls := World.calls w |}.

(** [useEffect(() => { refetchManifest() }, [url])], in a render with the
    url prop [url]: the effect runs at mount and after every render whose
    url differs from that of the render before. *)
Definition urlEffect (url : option string) : M unit :=
  modify (withUrl url) ;;
  w <- get ;;
  refetchManifest (render w).

(** What happens to the component, one action at a time: the events of
    [step], the mouse over the container, the volume control, the other
    three events of the engine, and a run of the effect of [url].  The
    handlers [togglePlay], [seek], [handleSpeedChange],
    [toggleFullscreen], [togglePiP] and [updateProgress], and the effect
    that subscribes to the events of the video element, act on state and
    on attributes of the element that [State.t] and [Video.Element] do
    not hold; no action stands for them. *)
Inductive Action :=
| Core (e : Event)
| MouseMoved
| MouseLeft
| VolumeChanged (newVolume : JS.number)
| EngineQualityChangeRendered (newRepresentation oldRepresentation : option Dash.Representation)
| EnginePlaybackEnded
| EngineErrored (e : string)
| UrlEffect (url : option string).

(** The engine calls the handlers that [initPlayer] subscribed, those of
    the render kept in [listeners], and only while it exists. *)
Definition engineHandler (w : World.t) (h : Render -> M unit) : M unit :=
  match World.playerRef w, World.listeners w with
  | Some _, Some r => h r
  | _, _ => ret tt
  end.

(** The handler an event runs in world [w]; after a manifest the two
    effects run with the render that follows it. *)
Definition handlerOf (w : World.t) (e : Event) : M unit :=
  match e with
  | FetchSettled resp =>
      manifestResponse resp ;;
      match resp with
      | Some _ =>
          w1 <- get ;;
          formatListEffect (render w1) ;;
          optionsEffect (render w1)
      | None => ret tt
      end
  | HandleUpdateSrc s => updateSrc (render w) s
  | LoginSucceeded => handleLoginSuccess (render w)
  | EngineStreamInitialized => engineHandler w onStreamInitialized
  | UserChangeQuality i => changeQuality (render w) i
  | UserToggleMute => toggleMute (render w)
  | TimerFired i => fireTimer i
  | Unmounted => destroyPlayer
  end.

Definition handle (w : World.t) (a : Action) : M unit :=
  match a with
  | Core e => handlerOf w e
  | MouseMoved => handleMouseMove (render w)
  | MouseLeft => hideControlsFn (render w)
  | VolumeChanged v => handleVolumeChange v
  | EngineQualityChangeRendered n o =>
      engineHandler w (fun r => onQualityChangeRendered r n o)
  | EnginePlaybackEnded => engineHandler w (fun _ => onPlaybackEnded)
  | EngineErrored e => engineHandler w (fun _ => onEngineError e)
  | UrlEffect url => urlEffect url
  end.

Definition act (w : World.t) (a : Action) : World.t := exec (handle w a) w.

Definition perform (w : World.t) (actions : list Action) : World.t :=
  fold_left act actions w.

(** The refs hold an engine ([p]) and a video element ([v]), or not. *)
Definition isSome {A} (o : option A) : bool :=
  match o with Some _ => true | None => false end.

Definition refsAre (p v : bool) (w : World.t) : Prop :=
  isSome (World.playerRef w) = p /\ isSome (World.videoPlayerRef w) = v.

(** From a world where [P] holds, the handler returns. *)
Definition returns {A} (P : World.t -> Prop) (m : M A) : Prop :=
  forall w, P w -> exists a, fst (m w) = Returned a.

(** The engine, if there is one, switches the video bitrate by itself. *)
Definition engineAutomatic (w : World.t) : Prop :=
  forall player,
    World.playerRef w = Some player -> Dash.autoSwitchBitrateVideo player = true.

(** Whenever the selected index is -1, the label is the automatic one and
    the engine switches by itself. *)
Definition automaticConsistent (w : World.t) : Prop :=
  JS.strict_eq (State.currentQualityIndex (World.state w)) (-1)%float = true ->
  State.currentQuality (World.state w) = autoLabel /\ engineAutomatic w.

(** The label is the automatic one and the engine switches by itself. *)
Definition automaticShown (w : World.t) : Prop :=
  State.currentQuality (World.state w) = autoLabel /\ engineAutomatic w.

(** *** Timers *)

Definition isHideTimer (p : positive * Timer) : bool :=
  match snd p with
  | HideControlsIfPlaying _ => true
  | ClearSwitchMessage => false
  end.

(** The pending timers that hide the controls. *)
Definition hideTimers (w : World.t) : list (positive * Timer) :=
  filter isHideTimer (World.timers w).

(** The pending timers that clear the switch message. *)
Definition messageTimers (w : World.t) : list (positive * Timer) :=
  filter (fun p => negb (isHideTimer p)) (World.timers w).

(** The ids of the pending timers are distinct and below the next id, as
    is the id kept in [hideControlsTimer]; and the pending timers that
    hide the controls are those with the kept id. *)
Definition timersTracked (w : World.t) : Prop :=
  Forall (fun p => (fst p < World.nextTimer w)%positive) (World.timers w)
  /\ NoDup (map fst (World.timers w))
  /\ Forall (fun p => isHideTimer p = true
                      <-> World.hideControlsTimer w = Some (fst p))
            (World.timers w)
  /\ (forall i, World.hideControlsTimer w = Some i ->
                (i < World.nextTimer w)%positive).

(** The pending timers once the timer kept in [hideControlsTimer] is
    cleared. *)
Definition timersWithoutKept (w : World.t) : list (positive * Timer) :=
  match World.hideControlsTimer w with
  | Some i => filter (fun p => negb (Pos.eqb (fst p) i)) (World.timers w)
  | None => World.timers w
  end.

(** *** The engine and its handlers *)

Definition isUnmount (a : Action) : bool :=
  match a with
  | Core Unmounted => true
  | _ => false
  end.

(** There is an engine and its handlers are those of render [l]. *)
Definition engineKept (l : option Render) (w : World.t) : Prop :=
  isSome (World.playerRef w) = true /\ World.listeners w = l.

(** The engine reports the video representations [reps]. *)
Definition engineReports (reps : list Dash.Representation) (w : World.t) : Prop :=
  option_map Dash.videoRepresentations (World.playerRef w) = Some reps.

(** The engine [initPlayer] leaves in [playerRef], for render [r]. *)
Definition freshEngine (r : Render) : Dash.MediaPlayer :=
  Dash.initialize (Source.src (State.options (state r))) (Props.autoPlay (props r))
    (Dash.updateSettings true (Some true) Dash.create).

(** The automatic selection, in the component and on the engine. *)
Definition automaticSelected (w : World.t) : Prop :=
  State.currentQualityIndex (World.state w) = (-1)%float
  /\ State.currentQuality (World.state w) = autoLabel
  /\ option_map Dash.autoSwitchBitrateVideo (World.playerRef w) = Some true.

(** *** The entries of the quality menu *)

(** What stands behind entry [q] of a menu built with the login state
    [isLoggedIn] for the representations [reps]: a representation the
    engine reported, at the position the entry has as index and with the
    entry's id; or, for an entry that needs a login, a login state that is
    false and an id below 112 that is also the index. *)
Definition entryJustified (isLoggedIn : bool) (reps : list Dash.Representation)
    (q : Quality.t) : Prop :=
  if Quality.needLogin q then
    isLoggedIn = false
    /\ Quality.index q = Quality.id q
    /\ PrimFloat.ltb (Quality.id q) 112%float = true
  else
    exists i rep,
      nth_error reps i = Some rep
      /\ Quality.index q = JS.of_nat i
      /\ JS.strict_eq (JS.Number (Dash.id rep)) (Quality.id q) = true.

(** There is neither a video element nor an engine. *)
Definition detachedWorld (w : World.t) : Prop :=
  World.videoPlayerRef w = None /\ World.playerRef w = None.

(** An action that leaves the timer with id [n] alone: no mouse move, no
    teardown, and not the firing of [n]. *)
Definition leavesTimer (n : positive) (a : Action) : bool :=
  match a with
  | MouseMoved => false
  | Core Unmounted => false
  | Core (TimerFired i) => negb (Pos.eqb i n)
  | _ => true
  end.

(** The timer with id [n] is pending, and it is [t]. *)
Definition timerPending (n : positive) (t : Timer) (w : World.t) : Prop :=
  JS.find (fun p => Pos.eqb (fst p) n) (World.timers w) = Some (n, t).

(** ** Further sample values *)

Module Scenario.

(** The formats of [Sample], and one the manifest gives no codecs for. *)
Definition formats : list FormatItem.t :=
  Sample.formats ++
  [ {| FormatItem.id := 16%float; FormatItem.new_description := "360P 流畅";
       FormatItem.display_desc := None; FormatItem.codecs := None |} ].

Definition manifest : ManifestData :=
  {| unifiedMpd := "<MPD/>"; formatList := formats |}.

(** A playing component whose engine has the handlers of the render it
    shows: no explicit selection, a viewer who is not logged in. *)
Definition streaming : World.t :=
  World.with_listeners (Some (render (Sample.playing false Sample.video)))
    (Sample.playing false Sample.video).

(** An engine whose [reset] throws. *)
Definition stubborn : Dash.MediaPlayer :=
  {| Dash.autoSwitchBitrateVideo := true; Dash.autoSwitchBitrateAudio := true;
     Dash.view := true; Dash.autoPlay := false; Dash.source := Some "blob:0";
     Dash.videoRepresentations := Sample.representations;
     Dash.currentVideoRepresentation := None;
     Dash.requestedVideoIndex := None;
     Dash.switchThrows := false; Dash.resetThrows := true |}.

(** The component of [Sample] after the viewer selected the first
    format. *)
Definition manual : World.t :=
  World.with_state
    (State.with_currentQuality "1080P 高清"
       (State.with_currentQualityIndex 2%float
          (World.state (Sample.playing false Sample.video))))
    (World.with_playerRef
       (Some (Dash.updateSettings false None (Sample.player false)))
       (Sample.playing false Sample.video)).

(** The viewer logs in and the manifest requested then arrives. *)
Definition login : list Action :=
  [Core LoginSucceeded; Core (FetchSettled (Some manifest))].

(** The entry of the menu of [Sample] for the first format. *)
Definition highest : Quality.t :=
  {| Quality.index := 2%float; Quality.label := "1080P 高清";
     Quality.id := 80%float; Quality.needLogin := false |}.

Definition line (start end_ text : string) : Subtitle.t :=
  {| Subtitle.end_ := end_; Subtitle.seq := 0%float;
     Subtitle.text := text; Subtitle.start := start |}.

End Scenario.

(** ** Requests, message timers, the height of the container *)



Definition firesTimer (n : positive) (a : Action) : bool :=
  match a with
  | Core (TimerFired i) => Pos.eqb i n
  | _ => false
  end.

(** [s.includes(pattern)] for a pattern that is a string. *)
Fixpoint includesString (pattern s : string) : bool :=
  String.prefix pattern s
  || match s with
     | EmptyString => false
     | String _ rest => includesString pattern rest
     end.

(** [height.includes('%') || height.includes('px') ? height : `${height}px`] *)
Definition containerHeight (height : string) : string :=
  if JS.includes "%" height || includesString "px" height
  then height else (height ++ "px")%string.

(** * Properties *)

(** ** Numbers *)

Section FloatComparison.

Lemma SFcompare_Eq_cases (a b : spec_float) :
  SFcompare a b = Some Eq ->
  a = b \/ (exists s1 s2, a = S754_zero s1 /\ b = S754_zero s2).
Proof.
  destruct a as [s1|s1| |s1 m1 e1], b as [s2|s2| |s2 m2 e2]; simpl;
    try discriminate; try (destruct s1; discriminate);
    try (destruct s2; discriminate).
  - intros _. right. eauto.
  - destruct s1, s2; try discriminate; auto.
  - destruct s1, s2; try discriminate; intros H; left;
      injection H as H;
      destruct (Z.compare e1 e2) eqn:He; try discriminate;
      apply Z.compare_eq in He; subst e2;
      destruct (Pos.compare_cont Eq m1 m2) eqn:Hm; try discriminate;
      apply Pos.compare_eq in Hm; now subst.
Qed.

Lemma SFcompare_antisym (a b : spec_float) :
  SFcompare b a = option_map CompOpp (SFcompare a b).
Proof.
  destruct a as [s1|s1| |s1 m1 e1], b as [s2|s2| |s2 m2 e2]; simpl;
    try reflexivity;
    try (destruct s1; reflexivity); try (destruct s2; reflexivity);
    try (destruct s1, s2; reflexivity).
  destruct s1, s2; simpl; try reflexivity;
    rewrite (Z.compare_antisym e1 e2);
    destruct (Z.compare e1 e2); simpl; try reflexivity;
    rewrite (Pos.compare_cont_antisym m1 m2 Eq); simpl;
    destruct (Pos.compare_cont Eq m1 m2); reflexivity.
Qed.




Lemma leb_refl (x : float) :
  PrimFloat.eqb x x = true -> PrimFloat.leb x x = true.
Proof.
  rewrite eqb_spec, leb_spec. unfold SFeqb, SFleb.
  now destruct (SFcompare (Prim2SF x) (Prim2SF x)) as [[]|].
Qed.

Lemma leb_not_ltb (x y : float) :
  PrimFloat.leb x y = true -> PrimFloat.ltb y x = false.
Proof.
  rewrite leb_spec, ltb_spec. unfold SFleb, SFltb.
  rewrite (SFcompare_antisym (Prim2SF x) (Prim2SF y)).
  now destruct (SFcompare (Prim2SF x) (Prim2SF y)) as [[]|].
Qed.

End FloatComparison.

(** [Number] on a few strings, as an ECMAScript engine evaluates them. *)
Example Number_examples :
  JS.Number "500" = 500%float
  /\ JS.Number "05" = 5%float
  /\ JS.Number "" = 0%float
  /\ JS.Number " 12.5 " = 12.5%float
  /\ JS.Number "1e3" = 1000%float
  /\ JS.Number "0x1F" = 31%float
  /\ JS.Number "-Infinity" = PrimFloat.neg_infinity
  /\ JS.Number "abc" = JS.NaN
  /\ JS.Number "12px" = JS.NaN
  /\ JS.Number "9007199254740993" = 9007199254740992%float.
Proof. repeat split. Qed.

(** ** Strings and arrays *)

Lemma split_without_separator (sep : ascii) (s : string) :
  JS.includes sep s = false -> JS.split sep s = [s].
Proof.
  induction s as [|c s IH]; simpl; intros H; [reflexivity|].
  apply orb_false_elim in H as [Hc Hs].
  rewrite Hc, (IH Hs). reflexivity.
Qed.

Lemma split_at_separator (sep : ascii) (a b : string) :
  JS.includes sep a = false ->
  JS.split sep (a ++ String sep b) = a :: JS.split sep b.
Proof.
  induction a as [|c a IH]; simpl; intros H.
  - now rewrite Ascii.eqb_refl.
  - apply orb_false_elim in H as [Hc Ha].
    rewrite Hc, (IH Ha). reflexivity.
Qed.

Lemma string_app_assoc (a b c : string) :
  ((a ++ b) ++ c = a ++ (b ++ c))%string.
Proof. induction a as [|d a IH]; simpl; [reflexivity | now rewrite IH]. Qed.

Lemma includes_app (c : ascii) (a b : string) :
  JS.includes c (a ++ b) = JS.includes c a || JS.includes c b.
Proof.
  induction a as [|d a IH]; simpl; [reflexivity|].
  now rewrite IH, orb_assoc.
Qed.

Lemma truthy_string_nonempty (s : string) :
  s <> "" -> JS.truthy_string s = true.
Proof. destruct s; [congruence | reflexivity]. Qed.

Lemma truthy_string_self (s : string) :
  (if JS.truthy_string s then s else "") = s.
Proof. now destruct s. Qed.

(** [find] returns the first element that satisfies the predicate. *)
Lemma find_first {A} (p : A -> bool) (pre post : list A) (x : A) :
  (forall y, In y pre -> p y = false) -> p x = true ->
  JS.find p (pre ++ x :: post) = Some x.
Proof.
  induction pre as [|y pre IH]; simpl; intros Hpre Hx.
  - now rewrite Hx.
  - rewrite (Hpre y (or_introl eq_refl)). apply IH; auto.
Qed.

Lemma find_none {A} (p : A -> bool) (l : list A) :
  (forall y, In y l -> p y = false) -> JS.find p l = None.
Proof.
  induction l as [|y l IH]; simpl; intros H; [reflexivity|].
  rewrite (H y (or_introl eq_refl)). apply IH; auto.
Qed.

Lemma find_some {A} (p : A -> bool) (l : list A) (x : A) :
  JS.find p l = Some x ->
  exists pre post, l = pre ++ x :: post /\ p x = true /\
                   (forall y, In y pre -> p y = false).
Proof.
  induction l as [|y l IH]; simpl; [discriminate|].
  destruct (p y) eqn:Hy.
  - intros [= ->]. exists [], l. repeat split; auto. intros ? [].
  - intros H. destruct (IH H) as (pre & post & -> & Hx & Hpre).
    exists (y :: pre), post. repeat split; auto.
    intros z [<-|Hz]; auto.
Qed.

Lemma findIndex_from_first {A} (p : A -> bool) (pre post : list A) (x : A) (i : nat) :
  (forall y, In y pre -> p y = false) -> p x = true ->
  JS.findIndex_from p (pre ++ x :: post) i = Some (i + List.length pre).
Proof.
  revert i. induction pre as [|y pre IH]; simpl; intros i Hpre Hx.
  - rewrite Hx. f_equal. lia.
  - rewrite (Hpre y (or_introl eq_refl)), IH by auto. f_equal. lia.
Qed.

Lemma findIndex_from_none {A} (p : A -> bool) (l : list A) (i : nat) :
  (forall y, In y l -> p y = false) -> JS.findIndex_from p l i = None.
Proof.
  revert i. induction l as [|y l IH]; simpl; intros i H; [reflexivity|].
  rewrite (H y (or_introl eq_refl)). apply IH; auto.
Qed.

(** ** Time codec *)

Section TimeCodec.
Local Open Scope string_scope.

Lemma split_time (h m s : string) :
  field h -> field m -> field s ->
  JS.split ":" (h ++ ":" ++ m ++ ":" ++ s) = [h; m; s].
Proof.
  intros [Hh _] [Hm _] [Hs _].
  change (h ++ ":" ++ m ++ ":" ++ s)
    with (h ++ String ":" (m ++ String ":" s)).
  rewrite split_at_separator, split_at_separator, split_without_separator; auto.
Qed.

Lemma time_without_comma (h m s : string) :
  field h -> field m -> field s ->
  JS.includes "," (h ++ ":" ++ m ++ ":" ++ s) = false.
Proof.
  intros [_ Hh] [_ Hm] [_ Hs].
  rewrite !includes_app, Hh, Hm, Hs. reflexivity.
Qed.

Lemma parseTimeToSeconds_with_ms (h m s ms : string) :
  field h -> field m -> field s ->
  JS.includes "," ms = false -> ms <> "" ->
  parseTimeToSeconds (h ++ ":" ++ m ++ ":" ++ s ++ "," ++ ms)
  = (JS.Number h * 3600 + JS.Number m * 60 + JS.Number s
     + JS.Number ms / 1000)%float.
Proof.
  intros Hh Hm Hs Hms Hne. unfold parseTimeToSeconds.
  replace (h ++ ":" ++ m ++ ":" ++ s ++ "," ++ ms)
    with ((h ++ ":" ++ m ++ ":" ++ s) ++ String "," ms)
    by (now rewrite !string_app_assoc).
  rewrite split_at_separator by now apply time_without_comma.
  rewrite (split_without_separator _ ms Hms).
  cbn [nth nth_error]. rewrite split_time by assumption.
  cbn [map nth_error JS.ToNumber].
  now rewrite (truthy_string_nonempty ms Hne).
Qed.

Lemma parseTimeToSeconds_without_ms (h m s : string) :
  field h -> field m -> field s ->
  parseTimeToSeconds (h ++ ":" ++ m ++ ":" ++ s)
  = (JS.Number h * 3600 + JS.Number m * 60 + JS.Number s + 0 / 1000)%float.
Proof.
  intros Hh Hm Hs. unfold parseTimeToSeconds.
  rewrite (split_without_separator "," _ (time_without_comma h m s Hh Hm Hs)).
  cbn [nth nth_error]. rewrite split_time by assumption.
  reflexivity.
Qed.

Lemma parseTimeToSeconds_empty_ms (h m s : string) :
  field h -> field m -> field s ->
  parseTimeToSeconds (h ++ ":" ++ m ++ ":" ++ s ++ ",")
  = (JS.Number h * 3600 + JS.Number m * 60 + JS.Number s + 0 / 1000)%float.
Proof.
  intros Hh Hm Hs. unfold parseTimeToSeconds.
  replace (h ++ ":" ++ m ++ ":" ++ s ++ ",")
    with ((h ++ ":" ++ m ++ ":" ++ s) ++ String "," "")
    by (now rewrite !string_app_assoc).
  rewrite split_at_separator by now apply time_without_comma.
  cbn [JS.split nth nth_error]. rewrite split_time by assumption.
  reflexivity.
Qed.

(** C6 (amended): for fields [h], [m], [s] that contain no separator,
    the timestamp [h:m:s,ms] is converted to
    [hours * 3600 + minutes * 60 + seconds + milliseconds / 1000], each
    field read by [Number]; when the millisecond segment is missing or
    empty, 0 stands for it; and ["00:01:05,500"] gives 65.5. *)
Theorem parseTimeToSeconds_spec (h m s : string) :
  field h -> field m -> field s ->
  let seconds_with ms :=
    (JS.Number h * 3600 + JS.Number m * 60 + JS.Number s + ms / 1000)%float in
  (forall ms, JS.includes "," ms = false -> ms <> "" ->
     parseTimeToSeconds (h ++ ":" ++ m ++ ":" ++ s ++ "," ++ ms)
     = seconds_with (JS.Number ms))
  /\ parseTimeToSeconds (h ++ ":" ++ m ++ ":" ++ s) = seconds_with 0%float
  /\ parseTimeToSeconds (h ++ ":" ++ m ++ ":" ++ s ++ ",") = seconds_with 0%float
  /\ parseTimeToSeconds "00:01:05,500" = 65.5%float.
Proof.
  intros Hh Hm Hs seconds_with. subst seconds_with. cbv beta.
  split; [|split; [|split]].
  - intros ms Hms Hne. now apply parseTimeToSeconds_with_ms.
  - now apply parseTimeToSeconds_without_ms.
  - now apply parseTimeToSeconds_empty_ms.
  - reflexivity.
Qed.

Lemma parseTimeToSeconds_spec_witness :
  parseTimeToSeconds "01:02:03,250" = 3723.25%float
  /\ parseTimeToSeconds "01:02:03" = 3723%float
  /\ parseTimeToSeconds "01:02:03," = 3723%float.
Proof.
  destruct (parseTimeToSeconds_spec "01" "02" "03") as (A & B & C & _);
    try (split; reflexivity).
  split; [|split].
  - exact (A "250" eq_refl (fun E => match E with end)).
  - exact B.
  - exact C.
Defined.

(** C6, as stated, fails on a millisecond segment that is not a number:
    the result is [NaN], not the value with 0 milliseconds. *)
Lemma parseTimeToSeconds_invalid_ms :
  parseTimeToSeconds "00:01:05,abc" = JS.NaN
  /\ parseTimeToSeconds "00:01:05" = 65%float
  /\ PrimFloat.eqb (parseTimeToSeconds "00:01:05,abc") 65%float = false.
Proof. repeat split; reflexivity. Qed.

End TimeCodec.

(** ** Subtitles *)

Lemma inInterval_test (t : JS.number) (sub : ProcessedSubtitle.t) :
  (PrimFloat.leb (ProcessedSubtitle.startTime sub) t
   && PrimFloat.leb t (ProcessedSubtitle.endTime sub) = true <-> inInterval t sub).
Proof. unfold inInterval. apply andb_true_iff. Qed.

Lemma not_inInterval_test (t : JS.number) (sub : ProcessedSubtitle.t) :
  ~ inInterval t sub ->
  PrimFloat.leb (ProcessedSubtitle.startTime sub) t
  && PrimFloat.leb t (ProcessedSubtitle.endTime sub) = false.
Proof.
  intros H. apply not_true_is_false. intros E. now apply H, inInterval_test.
Qed.

(** C5: the subtitle shown at time [t] is the text of the first line
    whose interval contains [t], and the empty string when no line does
    (in particular for the empty list); a time that is an end point of an
    interval is inside it; the effect stores exactly this value, whatever
    the rest of the world. *)
Theorem currentSubtitleAt_spec (t : JS.number) (subs : list ProcessedSubtitle.t) :
  (forall pre sub post,
      subs = pre ++ sub :: post ->
      inInterval t sub ->
      (forall x, In x pre -> ~ inInterval t x) ->
      currentSubtitleAt t subs = ProcessedSubtitle.text sub)
  /\ ((forall x, In x subs -> ~ inInterval t x) -> currentSubtitleAt t subs = "")
  /\ (forall sub,
        PrimFloat.eqb t t = true ->
        (ProcessedSubtitle.startTime sub = t ->
         PrimFloat.leb t (ProcessedSubtitle.endTime sub) = true -> inInterval t sub)
        /\ (ProcessedSubtitle.endTime sub = t ->
            PrimFloat.leb (ProcessedSubtitle.startTime sub) t = true -> inInterval t sub))
  /\ (forall w,
        State.currentSubtitle (World.state (exec (subtitleEffect t subs) w))
        = currentSubtitleAt t subs).
Proof.
  split; [|split; [|split]].
  - intros pre sub post -> Hin Hpre. unfold currentSubtitleAt.
    rewrite (find_first _ pre post sub).
    + rewrite truthy_string_self. now destruct pre.
    + intros y Hy. now apply not_inInterval_test, Hpre.
    + now apply inInterval_test.
  - intros Hnone. unfold currentSubtitleAt.
    rewrite find_none; [now destruct (Nat.eqb _ _)|].
    intros y Hy. now apply not_inInterval_test, Hnone.
  - intros sub Ht. split; intros E Hle; split; rewrite ?E; auto using leb_refl.
  - reflexivity.
Qed.

Lemma currentSubtitleAt_spec_witness :
  let line a b s :=
    {| ProcessedSubtitle.sub :=
         {| Subtitle.end_ := ""; Subtitle.seq := 0%float;
            Subtitle.text := s; Subtitle.start := "" |};
       ProcessedSubtitle.startTime := a; ProcessedSubtitle.endTime := b |} in
  let subs := [line 5%float 7%float "b"; line 1%float 2%float "a";
               line 2%float 3%float "c"] in
  currentSubtitleAt 2%float subs = "a"
  /\ currentSubtitleAt 4%float subs = ""
  /\ currentSubtitleAt 7%float subs = "b".
Proof.
  intros line subs.
  destruct (currentSubtitleAt_spec 2%float subs) as (A2 & _).
  destruct (currentSubtitleAt_spec 4%float subs) as (_ & B4 & _).
  destruct (currentSubtitleAt_spec 7%float subs) as (A7 & _).
  split; [|split].
  - apply (A2 [line 5%float 7%float "b"] (line 1%float 2%float "a")
              [line 2%float 3%float "c"] eq_refl).
    + split; reflexivity.
    + intros x [<-|[]] [H _]. discriminate H.
  - apply B4. intros x [<-|[<-|[<-|[]]]] [H1 H2]; discriminate.
  - apply (A7 [] (line 5%float 7%float "b") _ eq_refl).
    + split; reflexivity.
    + intros x [].
Defined.

(** ** What handlers preserve *)

Section Preservation.

Context {P : World.t -> Prop}.

Lemma preserves_ret {A} (a : A) : preserves P (ret a).
Proof. intros w H. exact H. Qed.

Lemma preserves_throw {A} (e : Exn) : preserves P (@throw A e).
Proof. intros w H. exact H. Qed.

Lemma preserves_get : preserves P get.
Proof. intros w H. exact H. Qed.

Lemma preserves_bind {A B} (m : M A) (k : A -> M B) :
  preserves P m -> (forall a, preserves P (k a)) -> preserves P (bind m k).
Proof.
  intros Hm Hk w H. unfold bind. specialize (Hm w H).
  destruct (m w) as [[a|e] w1]; cbn in *; [now apply Hk | exact Hm].
Qed.

Lemma preserves_try_catch {A} (body : M A) (handler : Exn -> M A) :
  preserves P body -> (forall e, preserves P (handler e)) ->
  preserves P (try_catch body handler).
Proof.
  intros Hb Hh w H. unfold try_catch. specialize (Hb w H).
  destruct (body w) as [[a|e] w1]; cbn in *; [exact Hb | now apply Hh].
Qed.

Lemma preserves_modify (f : World.t -> World.t) :
  (forall w, P w -> P (f w)) -> preserves P (modify f).
Proof. intros Hf w H. now apply Hf. Qed.

End Preservation.

(** A handler built from the combinators is handled piece by piece; a
    write to the world must keep the property by computation. *)
Ltac preserve_step :=
  first
    [ solve [auto 2]
    | apply preserves_ret
    | apply preserves_throw
    | apply preserves_get
    | apply preserves_bind; [|intro]
    | apply preserves_try_catch; [|intro]
    | apply preserves_modify;
      let w := fresh "w" in
      let H := fresh in
      intros w H; destruct w; exact H
    | match goal with
      | |- preserves _ (match ?x with _ => _ end) => destruct x
      | |- preserves _ (let _ := _ in _) => cbv zeta
      end ].

Ltac preserve :=
  cbv [setState callHost consoleLog setOptions setIsPlaying setVolume
       setIsMuted setShowControls setFormatListTwo setAvailableQualities
       setCurrentQualityIndex setCurrentQuality setCurrentAutoQuality
       setIsLoggedIn setSwitchMessage setShowLoginModal setCurrentSubtitle
       setTimeout clearTimeout onPlayer onPlayerThrowing onVideo playAndWarn];
  repeat preserve_step.

(** ** The quality menu *)

Lemma pushQuality_acc (isLoggedIn : bool) (reps : list Dash.Representation)
    (acc : list Quality.t) (item : FormatItem.t) :
  pushQuality isLoggedIn reps acc item = acc ++ pushQuality isLoggedIn reps [] item.
Proof.
  unfold pushQuality.
  repeat match goal with
         | |- context [if ?b then _ else _] => destruct b
         | |- context [match ?o with Some _ => _ | None => _ end] => destruct o
         end; now rewrite ?app_nil_r.
Qed.

Lemma fold_pushQuality_acc (isLoggedIn : bool) (reps : list Dash.Representation)
    (items : list FormatItem.t) (acc : list Quality.t) :
  fold_left (pushQuality isLoggedIn reps) items acc
  = acc ++ fold_left (pushQuality isLoggedIn reps) items [].
Proof.
  revert acc. induction items as [|item items IH]; simpl; intros acc.
  - now rewrite app_nil_r.
  - rewrite IH, (IH (pushQuality _ _ [] item)), (pushQuality_acc _ _ acc).
    now rewrite app_assoc.
Qed.

Lemma newQualities_split (isLoggedIn : bool) (before after : list FormatItem.t)
    (item : FormatItem.t) (reps : list Dash.Representation) :
  newQualities isLoggedIn (before ++ item :: after) reps
  = newQualities isLoggedIn before reps
    ++ pushQuality isLoggedIn reps [] item
    ++ newQualities isLoggedIn after reps.
Proof.
  unfold newQualities. rewrite fold_left_app. simpl.
  rewrite fold_pushQuality_acc, (pushQuality_acc _ _ (fold_left _ before [])).
  now rewrite <- app_assoc.
Qed.

Lemma updateQualityList_keeps_menu (r : Render) (qs : list Quality.t) :
  preserves (fun w => State.availableQualities (World.state w) = qs)
            (updateQualityList r).
Proof. unfold updateQualityList. preserve. Qed.

(** The stream-initialized handler stores the list [newQualities] builds
    from the format list in [formatListRef], the engine's video
    representations and the login state of the handler's render. *)
Lemma onStreamInitialized_menu (r : Render) (w : World.t) :
  State.availableQualities (World.state (exec (onStreamInitialized r) w))
  = newQualities (State.isLoggedIn (state r)) (World.formatListRef w)
      match World.playerRef w with
      | Some player => Dash.videoRepresentations player
      | None => []
      end.
Proof.
  unfold exec, onStreamInitialized.
  cbv [bind get setAvailableQualities setState modify].
  now apply updateQualityList_keeps_menu.
Qed.

(** What an item of the format list contributes to the list built on
    stream-initialized, at its place in the order of the format list,
    for the login state [isLoggedIn] of the render the handler belongs
    to: with a truthy id and a codec string, and a representation whose
    numeric id equals the item's id, one entry with the index of the
    first such representation, the item's label and [needLogin = false];
    without a codec string, for a login state that is false and an id
    below 112, one entry with the raw id as index and [needLogin = true];
    without a codec string and with an id at or above 112, nothing; for a
    login state that is true and no representation with the item's id,
    nothing.  The handler stores this list as the available qualities. *)
Theorem newQualities_spec (isLoggedIn : bool) (before after : list FormatItem.t)
    (item : FormatItem.t) (videoReps : list Dash.Representation) :
  let contributes qs :=
    newQualities isLoggedIn (before ++ item :: after) videoReps
    = newQualities isLoggedIn before videoReps
      ++ qs ++ newQualities isLoggedIn after videoReps in
  let sameId rep :=
    JS.strict_eq (JS.Number (Dash.id rep)) (FormatItem.id item) in
  let entry index needLogin :=
    {| Quality.index := index;
       Quality.label := FormatItem.new_description item;
       Quality.id := FormatItem.id item;
       Quality.needLogin := needLogin |} in
  (JS.truthy_number (FormatItem.id item) = true ->
   JS.truthy_opt_string (FormatItem.codecs item) = true ->
   forall pre rep post,
     videoReps = pre ++ rep :: post ->
     sameId rep = true ->
     (forall x, In x pre -> sameId x = false) ->
     contributes [entry (JS.of_nat (List.length pre)) false])
  /\ (JS.truthy_opt_string (FormatItem.codecs item) = false ->
      isLoggedIn = false ->
      PrimFloat.ltb (FormatItem.id item) 112%float = true ->
      contributes [entry (FormatItem.id item) true])
  /\ (JS.truthy_opt_string (FormatItem.codecs item) = false ->
      PrimFloat.leb 112%float (FormatItem.id item) = true ->
      contributes [])
  /\ (isLoggedIn = true ->
      (forall rep, In rep videoReps -> sameId rep = false) ->
      contributes [])
  /\ (forall r w,
        State.isLoggedIn (state r) = isLoggedIn ->
        World.formatListRef w = before ++ item :: after ->
        option_map Dash.videoRepresentations (World.playerRef w) = Some videoReps ->
        State.availableQualities (World.state (exec (onStreamInitialized r) w))
        = newQualities isLoggedIn (before ++ item :: after) videoReps).
Proof.
  intros contributes sameId entry. subst contributes sameId entry. cbv beta.
  split; [|split; [|split; [|split]]];
    [| | | |intros r w <- <- Hreps; rewrite onStreamInitialized_menu;
            now destruct (World.playerRef w); inversion Hreps];
    rewrite newQualities_split; unfold pushQuality.
  - intros Hid Hcodec pre rep post -> Hrep Hpre.
    rewrite Hid, Hcodec. cbn [andb]. unfold JS.findIndex.
    now rewrite (findIndex_from_first _ pre post rep 0 Hpre Hrep).
  - intros Hcodec -> Hlt. now rewrite Hcodec, Hlt, andb_false_r.
  - intros Hcodec Hge.
    now rewrite Hcodec, (leb_not_ltb _ _ Hge), !andb_false_r.
  - intros -> Hnone. unfold JS.findIndex.
    rewrite (findIndex_from_none _ videoReps 0 Hnone).
    now destruct (_ && _).
Qed.

Lemma newQualities_spec_witness :
  let item id codecs :=
    {| FormatItem.id := id; FormatItem.new_description := "label";
       FormatItem.display_desc := None; FormatItem.codecs := codecs |} in
  let rep id := {| Dash.id := id; Dash.index := 0%float |} in
  let reps := [rep "7"; rep "6"; rep "5"] in
  let entry index id needLogin :=
    {| Quality.index := index; Quality.label := "label";
       Quality.id := id; Quality.needLogin := needLogin |} in
  newQualities false [item 5%float (Some "avc1")] reps = [entry 2%float 5%float false]
  /\ newQualities false [item 50%float None] reps = [entry 50%float 50%float true]
  /\ newQualities false [item 150%float None] reps = []
  /\ newQualities true [item 50%float None] reps = [].
Proof.
  intros item rep reps entry.
  destruct (newQualities_spec false [] [] (item 5%float (Some "avc1")) reps)
    as (A & _).
  destruct (newQualities_spec false [] [] (item 50%float None) reps)
    as (_ & B & _).
  destruct (newQualities_spec false [] [] (item 150%float None) reps)
    as (_ & _ & C & _).
  destruct (newQualities_spec true [] [] (item 50%float None) reps)
    as (_ & _ & _ & D & _).
  split; [|split; [|split]].
  - apply (A eq_refl eq_refl [rep "7"; rep "6"] (rep "5") [] eq_refl eq_refl).
    intros x [<-|[<-|[]]]; reflexivity.
  - exact (B eq_refl eq_refl eq_refl).
  - exact (C eq_refl eq_refl).
  - apply (D eq_refl). intros x [<-|[<-|[<-|[]]]]; reflexivity.
Defined.

(** ** Running handlers *)

Ltac open_world w :=
  destruct w as [wprops wstate wvideo wplayer wformats wtimer wblob wlisteners
                 wurls wnexturl wtimers wnexttimer wrequests wconsole wcalls].

Ltac open_player p :=
  destruct p as [pvideo paudio pview pautoplay psource preps pcurrent
                 prequested pswitch preset].

Ltac unfold_handlers :=
  cbv [bind get ret modify throw try_catch setState callHost consoleLog
       setOptions setIsPlaying setVolume setIsMuted setShowControls
       setFormatListTwo setAvailableQualities setCurrentQualityIndex
       setCurrentQuality setCurrentAutoQuality setIsLoggedIn setSwitchMessage
       setShowLoginModal setCurrentSubtitle createObjectURL revokeObjectURL
       setTimeout clearTimeout onPlayer onPlayerThrowing onVideo playAndWarn].

(** ** Quality switch *)

Lemma fireTimer_keeps_empty_message (i : positive) (w : World.t) :
  State.switchMessage (World.state w) = "" ->
  State.switchMessage (World.state (exec (fireTimer i) w)) = "".
Proof.
  intros H. open_world w. cbn in H. unfold exec, fireTimer. unfold_handlers.
  cbn [World.timers].
  destruct (JS.find _ wtimers) as [[j [|[|]]]|]; vm_compute; auto.
Qed.

Lemma find_some_nonempty {A} (p : A -> bool) (l : list A) (x : A) :
  JS.find p l = Some x -> Nat.eqb (List.length l) 0 = false.
Proof. now destruct l. Qed.

Lemma changeQuality_failure_result (r : Render) (w : World.t)
    (index : JS.number) (player : Dash.MediaPlayer) (targetQuality : Quality.t) :
  World.playerRef w = Some player ->
  Dash.switchThrows player = true ->
  JS.strict_eq index (-1)%float = false ->
  JS.find (fun q => JS.strict_eq (Quality.index q) index)
          (State.availableQualities (state r)) = Some targetQuality ->
  let w' := exec (changeQuality r index) w in
  throws (changeQuality r index) w = false
  /\ option_map Dash.autoSwitchBitrateVideo (World.playerRef w') = Some true
  /\ State.currentQualityIndex (World.state w') = (-1)%float
  /\ State.currentQuality (World.state w') = autoLabel
  /\ State.switchMessage (World.state w') = ""
  /\ World.calls w' = World.calls w
  /\ World.timers w' = World.timers w ++ [(World.nextTimer w, ClearSwitchMessage)].
Proof.
  intros Hplayer Hthrows Hindex Hfind w'.
  pose proof (find_some_nonempty _ _ _ Hfind) as Hlen.
  subst w'. unfold exec, throws, changeQuality, resumeIfWasPlaying.
  unfold_handlers.
  rewrite Hplayer, Hlen, Hindex, Hfind.
  open_world w. open_player player. cbn in Hplayer, Hthrows. subst.
  destruct (State.isPlaying (state r)), wvideo as [[? ? ? ? []]|];
    vm_compute; repeat split.
Qed.

(** C3: when the engine throws on the representation switch of an
    explicit quality change, [changeQuality] returns normally, automatic
    bitrate switching is on again, the selection is automatic (index -1,
    the automatic label), the switch message is empty and stays empty
    whichever timer fires afterwards, and no host callback is called. *)
Theorem changeQuality_switch_failure (r : Render) (w : World.t)
    (index : JS.number) (player : Dash.MediaPlayer) (targetQuality : Quality.t) :
  World.playerRef w = Some player ->
  Dash.switchThrows player = true ->
  JS.strict_eq index (-1)%float = false ->
  JS.find (fun q => JS.strict_eq (Quality.index q) index)
          (State.availableQualities (state r)) = Some targetQuality ->
  let w' := exec (changeQuality r index) w in
  throws (changeQuality r index) w = false
  /\ option_map Dash.autoSwitchBitrateVideo (World.playerRef w') = Some true
  /\ State.currentQualityIndex (World.state w') = (-1)%float
  /\ State.currentQuality (World.state w') = autoLabel
  /\ State.switchMessage (World.state w') = ""
  /\ World.calls w' = World.calls w
  /\ World.timers w' = World.timers w ++ [(World.nextTimer w, ClearSwitchMessage)]
  /\ (forall i, State.switchMessage (World.state (exec (fireTimer i) w')) = "").
Proof.
  intros Hplayer Hthrows Hindex Hfind w'.
  destruct (changeQuality_failure_result r w index player targetQuality
              Hplayer Hthrows Hindex Hfind) as (H1 & H2 & H3 & H4 & H5 & H6 & H7).
  refine (conj H1 (conj H2 (conj H3 (conj H4 (conj H5 (conj H6 (conj H7 _))))))).
  intros i. now apply fireTimer_keeps_empty_message.
Qed.

(** C8: after an explicit quality switch that succeeds, [play()] is
    called on the video element exactly when [isPlaying] was true in the
    render the handler belongs to (the value read before the switch); a
    rejected [play()] leaves one warning on the console, and nothing is
    thrown or reported to the host. *)
Theorem changeQuality_resumes_playback (r : Render) (w : World.t)
    (index : JS.number) (player : Dash.MediaPlayer) (targetQuality : Quality.t)
    (el : Video.Element) :
  World.playerRef w = Some player ->
  Dash.switchThrows player = false ->
  JS.strict_eq index (-1)%float = false ->
  JS.find (fun q => JS.strict_eq (Quality.index q) index)
          (State.availableQualities (state r)) = Some targetQuality ->
  World.videoPlayerRef w = Some el ->
  let w' := exec (changeQuality r index) w in
  let wasPlaying := State.isPlaying (state r) in
  throws (changeQuality r index) w = false
  /\ State.currentQualityIndex (World.state w') = index
  /\ State.currentQuality (World.state w') = Quality.label targetQuality
  /\ World.videoPlayerRef w'
     = Some (if wasPlaying then Video.play el else el)
  /\ World.console w'
     = (if wasPlaying && Video.playRejects el
        then World.console w ++ [ConsoleWarn "切换后播放失败："]
        else World.console w)
  /\ World.calls w' = World.calls w.
Proof.
  intros Hplayer Hthrows Hindex Hfind Hvideo w' wasPlaying.
  pose proof (find_some_nonempty _ _ _ Hfind) as Hlen.
  subst w' wasPlaying. unfold exec, throws, changeQuality, resumeIfWasPlaying.
  unfold_handlers.
  rewrite Hplayer, Hlen, Hindex, Hfind.
  open_world w. open_player player. cbn in Hplayer, Hthrows, Hvideo. subst.
  destruct (State.isPlaying (state r)), el as [? ? ? ? []];
    vm_compute; repeat split.
Qed.

Lemma changeQuality_switch_failure_witness :
  let w := Sample.playing true Sample.video in
  let w' := exec (changeQuality (render w) 2%float) w in
  throws (changeQuality (render w) 2%float) w = false
  /\ State.currentQualityIndex (World.state w') = (-1)%float
  /\ State.currentQuality (World.state w') = autoLabel
  /\ State.switchMessage (World.state (exec (fireTimer 1%positive) w')) = "".
Proof.
  intros w w'.
  destruct (changeQuality_switch_failure (render w) w 2%float
              (Sample.player true) (nth 0 Sample.qualities
                 {| Quality.index := 0%float; Quality.label := "";
                    Quality.id := 0%float; Quality.needLogin := false |})
              eq_refl eq_refl eq_refl eq_refl)
    as (H1 & _ & H3 & H4 & _ & _ & _ & H8).
  exact (conj H1 (conj H3 (conj H4 (H8 1%positive)))).
Defined.

Lemma changeQuality_resumes_playback_witness :
  let w := Sample.playing false Sample.rejectingVideo in
  let w' := exec (changeQuality (render w) 2%float) w in
  throws (changeQuality (render w) 2%float) w = false
  /\ State.currentQualityIndex (World.state w') = 2%float
  /\ option_map Video.playCalls (World.videoPlayerRef w') = Some 1
  /\ World.console w' = [ConsoleWarn "切换后播放失败："]
  /\ World.calls w' = [].
Proof.
  intros w w'.
  destruct (changeQuality_resumes_playback (render w) w 2%float
              (Sample.player false) (nth 0 Sample.qualities
                 {| Quality.index := 0%float; Quality.label := "";
                    Quality.id := 0%float; Quality.needLogin := false |})
              Sample.rejectingVideo
              eq_refl eq_refl eq_refl eq_refl eq_refl)
    as (H1 & H2 & _ & H4 & H5 & H6).
  refine (conj H1 (conj H2 (conj _ (conj H5 H6)))).
  subst w'. now rewrite H4.
Defined.

(** ** Teardown *)

(** C9: with no engine instance, [destroyPlayer] returns normally and
    leaves the engine handle empty; the timer kept in
    [hideControlsTimer], if any, is cleared and forgotten; the URL kept
    in [previousBlobUrl], if any, is revoked and forgotten, and with
    none kept the live object URLs are untouched; state, console and
    host see nothing. *)
Theorem destroyPlayer_without_engine (w : World.t) :
  World.playerRef w = None ->
  let w' := exec destroyPlayer w in
  throws destroyPlayer w = false
  /\ World.playerRef w' = None
  /\ World.hideControlsTimer w' = None
  /\ World.timers w'
     = match World.hideControlsTimer w with
       | Some i => filter (fun p => negb (Pos.eqb (fst p) i)) (World.timers w)
       | None => World.timers w
       end
  /\ (forall u, World.previousBlobUrl w = Some u -> u <> "" ->
        World.previousBlobUrl w' = None
        /\ World.objectURLs w' = remove string_dec u (World.objectURLs w))
  /\ (World.previousBlobUrl w = None ->
        World.previousBlobUrl w' = None
        /\ World.objectURLs w' = World.objectURLs w)
  /\ World.state w' = World.state w
  /\ World.console w' = World.console w
  /\ World.calls w' = World.calls w.
Proof.
  intros Hplayer w'. subst w'.
  unfold exec, throws, destroyPlayer, revokePreviousBlobUrl. unfold_handlers.
  open_world w. cbn in Hplayer. subst.
  destruct wtimer as [i|], wblob as [[|c u]|]; cbn;
    repeat (split || intro); congruence.
Qed.

(** With an engine too, [destroyPlayer] returns normally: a [reset]
    that throws is caught and logged. *)
Lemma destroyPlayer_never_throws (w : World.t) :
  throws destroyPlayer w = false.
Proof.
  unfold throws, destroyPlayer, revokePreviousBlobUrl. unfold_handlers.
  open_world w.
  destruct wplayer as [[? ? ? ? ? ? ? ? ? []]|], wtimer as [i|],
    wblob as [[|c u]|]; reflexivity.
Qed.

Lemma destroyPlayer_without_engine_witness :
  let w := World.with_hideControlsTimer (Some 1%positive)
             (World.with_timers [(1%positive, HideControlsIfPlaying false)]
                2%positive Sample.mounted) in
  throws destroyPlayer w = false
  /\ World.timers (exec destroyPlayer w) = []
  /\ World.hideControlsTimer (exec destroyPlayer w) = None
  /\ World.playerRef (exec destroyPlayer w) = None.
Proof.
  intros w.
  destruct (destroyPlayer_without_engine w eq_refl)
    as (H1 & H2 & H3 & H4 & _).
  exact (conj H1 (conj H4 (conj H3 H2))).
Defined.

(** ** Mute *)

(** C10: [toggleMute], when muted with a stored volume equal to 0,
    unmutes (state and element) and sets the volume to 0.5 (state and
    element); when not muted, mutes (state and element) and leaves the
    stored volume and the element's volume as they were; with no video
    element it changes nothing.  It never throws. *)
Theorem toggleMute_spec (r : Render) (w : World.t) :
  let w' := exec (toggleMute r) w in
  throws (toggleMute r) w = false
  /\ (forall el,
        World.videoPlayerRef w = Some el ->
        State.isMuted (state r) = true ->
        JS.strict_eq (State.volume (state r)) 0%float = true ->
        State.isMuted (World.state w') = false
        /\ State.volume (World.state w') = 0.5%float
        /\ World.videoPlayerRef w'
           = Some (Video.set_volume 0.5%float (Video.set_muted false el)))
  /\ (forall el,
        World.videoPlayerRef w = Some el ->
        State.isMuted (state r) = false ->
        State.isMuted (World.state w') = true
        /\ State.volume (World.state w') = State.volume (World.state w)
        /\ World.videoPlayerRef w' = Some (Video.set_muted true el))
  /\ (World.videoPlayerRef w = None -> w' = w).
Proof.
  intros w'. subst w'. unfold exec, throws, toggleMute. unfold_handlers.
  open_world w. cbn [World.videoPlayerRef].
  destruct wvideo as [el|], (State.isMuted (state r)),
    (JS.strict_eq (State.volume (state r)) 0%float); cbn;
    repeat (split || intro); congruence.
Qed.

Lemma toggleMute_spec_witness :
  let w := World.with_state
             (State.with_isMuted true (State.with_volume 0%float State.initial))
             (World.initial Sample.props (Some Sample.rejectingVideo)) in
  State.isMuted (World.state (exec (toggleMute (render w)) w)) = false
  /\ State.volume (World.state (exec (toggleMute (render w)) w)) = 0.5%float
  /\ option_map Video.volume (World.videoPlayerRef (exec (toggleMute (render w)) w))
     = Some 0.5%float
  /\ State.isMuted (World.state (exec (toggleMute (render Sample.mounted))
                                  Sample.mounted)) = true
  /\ exec (toggleMute (render Sample.detached)) Sample.detached = Sample.detached.
Proof.
  intros w.
  destruct (toggleMute_spec (render w) w) as (_ & A & _).
  destruct (A Sample.rejectingVideo eq_refl eq_refl eq_refl) as (A1 & A2 & A3).
  destruct (toggleMute_spec (render Sample.mounted) Sample.mounted) as (_ & _ & B & _).
  destruct (B Sample.video eq_refl eq_refl) as (B1 & _).
  destruct (toggleMute_spec (render Sample.detached) Sample.detached) as (_ & _ & _ & C).
  refine (conj A1 (conj A2 (conj _ (conj B1 (C eq_refl))))).
  now rewrite A3.
Defined.

(** ** Attaching a source *)

(** C7 (amended): [updateSrc] never throws in its error cases and
    reports through [onError]: with no video element and no engine, two
    errors are reported and nothing else changes; with an engine and an
    empty source URI, one error is reported and nothing else changes;
    with an empty source URI, a video element and no engine yet, the
    engine is first created and initialised with the component's current
    [options.src] (its handlers subscribed, [onLoaded] called), then the
    error is reported, and the new source is not attached. *)
Theorem updateSrc_errors (r : Render) (w : World.t) (newSource : Source.t) :
  let w' := exec (updateSrc r newSource) w in
  (World.videoPlayerRef w = None ->
   World.playerRef w = None ->
   throws (updateSrc r newSource) w = false
   /\ w' = World.with_calls
             ((World.calls w ++ [OnError "视频元素未初始化"])
              ++ [OnError "播放器未初始化"]) w)
  /\ (forall player,
        World.playerRef w = Some player ->
        JS.truthy_string (Source.src newSource) = false ->
        throws (updateSrc r newSource) w = false
        /\ w' = World.with_calls
                  (World.calls w ++ [OnError "视频源地址不能为空"]) w)
  /\ (forall el,
        World.videoPlayerRef w = Some el ->
        World.playerRef w = None ->
        JS.truthy_string (Source.src newSource) = false ->
        throws (updateSrc r newSource) w = false
        /\ World.playerRef w'
           = Some (Dash.initialize (Source.src (State.options (state r)))
                     (Props.autoPlay (props r))
                     (Dash.updateSettings true (Some true) Dash.create))
        /\ World.listeners w' = Some r
        /\ World.calls w'
           = (World.calls w ++ [OnLoaded]) ++ [OnError "视频源地址不能为空"]
        /\ World.state w' = World.state w
        /\ World.objectURLs w' = World.objectURLs w
        /\ World.videoPlayerRef w' = World.videoPlayerRef w).
Proof.
  intros w'. subst w'.
  unfold exec, throws, updateSrc, initPlayer, destroyPlayer, revokePreviousBlobUrl.
  unfold_handlers. open_world w. cbn [World.videoPlayerRef World.playerRef].
  split; [|split].
  - intros -> ->. cbn. now split.
  - intros player -> ->. cbn. now split.
  - intros el -> -> ->. cbn. repeat split.
Qed.

Lemma updateSrc_errors_witness :
  let empty := {| Source.src := ""; Source.type := "application/dash+xml" |} in
  let w := Sample.playing false Sample.video in
  exec (updateSrc (render Sample.detached) empty) Sample.detached
  = World.with_calls [OnError "视频元素未初始化"; OnError "播放器未初始化"]
      Sample.detached
  /\ exec (updateSrc (render w) empty) w
     = World.with_calls [OnError "视频源地址不能为空"] w.
Proof.
  intros empty w.
  destruct (updateSrc_errors (render Sample.detached) Sample.detached empty)
    as (A & _).
  destruct (updateSrc_errors (render w) w empty) as (_ & B & _).
  exact (conj (proj2 (A eq_refl eq_refl))
              (proj2 (B (Sample.player false) eq_refl eq_refl))).
Defined.

(** C7, as stated, fails for an empty source URI when no engine exists
    yet: right after mounting, [updateSrc] with an empty URI creates the
    engine, attaches the video element to it, subscribes the handlers and
    calls [onLoaded] before it reports the error. *)
Lemma updateSrc_empty_source_creates_engine :
  let empty := {| Source.src := ""; Source.type := "application/dash+xml" |} in
  let w' := exec (updateSrc (render Sample.mounted) empty) Sample.mounted in
  World.playerRef Sample.mounted = None
  /\ option_map Dash.view (World.playerRef w') = Some true
  /\ World.listeners w' = Some (render Sample.mounted)
  /\ World.calls w' = [OnLoaded; OnError "视频源地址不能为空"].
Proof. repeat split. Qed.

(** ** The automatic label *)








(** ** Object URLs *)

Section ObjectUrls.

Variable urls : list string.

Lemma revokePreviousBlobUrl_holdsUrls :
  preserves (holdsUrls urls) revokePreviousBlobUrl.
Proof.
  intros w [H1 H2]. open_world w. cbn in H1, H2. subst. now split.
Qed.

Lemma manifestFailure_holdsUrls :
  preserves (holdsUrls urls) (manifestResponse None).
Proof. unfold manifestResponse. preserve. Qed.

Lemma refetchManifest_holdsUrls (r : Render) :
  preserves (holdsUrls urls) (refetchManifest r).
Proof. unfold refetchManifest. preserve. Qed.

Lemma formatListEffect_holdsUrls (r : Render) :
  preserves (holdsUrls urls) (formatListEffect r).
Proof. unfold formatListEffect. preserve. Qed.

Lemma toggleMute_holdsUrls (r : Render) :
  preserves (holdsUrls urls) (toggleMute r).
Proof. unfold toggleMute. preserve. Qed.

Lemma updateQualityList_holdsUrls (r : Render) :
  preserves (holdsUrls urls) (updateQualityList r).
Proof. unfold updateQualityList. preserve. Qed.

Lemma changeQuality_holdsUrls (r : Render) (index : JS.number) :
  preserves (holdsUrls urls) (changeQuality r index).
Proof.
  pose proof (updateQualityList_holdsUrls r).
  unfold changeQuality, resumeIfWasPlaying. preserve.
Qed.

Lemma onStreamInitialized_holdsUrls (r : Render) :
  preserves (holdsUrls urls) (onStreamInitialized r).
Proof.
  pose proof (updateQualityList_holdsUrls r).
  unfold onStreamInitialized. preserve.
Qed.

Lemma fireTimer_holdsUrls (i : positive) :
  preserves (holdsUrls urls) (fireTimer i).
Proof. unfold fireTimer. preserve. Qed.

Lemma destroyPlayer_holdsUrls : preserves (holdsUrls urls) destroyPlayer.
Proof.
  pose proof revokePreviousBlobUrl_holdsUrls.
  unfold destroyPlayer. preserve.
Qed.

Lemma initPlayer_holdsUrls (r : Render) :
  preserves (holdsUrls urls) (initPlayer r).
Proof.
  pose proof destroyPlayer_holdsUrls.
  unfold initPlayer. preserve.
Qed.

Lemma updateSrc_holdsUrls (r : Render) (newSource : Source.t) :
  preserves (holdsUrls urls) (updateSrc r newSource).
Proof.
  pose proof revokePreviousBlobUrl_holdsUrls.
  pose proof (initPlayer_holdsUrls r).
  unfold updateSrc. preserve.
Qed.

Lemma optionsEffect_holdsUrls (r : Render) :
  preserves (holdsUrls urls) (optionsEffect r).
Proof.
  pose proof (updateSrc_holdsUrls r).
  unfold optionsEffect. preserve.
Qed.

Lemma handleLoginSuccess_holdsUrls (r : Render) :
  preserves (holdsUrls urls) (handleLoginSuccess r).
Proof.
  pose proof (refetchManifest_holdsUrls r).
  unfold handleLoginSuccess. preserve.
Qed.

End ObjectUrls.

(** A manifest that arrives adds one live object URL, and the URL is not
    remembered for revocation. *)
Lemma manifestResponse_holdsUrls (urls : list string) (data : ManifestData)
    (w : World.t) :
  holdsUrls urls w ->
  holdsUrls (urls ++ [blobUrlOfNat (World.nextObjectURL w)])
            (exec (manifestResponse (Some data)) w).
Proof.
  intros [H1 H2]. open_world w. cbn in H1, H2. subst. now split.
Qed.

Lemma step_holdsUrls (urls : list string) (w : World.t) (e : Event) :
  holdsUrls urls w ->
  exists added,
    holdsUrls (urls ++ added) (step w e)
    /\ List.length added = manifests [e].
Proof.
  intros H.
  destruct e as [[data|]| | | | | | | ]; cbn [step manifests].
  2-9: exists []; rewrite app_nil_r; split; [|reflexivity].
  - exists [blobUrlOfNat (World.nextObjectURL w)]. split; [|reflexivity].
    apply manifestResponse_holdsUrls with (data := data) in H.
    revert H. generalize (exec (manifestResponse (Some data)) w). intros w1 H.
    apply (preserves_bind (P := holdsUrls _)); auto.
    + apply formatListEffect_holdsUrls.
    + intros _. apply optionsEffect_holdsUrls.
  - now apply manifestFailure_holdsUrls.
  - now apply updateSrc_holdsUrls.
  - now apply handleLoginSuccess_holdsUrls.
  - destruct (World.playerRef w), (World.listeners w); try exact H.
    now apply onStreamInitialized_holdsUrls.
  - now apply changeQuality_holdsUrls.
  - now apply toggleMute_holdsUrls.
  - now apply fireTimer_holdsUrls.
  - now apply destroyPlayer_holdsUrls.
Qed.

Lemma manifests_cons (e : Event) (events : list Event) :
  manifests (e :: events) = manifests [e] + manifests events.
Proof. now destruct e as [[?|]| | | | | | | ]. Qed.

Lemma run_holdsUrls (events : list Event) (urls : list string) (w : World.t) :
  holdsUrls urls w ->
  exists added,
    holdsUrls (urls ++ added) (run w events)
    /\ List.length added = manifests events.
Proof.
  revert urls w. induction events as [|e events IH]; intros urls w H.
  - exists []. now rewrite app_nil_r.
  - destruct (step_holdsUrls urls w e H) as (a1 & H1 & L1).
    destruct (IH _ _ H1) as (a2 & H2 & L2).
    exists (a1 ++ a2). rewrite app_assoc, length_app, manifests_cons.
    split; [exact H2 | lia].
Qed.

(** No sequence of events revokes an object URL: starting from the
    mounted component, every manifest that arrived has left one live
    object URL, and none is remembered for revocation. *)
Lemma object_urls_are_never_revoked (p : Props.t) (el : option Video.Element)
    (events : list Event) :
  let w := run (World.initial p el) events in
  World.previousBlobUrl w = None
  /\ List.length (World.objectURLs w) = manifests events.
Proof.
  destruct (run_holdsUrls events [] (World.initial p el)) as (added & [H1 H2] & L).
  - now split.
  - cbn zeta. now rewrite H1, H2.
Qed.

(** C1 does not hold of the code: two manifests that arrive one after
    the other, each attached by [updateSrc], leave two live object URLs;
    the first is not revoked when the second is created or attached. *)
Theorem two_manifests_leave_two_object_urls :
  let w1 := run Sample.mounted [FetchSettled (Some Sample.manifest)] in
  let w2 := step w1 (FetchSettled (Some Sample.manifest)) in
  World.objectURLs w1 = ["blob:0"]
  /\ option_map Dash.source (World.playerRef w1) = Some (Some "blob:0")
  /\ World.objectURLs w2 = ["blob:0"; "blob:1"]
  /\ option_map Dash.source (World.playerRef w2) = Some (Some "blob:1")
  /\ World.previousBlobUrl w2 = None
  /\ World.objectURLs (step w2 Unmounted) = ["blob:0"; "blob:1"].
Proof. vm_compute. repeat split. Qed.

(** * Further properties *)

(** ** Handlers return *)

Section Returning.

Context {P : World.t -> Prop}.

Lemma returns_ret {A} (a : A) : returns P (ret a).
Proof. intros w _. now exists a. Qed.

Lemma returns_modify (f : World.t -> World.t) : returns P (modify f).
Proof. intros w _. now exists tt. Qed.

Lemma returns_bind {A B} (m : M A) (k : A -> M B) :
  returns P m -> preserves P m -> (forall a, returns P (k a)) ->
  returns P (bind m k).
Proof.
  intros Hm Hp Hk w H. unfold bind.
  destruct (Hm w H) as [a Ha]. specialize (Hp w H).
  destruct (m w) as [[a'|e] w1]; cbn in *; [now apply Hk | discriminate].
Qed.

Lemma returns_anywhere {A} (m : M A) :
  returns (fun _ => True) m -> returns P m.
Proof. intros H w _. now apply H. Qed.

(** What a handler reads with [get] tells which refs are set. *)
Lemma returns_get_bind {B} (k : World.t -> M B) :
  (forall w0,
      returns (refsAre (isSome (World.playerRef w0))
                       (isSome (World.videoPlayerRef w0))) (k w0)) ->
  returns P (bind get k).
Proof. intros Hk w _. apply (Hk w w). now split. Qed.

Lemma returns_try_catch {A} (body : M A) (handler : Exn -> M A) :
  preserves P body -> (forall e, returns P (handler e)) ->
  returns P (try_catch body handler).
Proof.
  intros Hb Hh w H. unfold try_catch. specialize (Hb w H).
  destruct (body w) as [[a|e] w1]; cbn in *; [now exists a | now apply Hh].
Qed.

End Returning.

(** Handlers are taken apart as in [preserve]; [leaf] proves that a
    write to the world keeps the property. *)
Ltac keep_step leaf :=
  first
    [ solve [auto 2]
    | apply preserves_ret
    | apply preserves_throw
    | apply preserves_get
    | apply preserves_modify; leaf
    | lazymatch goal with
      | |- preserves _ (bind _ _) => apply preserves_bind; [|intro]
      | |- preserves _ (try_catch _ _) => apply preserves_try_catch; [|intro]
      | |- preserves _ (match ?x with _ => _ end) => destruct x
      | |- preserves _ (let _ := _ in _) => cbv zeta
      end
    | progress cbv [setTimeout clearTimeout createObjectURL revokeObjectURL
                    onPlayer onPlayerThrowing onVideo playAndWarn] ].

Ltac unfold_setters :=
  cbv [setState callHost consoleLog setOptions setIsPlaying setVolume
       setIsMuted setShowControls setFormatListTwo setAvailableQualities
       setCurrentQualityIndex setCurrentQuality setCurrentAutoQuality
       setIsLoggedIn setSwitchMessage setShowLoginModal setCurrentSubtitle].

Ltac keep leaf := unfold_setters; repeat keep_step leaf.

(** A write that does not touch what the property reads. *)
Ltac frame_leaf :=
  let w := fresh "w" in
  let H := fresh in
  intros w H; destruct w; exact H.

Section RefsKept.

Variables p v : bool.

Lemma onPlayer_refsAre (f : Dash.MediaPlayer -> Dash.MediaPlayer) :
  preserves (refsAre p v) (onPlayer f).
Proof. intros w H. open_world w. now destruct wplayer. Qed.

Lemma onPlayerThrowing_refsAre (f : Dash.MediaPlayer -> option Dash.MediaPlayer) :
  preserves (refsAre p v) (onPlayerThrowing f).
Proof.
  intros w H. open_world w. unfold onPlayerThrowing. unfold_handlers.
  cbn [World.playerRef]. destruct wplayer as [pl|]; [|exact H].
  now destruct (f pl).
Qed.

Lemma onVideo_refsAre (f : Video.Element -> Video.Element) :
  preserves (refsAre p v) (onVideo f).
Proof. intros w H. open_world w. now destruct wvideo. Qed.

Lemma playAndWarn_refsAre : preserves (refsAre p v) playAndWarn.
Proof. intros w H. open_world w. now destruct wvideo as [[? ? ? ? []]|]. Qed.

Lemma setTimeout_refsAre (t : Timer) : preserves (refsAre p v) (setTimeout t).
Proof. intros w H. now open_world w. Qed.

Lemma clearTimeout_refsAre (i : positive) : preserves (refsAre p v) (clearTimeout i).
Proof. intros w H. now open_world w. Qed.

End RefsKept.

Lemma onPlayer_returns (v : bool) (f : Dash.MediaPlayer -> Dash.MediaPlayer) :
  returns (refsAre true v) (onPlayer f).
Proof.
  intros w [H _]. open_world w. destruct wplayer; [now exists tt | discriminate].
Qed.

Lemma onVideo_returns (p : bool) (f : Video.Element -> Video.Element) :
  returns (refsAre p true) (onVideo f).
Proof.
  intros w [_ H]. open_world w. destruct wvideo; [now exists tt | discriminate].
Qed.

Lemma playAndWarn_returns (p : bool) : returns (refsAre p true) playAndWarn.
Proof.
  intros w [_ H]. open_world w.
  destruct wvideo as [[? ? ? ? []]|]; [now exists tt | now exists tt | discriminate].
Qed.

Lemma setTimeout_returns (P : World.t -> Prop) (t : Timer) : returns P (setTimeout t).
Proof. intros w _. now eexists. Qed.

Lemma clearTimeout_returns (P : World.t -> Prop) (i : positive) :
  returns P (clearTimeout i).
Proof. intros w _. now exists tt. Qed.

Ltac refs_facts :=
  pose proof onPlayer_refsAre; pose proof onPlayerThrowing_refsAre;
  pose proof onVideo_refsAre; pose proof playAndWarn_refsAre;
  pose proof setTimeout_refsAre; pose proof clearTimeout_refsAre;
  pose proof onPlayer_returns; pose proof onVideo_returns;
  pose proof playAndWarn_returns;
  pose proof setTimeout_returns; pose proof clearTimeout_returns.

(** A test of a ref settles what is known about it. *)
Ltac settle_refs :=
  lazymatch goal with
  | |- returns _ (match World.playerRef ?w with _ => _ end) =>
      let E := fresh in
      destruct (World.playerRef w) eqn:E; cbn [isSome]
  | |- returns _ (match World.videoPlayerRef ?w with _ => _ end) =>
      let E := fresh in
      destruct (World.videoPlayerRef w) eqn:E; cbn [isSome]
  end.

Ltac returning_step :=
  first
    [ solve [auto 2]
    | apply returns_ret
    | apply returns_modify
    | settle_refs
    | lazymatch goal with
      | |- returns _ (bind get _) => apply returns_get_bind; intro
      | |- returns _ (bind _ _) => apply returns_bind; [ | keep frame_leaf | intro]
      | |- returns _ (try_catch _ _) =>
          apply returns_try_catch; [keep frame_leaf | intro]
      | |- returns _ (match ?x with _ => _ end) => destruct x
      | |- returns _ (let _ := _ in _) => cbv zeta
      end ].

Ltac returning :=
  unfold_setters; apply returns_anywhere; repeat returning_step.

(** ** Every handler returns *)

Section HandlersKeepRefs.

Variables p v : bool.

Lemma updateQualityList_refsAre (r : Render) :
  preserves (refsAre p v) (updateQualityList r).
Proof. refs_facts. unfold updateQualityList. keep frame_leaf. Qed.

Lemma resumeIfWasPlaying_refsAre (wasPlaying : bool) :
  preserves (refsAre p v) (resumeIfWasPlaying wasPlaying).
Proof. refs_facts. unfold resumeIfWasPlaying. keep frame_leaf. Qed.

Lemma manifestResponse_refsAre (resp : option ManifestData) :
  preserves (refsAre p v) (manifestResponse resp).
Proof.
  refs_facts. unfold manifestResponse, createObjectURL. keep frame_leaf.
Qed.

Lemma formatListEffect_refsAre (r : Render) :
  preserves (refsAre p v) (formatListEffect r).
Proof. unfold formatListEffect. keep frame_leaf. Qed.

End HandlersKeepRefs.

Lemma updateQualityList_returns (P : World.t -> Prop) (r : Render) :
  returns P (updateQualityList r).
Proof. refs_facts. unfold updateQualityList. returning. Qed.

Lemma resumeIfWasPlaying_returns (P : World.t -> Prop) (wasPlaying : bool) :
  returns P (resumeIfWasPlaying wasPlaying).
Proof. refs_facts. unfold resumeIfWasPlaying. returning. Qed.

Lemma changeQuality_returns (P : World.t -> Prop) (r : Render) (index : JS.number) :
  returns P (changeQuality r index).
Proof.
  refs_facts.
  pose proof updateQualityList_refsAre. pose proof updateQualityList_returns.
  pose proof resumeIfWasPlaying_returns.
  unfold changeQuality. returning.
Qed.

Lemma toggleMute_returns (P : World.t -> Prop) (r : Render) :
  returns P (toggleMute r).
Proof. refs_facts. unfold toggleMute. returning. Qed.



Lemma fireTimer_returns (P : World.t -> Prop) (i : positive) :
  returns P (fireTimer i).
Proof. refs_facts. unfold fireTimer. returning. Qed.

Lemma onStreamInitialized_returns (P : World.t -> Prop) (r : Render) :
  returns P (onStreamInitialized r).
Proof.
  pose proof updateQualityList_returns.
  unfold onStreamInitialized. returning.
Qed.


Lemma handleLoginSuccess_returns (P : World.t -> Prop) (r : Render) :
  returns P (handleLoginSuccess r).
Proof. unfold handleLoginSuccess, refetchManifest. returning. Qed.

Lemma manifestResponse_returns (P : World.t -> Prop) (resp : option ManifestData) :
  returns P (manifestResponse resp).
Proof. unfold manifestResponse, createObjectURL. returning. Qed.

Lemma destroyPlayer_returns (P : World.t -> Prop) : returns P destroyPlayer.
Proof.
  intros w _. pose proof (destroyPlayer_never_throws w) as H.
  unfold throws in H. destruct (fst (destroyPlayer w)) as [[]|]; [now exists tt | discriminate].
Qed.

Lemma initPlayer_returns (P : World.t -> Prop) (r : Render) :
  returns P (initPlayer r).
Proof.
  intros w _. unfold initPlayer, destroyPlayer, revokePreviousBlobUrl.
  unfold_handlers. open_world w.
  destruct wvideo, wplayer as [[? ? ? ? ? ? ? ? ? []]|], wtimer, wblob as [[|? ?]|];
    now exists tt.
Qed.

Lemma updateSrc_returns (P : World.t -> Prop) (r : Render) (newSource : Source.t) :
  returns P (updateSrc r newSource).
Proof.
  intros w _. unfold updateSrc, initPlayer, destroyPlayer, revokePreviousBlobUrl.
  unfold_handlers. open_world w.
  destruct (JS.truthy_string (Source.src newSource)), wvideo, wplayer, wtimer,
    wblob as [[|? ?]|]; now exists tt.
Qed.

Lemma optionsEffect_returns (P : World.t -> Prop) (r : Render) :
  returns P (optionsEffect r).
Proof.
  pose proof updateSrc_returns. unfold optionsEffect. returning.
Qed.

Lemma returns_throws {A} (m : M A) (w : World.t) :
  returns (fun _ => True) m -> throws m w = false.
Proof.
  intros H. destruct (H w I) as [a Ha]. unfold throws. now rewrite Ha.
Qed.

Lemma engineHandler_returns (P : World.t -> Prop) (w : World.t)
    (h : Render -> M unit) :
  (forall r, returns (fun _ => True) (h r)) -> returns P (engineHandler w h).
Proof.
  intros H. apply returns_anywhere. unfold engineHandler.
  destruct (World.playerRef w), (World.listeners w); auto using returns_ret.
Qed.

Lemma handlerOf_returns (w : World.t) (e : Event) :
  returns (fun _ => True) (handlerOf w e).
Proof.
  destruct e as [resp|s| | |i| |i|]; cbn [handlerOf].
  - pose proof manifestResponse_returns. pose proof formatListEffect_refsAre.
    pose proof optionsEffect_returns.
    unfold formatListEffect. returning.
  - apply updateSrc_returns.
  - apply handleLoginSuccess_returns.
  - apply engineHandler_returns. intro. apply onStreamInitialized_returns.
  - apply changeQuality_returns.
  - apply toggleMute_returns.
  - apply fireTimer_returns.
  - apply destroyPlayer_returns.
Qed.





(** On the events of [step], [act] is [step]. *)
Lemma act_core (w : World.t) (e : Event) : act w (Core e) = step w e.
Proof.
  unfold act. cbn [handle].
  destruct e as [[data|]|s| | |i| |i|]; try reflexivity; cbn [handlerOf step].
  unfold engineHandler. now destruct (World.playerRef w), (World.listeners w).
Qed.

(** ** The automatic selection stays consistent *)

Lemma exec_bind {A B} (m : M A) (k : A -> M B) (w : World.t) (a : A) :
  fst (m w) = Returned a -> exec (bind m k) w = exec (k a) (exec m w).
Proof. unfold exec, bind. destruct (m w) as [[a'|e] w1]; cbn; congruence. Qed.

(** A write that keeps the label, or sets the automatic one, and keeps
    the engine. *)
Ltac shown_leaf :=
  let w := fresh "w" in
  let H := fresh in
  intros w H; destruct w; destruct H; split; [first [assumption | reflexivity] | assumption].

Ltac consistent_leaf :=
  let w := fresh "w" in
  let Hinv := fresh "Hinv" in
  let Hidx := fresh "Hidx" in
  let pl := fresh "pl" in
  let Epl := fresh "Epl" in
  intros w Hinv; destruct w; intro Hidx; destruct (Hinv Hidx); split;
  [ first [assumption | reflexivity]
  | first [ assumption
          | intros pl Epl; injection Epl as <-; reflexivity
          | intros pl Epl; discriminate Epl ] ].

Section EngineKept.

Variable f : Dash.MediaPlayer -> Dash.MediaPlayer.
Hypothesis f_keeps :
  forall pl, Dash.autoSwitchBitrateVideo pl = true ->
             Dash.autoSwitchBitrateVideo (f pl) = true.

Lemma onPlayer_engineAutomatic (w : World.t) :
  engineAutomatic w -> engineAutomatic (snd (onPlayer f w)).
Proof.
  intros H. open_world w. unfold onPlayer. unfold_handlers.
  cbn [World.playerRef]. destruct wplayer as [pl|]; [|exact H].
  intros pl' [= <-]. now apply f_keeps, H.
Qed.

Lemma onPlayer_automaticShown : preserves automaticShown (onPlayer f).
Proof.
  intros w [H1 H2]. split; [|now apply onPlayer_engineAutomatic].
  open_world w. now destruct wplayer.
Qed.

Lemma onPlayer_automaticConsistent : preserves automaticConsistent (onPlayer f).
Proof.
  intros w H.
  assert (E : World.state (snd (onPlayer f w)) = World.state w)
    by (open_world w; now destruct wplayer).
  intro I. rewrite E in *. destruct (H I). split; [assumption|].
  now apply onPlayer_engineAutomatic.
Qed.

End EngineKept.

Lemma attachSource_automatic (url : string) (pl : Dash.MediaPlayer) :
  Dash.autoSwitchBitrateVideo pl = true ->
  Dash.autoSwitchBitrateVideo (Dash.attachSource url pl) = true.
Proof. now destruct pl. Qed.

Lemma initialize_automatic (url : string) (auto : bool) (pl : Dash.MediaPlayer) :
  Dash.autoSwitchBitrateVideo pl = true ->
  Dash.autoSwitchBitrateVideo (Dash.initialize url auto pl) = true.
Proof. now destruct pl. Qed.

Lemma updateSettings_automatic (audio : option bool) (pl : Dash.MediaPlayer) :
  Dash.autoSwitchBitrateVideo pl = true ->
  Dash.autoSwitchBitrateVideo (Dash.updateSettings true audio pl) = true.
Proof. reflexivity. Qed.

Lemma reset_automaticConsistent :
  preserves automaticConsistent (onPlayerThrowing Dash.reset).
Proof.
  intros w H. open_world w. unfold onPlayerThrowing, Dash.reset. unfold_handlers.
  cbn [World.playerRef]. destruct wplayer as [pl|]; [|exact H].
  destruct (Dash.resetThrows pl) eqn:E; [exact H|].
  intro I. destruct (H I) as [H1 H2]. split; [exact H1|].
  intros pl' [= <-]. now apply (H2 pl).
Qed.

Ltac automatic_facts :=
  pose proof (fun u => onPlayer_automaticConsistent _ (attachSource_automatic u));
  pose proof (fun u a => onPlayer_automaticConsistent _ (initialize_automatic u a));
  pose proof (fun a => onPlayer_automaticConsistent _ (updateSettings_automatic a));
  pose proof (fun a => onPlayer_automaticShown _ (updateSettings_automatic a));
  pose proof reset_automaticConsistent.

Lemma updateQualityList_automaticConsistent (r : Render) :
  preserves automaticConsistent (updateQualityList r).
Proof. unfold updateQualityList. keep consistent_leaf. Qed.

Lemma updateQualityList_automaticShown (r : Render) :
  preserves automaticShown (updateQualityList r).
Proof. unfold updateQualityList. keep shown_leaf. Qed.

Lemma resumeIfWasPlaying_automaticConsistent (b : bool) :
  preserves automaticConsistent (resumeIfWasPlaying b).
Proof. unfold resumeIfWasPlaying. keep consistent_leaf. Qed.

Lemma resumeIfWasPlaying_automaticShown (b : bool) :
  preserves automaticShown (resumeIfWasPlaying b).
Proof. unfold resumeIfWasPlaying. keep shown_leaf. Qed.

(** *** Running a handler step by step *)

Lemma exec_get_bind {B} (k : World.t -> M B) (w : World.t) :
  exec (bind get k) w = exec (k w) w.
Proof. reflexivity. Qed.

Lemma exec_modify_bind {B} (f : World.t -> World.t) (k : unit -> M B) (w : World.t) :
  exec (bind (modify f) k) w = exec (k tt) (f w).
Proof. reflexivity. Qed.

Lemma exec_onPlayer_bind {B} (f : Dash.MediaPlayer -> Dash.MediaPlayer)
    (k : unit -> M B) (w : World.t) (player : Dash.MediaPlayer) :
  World.playerRef w = Some player ->
  exec (bind (onPlayer f) k) w
  = exec (k tt) (World.with_playerRef (Some (f player)) w).
Proof.
  intros H. unfold exec, onPlayer. cbv [bind get modify]. now rewrite H.
Qed.

Lemma updateQualityList_fst (r : Render) (w : World.t) :
  fst (updateQualityList r w) = Returned tt.
Proof.
  destruct (updateQualityList_returns (fun _ => True) r w I) as [[] E]. exact E.
Qed.

Lemma changeQuality_automatic_steps (r : Render) (w : World.t)
    (index : JS.number) (player : Dash.MediaPlayer) :
  World.playerRef w = Some player ->
  State.availableQualities (state r) <> [] ->
  JS.strict_eq index (-1)%float = true ->
  exec (changeQuality r index) w
  = exec (resumeIfWasPlaying (State.isPlaying (state r)))
      (exec (updateQualityList r)
         (World.with_state
            (State.with_currentQuality autoLabel
               (State.with_currentQualityIndex (-1)%float (World.state w)))
            (World.with_playerRef
               (Some (Dash.updateSettings true None player)) w))).
Proof.
  intros Hp Hmenu Hi.
  assert (Hlen : Nat.eqb (List.length (State.availableQualities (state r))) 0 = false)
    by now destruct (State.availableQualities (state r)).
  unfold changeQuality. rewrite exec_get_bind. cbv beta.
  rewrite Hp, Hlen, Hi. cbv zeta.
  rewrite (exec_onPlayer_bind _ _ _ _ Hp). unfold_setters.
  rewrite !exec_modify_bind.
  rewrite (exec_bind _ _ _ tt (updateQualityList_fst r _)).
  reflexivity.
Qed.

Lemma changeQuality_idle (r : Render) (w : World.t) (index : JS.number) :
  World.playerRef w = None
  \/ State.availableQualities (state r) = []
  \/ (JS.strict_eq index (-1)%float = false
      /\ JS.find (fun q => JS.strict_eq (Quality.index q) index)
                 (State.availableQualities (state r)) = None) ->
  changeQuality r index w = (Returned tt, w).
Proof.
  unfold changeQuality. cbv [bind get ret].
  intros [H|[H|[H1 H2]]].
  - now rewrite H.
  - rewrite H. now destruct (World.playerRef w).
  - rewrite H1, H2. destruct (World.playerRef w); [|reflexivity].
    now destruct (Nat.eqb _ 0).
Qed.

Lemma changeQuality_success_result (r : Render) (w : World.t)
    (index : JS.number) (player : Dash.MediaPlayer) (targetQuality : Quality.t) :
  World.playerRef w = Some player ->
  Dash.switchThrows player = false ->
  JS.strict_eq index (-1)%float = false ->
  JS.find (fun q => JS.strict_eq (Quality.index q) index)
          (State.availableQualities (state r)) = Some targetQuality ->
  let w' := exec (changeQuality r index) w in
  State.currentQualityIndex (World.state w') = index
  /\ State.currentQuality (World.state w') = Quality.label targetQuality
  /\ State.currentAutoQuality (World.state w') = ""
  /\ State.switchMessage (World.state w')
     = ("正在切换到 " ++ Quality.label targetQuality ++ ", 请稍等...")%string
  /\ option_map Dash.autoSwitchBitrateVideo (World.playerRef w') = Some false
  /\ option_map Dash.requestedVideoIndex (World.playerRef w') = Some (Some index)
  /\ World.timers w' = World.timers w ++ [(World.nextTimer w, ClearSwitchMessage)].
Proof.
  intros Hplayer Hthrows Hindex Hfind w'.
  pose proof (find_some_nonempty _ _ _ Hfind) as Hlen.
  subst w'. unfold exec, changeQuality, resumeIfWasPlaying.
  unfold_handlers.
  rewrite Hplayer, Hlen, Hindex, Hfind.
  open_world w. open_player player. cbn in Hplayer, Hthrows. subst.
  destruct (State.isPlaying (state r)), wvideo as [[? ? ? ? []]|];
    vm_compute; repeat split.
Qed.

Lemma automaticShown_consistent (w : World.t) :
  automaticShown w -> automaticConsistent w.
Proof. intros H _. exact H. Qed.

Lemma changeQuality_automaticConsistent (r : Render) (index : JS.number) :
  preserves automaticConsistent (changeQuality r index).
Proof.
  intros w H. change (automaticConsistent (exec (changeQuality r index) w)).
  destruct (World.playerRef w) as [player|] eqn:Hp;
    [|unfold exec; now rewrite changeQuality_idle by auto].
  assert (Hmenu : State.availableQualities (state r) = []
                  \/ State.availableQualities (state r) <> [])
    by (destruct (State.availableQualities (state r)); [now left | now right]).
  destruct Hmenu as [Hmenu|Hmenu];
    [unfold exec; now rewrite changeQuality_idle by auto|].
  destruct (JS.strict_eq index (-1)%float) eqn:Hi.
  - rewrite (changeQuality_automatic_steps r w index player Hp Hmenu Hi).
    apply automaticShown_consistent.
    apply resumeIfWasPlaying_automaticShown, updateQualityList_automaticShown.
    split; [now open_world w|]. open_world w. intros pl [= <-]. reflexivity.
  - destruct (JS.find (fun q => JS.strict_eq (Quality.index q) index)
                      (State.availableQualities (state r))) as [target|] eqn:Hf;
      [|unfold exec; now rewrite changeQuality_idle by auto].
    destruct (Dash.switchThrows player) eqn:Ht.
    + destruct (changeQuality_failure_result r w index player target Hp Ht Hi Hf)
        as (_ & H2 & _ & H4 & _).
      intros _. split; [exact H4|]. intros pl E. rewrite E in H2. now injection H2.
    + destruct (changeQuality_success_result r w index player target Hp Ht Hi Hf)
        as (H1 & _).
      intros I. rewrite H1, Hi in I. discriminate I.
Qed.

Lemma destroyPlayer_automaticConsistent : preserves automaticConsistent destroyPlayer.
Proof.
  automatic_facts. unfold destroyPlayer, revokePreviousBlobUrl.
  keep consistent_leaf.
Qed.

Lemma initPlayer_automaticConsistent (r : Render) :
  preserves automaticConsistent (initPlayer r).
Proof.
  automatic_facts. pose proof destroyPlayer_automaticConsistent.
  unfold initPlayer. keep consistent_leaf.
Qed.

Lemma updateSrc_automaticConsistent (r : Render) (s : Source.t) :
  preserves automaticConsistent (updateSrc r s).
Proof.
  automatic_facts. pose proof (initPlayer_automaticConsistent r).
  unfold updateSrc, revokePreviousBlobUrl. keep consistent_leaf.
Qed.

Lemma engineHandler_preserves (P : World.t -> Prop) (w : World.t)
    (h : Render -> M unit) :
  (forall r, preserves P (h r)) -> preserves P (engineHandler w h).
Proof.
  intros H. unfold engineHandler.
  destruct (World.playerRef w), (World.listeners w); auto using preserves_ret.
Qed.

Lemma handle_automaticConsistent (w : World.t) (a : Action) :
  preserves automaticConsistent (handle w a).
Proof.
  pose proof updateQualityList_automaticConsistent.
  pose proof changeQuality_automaticConsistent.
  pose proof updateSrc_automaticConsistent.
  pose proof destroyPlayer_automaticConsistent.
  destruct a as [[resp|s| | |i| |i|]| | |v|n o| |e|u];
    cbn [handle handlerOf]; try apply engineHandler_preserves; intros;
    unfold manifestResponse, formatListEffect, optionsEffect, handleLoginSuccess,
      urlEffect, refetchManifest, onStreamInitialized, toggleMute, fireTimer,
      handleMouseMove, hideControlsFn, handleVolumeChange, assignVolume,
      onQualityChangeRendered, onPlaybackEnded, onEngineError;
    keep consistent_leaf.
Qed.

Lemma perform_preserves (P : World.t -> Prop) :
  (forall w a, preserves P (handle w a)) ->
  forall actions w, P w -> P (perform w actions).
Proof.
  intros H actions. induction actions as [|a actions IH]; intros w Hw; [exact Hw|].
  apply IH. now apply (H w a).
Qed.

(** X2: whatever the actions, a component that shows the automatic
    selection (index -1) shows the automatic label, and its engine, if
    there is one, switches the video bitrate by itself: when this holds
    it holds after any sequence of actions. *)
Theorem automatic_selection_stays_consistent (w : World.t) (actions : list Action) :
  automaticConsistent w -> automaticConsistent (perform w actions).
Proof. apply perform_preserves. exact handle_automaticConsistent. Qed.

Lemma automatic_selection_stays_consistent_witness :
  State.currentQuality
    (World.state
       (perform (Sample.playing false Sample.video)
          [Core (UserChangeQuality 2%float); Core (UserChangeQuality (-1)%float)]))
  = autoLabel.
Proof.
  refine (proj1 (automatic_selection_stays_consistent
                   (Sample.playing false Sample.video)
                   [Core (UserChangeQuality 2%float);
                    Core (UserChangeQuality (-1)%float)] _ _)).
  - intros _. split; [reflexivity|].
    intros pl E. injection E as <-. reflexivity.
  - vm_compute. reflexivity.
Defined.

(** ** Timers that hide the controls *)

Lemma exec_returns_bind {A B} (m : M A) (k : A -> M B) (w : World.t) :
  returns (fun _ => True) m ->
  exists a, exec (bind m k) w = exec (k a) (exec m w).
Proof.
  intros H. destruct (H w I) as [a Ha]. exists a.
  unfold exec, bind. destruct (m w) as [[b|e] w']; cbn in Ha |- *;
    [congruence | discriminate].
Qed.

Lemma preserves_get_with {B} (P : World.t -> Prop) (k : World.t -> M B) :
  (forall w0, P w0 -> P (exec (k w0) w0)) -> preserves P (bind get k).
Proof. intros H w Hw. exact (H w Hw). Qed.

Lemma filter_keeps_Forall {A} (P : A -> Prop) (f : A -> bool) (l : list A) :
  Forall P l -> Forall P (filter f l).
Proof.
  induction 1 as [|x l Hx Hl IH]; cbn; [constructor|].
  destruct (f x); [constructor|]; assumption.
Qed.

Lemma filter_keeps_NoDup_fst {A B} (f : A * B -> bool) (l : list (A * B)) :
  NoDup (map fst l) -> NoDup (map fst (filter f l)).
Proof.
  induction l as [|x l IH]; cbn; [trivial|].
  intros H. inversion H as [|? ? Hx Hl]; subst.
  destruct (f x); cbn; [constructor|]; auto.
  intros Hin. apply Hx. apply in_map_iff in Hin as [y [Hy Hin]].
  apply in_map_iff. exists y. split; [exact Hy|].
  now apply filter_In in Hin.
Qed.

Lemma filter_none {A} (f : A -> bool) (l : list A) :
  Forall (fun x => f x = false) l -> filter f l = [].
Proof.
  induction 1 as [|x l Hx Hl IH]; cbn; [reflexivity|]. now rewrite Hx.
Qed.

Lemma fresh_id_not_pending (n : positive) (l : list (positive * Timer)) :
  Forall (fun p => (fst p < n)%positive) l -> ~ In n (map fst l).
Proof.
  intros H Hin. apply in_map_iff in Hin as [p [Hp Hin]].
  rewrite Forall_forall in H. specialize (H p Hin). lia.
Qed.

Lemma NoDup_app_fresh (n : positive) (l : list (positive * Timer)) (t : Timer) :
  NoDup (map fst l) -> ~ In n (map fst l) -> NoDup (map fst (l ++ [(n, t)])).
Proof.
  intros Hnd Hn. rewrite map_app. cbn.
  induction (map fst l) as [|x xs IH]; cbn.
  - constructor; [intros []|constructor].
  - inversion Hnd as [|? ? Hx Hxs]; subst. constructor.
    + rewrite in_app_iff. intros [H|[H|[]]]; [now apply Hx|].
      apply Hn. left. now symmetry.
    + apply IH; [exact Hxs|]. intros H. apply Hn. now right.
Qed.

Lemma Forall_lt_succ (n : positive) (l : list (positive * Timer)) (t : Timer) :
  Forall (fun p => (fst p < n)%positive) l ->
  Forall (fun p => (fst p < Pos.succ n)%positive) (l ++ [(n, t)]).
Proof.
  intros H. apply Forall_app. split.
  - eapply Forall_impl; [|exact H]. cbn. intros; lia.
  - constructor; [cbn; lia|constructor].
Qed.

Ltac open_tracked :=
  unfold timersTracked in *;
  cbn [World.timers World.nextTimer World.hideControlsTimer World.with_timers
       World.with_hideControlsTimer World.with_state] in *.

Lemma clearTimeout_tracked (i : positive) :
  preserves timersTracked (clearTimeout i).
Proof.
  unfold clearTimeout. apply preserves_modify.
  intros w (Hlt & Hnd & Hhide & Hkept). open_world w. open_tracked.
  split; [|split; [|split]]; [| | |exact Hkept].
  - now apply filter_keeps_Forall.
  - now apply filter_keeps_NoDup_fst.
  - now apply filter_keeps_Forall.
Qed.

Lemma setTimeout_clear_tracked :
  preserves timersTracked (setTimeout ClearSwitchMessage).
Proof.
  intros w (Hlt & Hnd & Hhide & Hkept). open_world w. open_tracked.
  cbn in Hlt, Hnd, Hhide, Hkept |- *. split; [|split; [|split]].
  - now apply Forall_lt_succ.
  - apply NoDup_app_fresh; [exact Hnd|now apply fresh_id_not_pending].
  - apply Forall_app. split; [exact Hhide|].
    constructor; [|constructor]. cbn. split; [discriminate|].
    intros E. specialize (Hkept _ E). lia.
  - intros i E. specialize (Hkept _ E). lia.
Qed.

(** Clearing the kept timer leaves no timer that hides the controls, and
    takes no other timer away. *)
Lemma timersWithoutKept_no_hide (w : World.t) :
  timersTracked w ->
  Forall (fun p => isHideTimer p = false) (timersWithoutKept w).
Proof.
  intros (_ & _ & Hhide & _). unfold timersWithoutKept.
  rewrite Forall_forall in Hhide |- *. intros p Hp.
  destruct (isHideTimer p) eqn:Hide; [exfalso|reflexivity].
  destruct (World.hideControlsTimer w) as [i|] eqn:Hi.
  - apply filter_In in Hp as [Hin Hne].
    apply (Hhide p Hin) in Hide. injection Hide as ->.
    now rewrite Pos.eqb_refl in Hne.
  - apply (Hhide p Hp) in Hide. discriminate.
Qed.

Lemma timersWithoutKept_messages (w : World.t) :
  timersTracked w ->
  filter (fun p => negb (isHideTimer p)) (timersWithoutKept w) = messageTimers w.
Proof.
  intros (_ & _ & Hhide & _). unfold timersWithoutKept, messageTimers.
  destruct (World.hideControlsTimer w) as [i|]; [|reflexivity].
  induction Hhide as [|p l Hp Hl IH]; cbn; [reflexivity|].
  destruct (Pos.eqb (fst p) i) eqn:E; cbn.
  - apply Pos.eqb_eq in E. subst i.
    now rewrite (proj2 Hp eq_refl).
  - now rewrite IH.
Qed.

Lemma timersWithoutKept_lt (w : World.t) :
  timersTracked w ->
  Forall (fun p => (fst p < World.nextTimer w)%positive) (timersWithoutKept w).
Proof.
  intros (Hlt & _ & _). unfold timersWithoutKept.
  destruct (World.hideControlsTimer w); [now apply filter_keeps_Forall|exact Hlt].
Qed.

Lemma timersWithoutKept_NoDup (w : World.t) :
  timersTracked w -> NoDup (map fst (timersWithoutKept w)).
Proof.
  intros (_ & Hnd & _). unfold timersWithoutKept.
  destruct (World.hideControlsTimer w); [now apply filter_keeps_NoDup_fst|exact Hnd].
Qed.

Lemma handleMouseMove_result (r : Render) (w : World.t) :
  exec (handleMouseMove r) w
  = World.with_hideControlsTimer (Some (World.nextTimer w))
      (World.with_timers
         (timersWithoutKept w
          ++ [(World.nextTimer w, HideControlsIfPlaying (State.isPlaying (state r)))])
         (Pos.succ (World.nextTimer w))
         (World.with_state (State.with_showControls true (World.state w)) w)).
Proof. open_world w. destruct wtimer; reflexivity. Qed.

Lemma handleMouseMove_tracked (r : Render) :
  preserves timersTracked (handleMouseMove r).
Proof.
  intros w Hw. change (timersTracked (exec (handleMouseMove r) w)).
  rewrite handleMouseMove_result.
  pose proof (timersWithoutKept_no_hide w Hw) as Hno.
  pose proof (timersWithoutKept_lt w Hw) as Hlt.
  pose proof (timersWithoutKept_NoDup w Hw) as Hnd.
  clear Hw. open_world w. open_tracked.
  split; [|split; [|split]].
  - now apply Forall_lt_succ.
  - apply NoDup_app_fresh; [exact Hnd|now apply fresh_id_not_pending].
  - apply Forall_app. split.
    + rewrite Forall_forall in Hno, Hlt |- *. intros p Hp.
      rewrite (Hno p Hp). specialize (Hlt p Hp). split; [discriminate|].
      intros [= E]. lia.
    + constructor; [now split|constructor].
  - intros i [= <-]. lia.
Qed.

Lemma clearKeptTimer_result (w : World.t) :
  exec (match World.hideControlsTimer w with
        | Some i => clearTimeout i ;; modify (World.with_hideControlsTimer None)
        | None => ret tt
        end) w
  = World.with_hideControlsTimer None
      (World.with_timers (timersWithoutKept w) (World.nextTimer w) w).
Proof. open_world w. destruct wtimer; reflexivity. Qed.

Lemma clearKeptTimer_tracked (w : World.t) :
  timersTracked w ->
  timersTracked
    (World.with_hideControlsTimer None
       (World.with_timers (timersWithoutKept w) (World.nextTimer w) w)).
Proof.
  intros Hw.
  pose proof (timersWithoutKept_no_hide w Hw) as Hno.
  pose proof (timersWithoutKept_lt w Hw) as Hlt.
  pose proof (timersWithoutKept_NoDup w Hw) as Hnd.
  clear Hw. open_world w. open_tracked.
  split; [exact Hlt|split; [exact Hnd|split; [|discriminate]]].
  eapply Forall_impl; [|exact Hno]. cbn. intros p ->. split; discriminate.
Qed.

Lemma revokePreviousBlobUrl_tracked : preserves timersTracked revokePreviousBlobUrl.
Proof. unfold revokePreviousBlobUrl. keep frame_leaf. Qed.

Lemma destroyPlayer_tracked : preserves timersTracked destroyPlayer.
Proof.
  unfold destroyPlayer.
  apply preserves_bind; [apply preserves_get|intro w0].
  apply preserves_bind; [keep frame_leaf|intros _].
  apply preserves_get_with. intros w Hw.
  destruct (exec_returns_bind
              (match World.hideControlsTimer w with
               | Some i => clearTimeout i ;; modify (World.with_hideControlsTimer None)
               | None => ret tt
               end) (fun _ => revokePreviousBlobUrl) w) as [a ->].
  - destruct (World.hideControlsTimer w); returning.
  - apply revokePreviousBlobUrl_tracked.
    rewrite clearKeptTimer_result. now apply clearKeptTimer_tracked.
Qed.

Lemma handle_tracked (w : World.t) (a : Action) :
  preserves timersTracked (handle w a).
Proof.
  pose proof clearTimeout_tracked. pose proof setTimeout_clear_tracked.
  pose proof destroyPlayer_tracked. pose proof handleMouseMove_tracked.
  destruct a as [[resp|s| | |i| |i|]| | |v|n o| |e|u];
    cbn [handle handlerOf]; try apply engineHandler_preserves; intros;
    unfold manifestResponse, formatListEffect, optionsEffect, updateSrc,
      initPlayer, revokePreviousBlobUrl, handleLoginSuccess, urlEffect, refetchManifest,
      onStreamInitialized, changeQuality, resumeIfWasPlaying,
      toggleMute, fireTimer, hideControlsFn, handleVolumeChange, assignVolume,
      onQualityChangeRendered, onPlaybackEnded, onEngineError,
      updateQualityList;
    keep frame_leaf.
Qed.

Lemma initial_tracked (p : Props.t) (el : option Video.Element) :
  timersTracked (World.initial p el).
Proof. repeat split; try constructor. discriminate. Qed.

Lemma perform_tracked (actions : list Action) (w : World.t) :
  timersTracked w -> timersTracked (perform w actions).
Proof. apply perform_preserves. exact handle_tracked. Qed.

Lemma one_kept_hide_timer (l : list (positive * Timer)) (kept : option positive) :
  NoDup (map fst l) ->
  Forall (fun p => isHideTimer p = true <-> kept = Some (fst p)) l ->
  List.length (filter isHideTimer l) <= 1.
Proof.
  intros Hnd Hhide. induction l as [|p l IH]; cbn; [lia|].
  inversion Hnd as [|? ? Hp Hl]; subst. inversion Hhide as [|? ? Hk Hrest]; subst.
  specialize (IH Hl Hrest).
  destruct (isHideTimer p) eqn:Hide; [|exact IH]. cbn.
  destruct (filter isHideTimer l) as [|q qs] eqn:Hq; [cbn; lia|exfalso].
  assert (Hin : In q (filter isHideTimer l)) by (rewrite Hq; now left).
  apply filter_In in Hin as [Hin Hqhide].
  rewrite Forall_forall in Hrest. apply (Hrest q Hin) in Hqhide.
  rewrite (proj1 Hk eq_refl) in Hqhide. injection Hqhide as Heq.
  apply Hp. rewrite Heq. now apply in_map.
Qed.

Lemma playing_tracked (throwing : bool) (el : Video.Element) :
  timersTracked (Sample.playing throwing el).
Proof. repeat split; try constructor. discriminate. Defined.

Lemma streaming_tracked : timersTracked Scenario.streaming.
Proof. repeat split; try constructor. discriminate. Defined.

(** X3: from a component whose timers are tracked, as they are when it
    mounts, however the mouse moves and whatever else happens, at most
    one timer that hides the controls is pending. *)
Theorem at_most_one_hide_timer (w : World.t) (actions : list Action) :
  timersTracked w ->
  List.length (hideTimers (perform w actions)) <= 1.
Proof.
  intros Hw. destruct (perform_tracked actions w Hw) as (_ & Hnd & Hhide & _).
  exact (one_kept_hide_timer _ _ Hnd Hhide).
Qed.

Lemma at_most_one_hide_timer_witness :
  List.length
    (hideTimers
       (perform (Sample.playing false Sample.video)
          [MouseMoved; Core (UserChangeQuality 2%float); MouseMoved; MouseMoved]))
  <= 1.
Proof.
  apply at_most_one_hide_timer. apply playing_tracked.
Defined.

Lemma mouse_move_timers (w : World.t) :
  timersTracked w ->
  hideTimers (act w MouseMoved)
  = [(World.nextTimer w, HideControlsIfPlaying (State.isPlaying (World.state w)))]
  /\ World.hideControlsTimer (act w MouseMoved) = Some (World.nextTimer w)
  /\ messageTimers (act w MouseMoved) = messageTimers w.
Proof.
  intros Hw. unfold act, hideTimers, messageTimers at 1. cbn [handle].
  rewrite handleMouseMove_result.
  pose proof (timersWithoutKept_no_hide w Hw) as Hno.
  pose proof (timersWithoutKept_messages w Hw) as Hmsg.
  clear Hw. open_world w.
  cbn [World.timers World.hideControlsTimer World.nextTimer World.state
       World.with_hideControlsTimer World.with_timers World.with_state
       render state] in *.
  split; [|split; [reflexivity|]].
  - rewrite filter_app, (filter_none _ _ Hno). reflexivity.
  - rewrite filter_app, Hmsg. cbn. apply app_nil_r.
Qed.

(** X4: after a mouse move, whatever happened before, the pending timer
    that hides the controls is the one this move started, and it carries
    the playing state of the render the move happened in; the timers that
    clear the switch message are all still pending. *)
Theorem mouse_move_restarts_hide_timer (w0 : World.t) (actions : list Action) :
  timersTracked w0 ->
  let w := perform w0 actions in
  hideTimers (act w MouseMoved)
  = [(World.nextTimer w, HideControlsIfPlaying (State.isPlaying (World.state w)))]
  /\ World.hideControlsTimer (act w MouseMoved) = Some (World.nextTimer w)
  /\ messageTimers (act w MouseMoved) = messageTimers w.
Proof. intros Hw w. now apply mouse_move_timers, perform_tracked. Qed.

Lemma mouse_move_restarts_hide_timer_witness :
  let w := perform (Sample.playing false Sample.video) [MouseMoved] in
  hideTimers (act w MouseMoved)
  = [(World.nextTimer w, HideControlsIfPlaying (State.isPlaying (World.state w)))]
  /\ World.hideControlsTimer (act w MouseMoved) = Some (World.nextTimer w)
  /\ messageTimers (act w MouseMoved) = messageTimers w.
Proof.
  exact (mouse_move_restarts_hide_timer (Sample.playing false Sample.video)
           [MouseMoved] (playing_tracked false Sample.video)).
Defined.

(** ** The engine keeps the handlers of the render that created it *)

Lemma preserves_exec {A} (P : World.t -> Prop) (m : M A) (w : World.t) :
  preserves P m -> P w -> P (exec m w).
Proof. intros H Hw. exact (H w Hw). Qed.

Lemma onPlayer_engineKept (l : option Render)
    (f : Dash.MediaPlayer -> Dash.MediaPlayer) :
  preserves (engineKept l) (onPlayer f).
Proof.
  intros w [Hp Hl]. open_world w. cbn in Hp, Hl.
  destruct wplayer; [|discriminate]. split; [reflexivity|exact Hl].
Qed.

Lemma onPlayerThrowing_engineKept (l : option Render)
    (f : Dash.MediaPlayer -> option Dash.MediaPlayer) :
  preserves (engineKept l) (onPlayerThrowing f).
Proof.
  intros w [Hp Hl]. open_world w. cbn in Hp, Hl.
  destruct wplayer as [pl|]; [|discriminate]. unfold onPlayerThrowing.
  cbv [bind get modify throw]. cbn [World.playerRef].
  destruct (f pl); (split; [reflexivity|exact Hl]).
Qed.

Lemma updateSrc_engineKept (l : option Render) (r : Render) (s : Source.t) :
  preserves (engineKept l) (updateSrc r s).
Proof.
  pose proof (onPlayer_engineKept l).
  unfold updateSrc. apply preserves_get_with. intros w0 Hw0.
  destruct Hw0 as [Hp Hl]. destruct (World.playerRef w0) eqn:E; [|discriminate].
  match goal with
  | |- engineKept _ (exec (bind _ ?k) _) => change (engineKept l (exec (k tt) w0))
  end.
  cbv beta. apply preserves_exec.
  - unfold revokePreviousBlobUrl. keep frame_leaf.
  - split; [now rewrite E|exact Hl].
Qed.

Lemma handle_engineKept (l : option Render) (w : World.t) (a : Action) :
  isUnmount a = false -> preserves (engineKept l) (handle w a).
Proof.
  pose proof (onPlayer_engineKept l). pose proof (onPlayerThrowing_engineKept l).
  pose proof (updateSrc_engineKept l).
  destruct a as [[resp|s| | |i| |i|]| | |v|n o| |e|u]; intros Ha;
    try discriminate Ha;
    cbn [handle handlerOf]; try apply engineHandler_preserves; intros;
    unfold manifestResponse, formatListEffect, optionsEffect,
      handleLoginSuccess, urlEffect, refetchManifest,
      onStreamInitialized, changeQuality, resumeIfWasPlaying,
      toggleMute, fireTimer, handleMouseMove, hideControlsFn,
      handleVolumeChange, assignVolume,
      onQualityChangeRendered, onPlaybackEnded, onEngineError,
      updateQualityList;
    keep frame_leaf.
Qed.

Lemma perform_engineKept (l : option Render) (actions : list Action) (w : World.t) :
  existsb isUnmount actions = false ->
  engineKept l w -> engineKept l (perform w actions).
Proof.
  revert w. induction actions as [|a actions IH]; intros w Hno Hw; [exact Hw|].
  cbn in Hno. apply orb_false_iff in Hno as [Ha Hno].
  cbn [perform fold_left]. apply (IH _ Hno).
  now apply (handle_engineKept l w a Ha).
Qed.

(** X5: as long as the component is not unmounted, an engine, once
    there, stays, and the handlers of its events stay those of the
    render that created it: no later render renews them. *)
Theorem engine_handlers_are_never_renewed (w : World.t) (actions : list Action) :
  isSome (World.playerRef w) = true ->
  existsb isUnmount actions = false ->
  isSome (World.playerRef (perform w actions)) = true
  /\ World.listeners (perform w actions) = World.listeners w.
Proof.
  intros Hp Hno. apply (perform_engineKept _ actions w Hno). now split.
Qed.

(** X6: so a login does not reach the quality menu: whatever happened
    since the engine was created, a login and a new manifest included, on
    stream-initialized the menu is built with the login state of the
    render that created the engine. *)
Theorem menu_is_built_with_the_login_state_at_creation (w : World.t) (r : Render)
    (actions : list Action) :
  isSome (World.playerRef w) = true ->
  World.listeners w = Some r ->
  existsb isUnmount actions = false ->
  let w' := perform w actions in
  State.availableQualities (World.state (act w' (Core EngineStreamInitialized)))
  = newQualities (State.isLoggedIn (state r)) (World.formatListRef w')
      match World.playerRef w' with
      | Some player => Dash.videoRepresentations player
      | None => []
      end.
Proof.
  intros Hp Hl Hno w'.
  destruct (perform_engineKept (Some r) actions w Hno (conj Hp Hl)) as [Hp' Hl'].
  fold w' in Hp', Hl'. unfold act. cbn [handle handlerOf]. unfold engineHandler.
  pose proof (onStreamInitialized_menu r w') as Hmenu.
  rewrite Hl'. destruct (World.playerRef w'); [exact Hmenu|discriminate].
Qed.

(** *** A handler of an old render and the manual selection *)

Lemma onPlayer_engineReports (reps : list Dash.Representation)
    (f : Dash.MediaPlayer -> Dash.MediaPlayer) :
  (forall pl, Dash.videoRepresentations (f pl) = Dash.videoRepresentations pl) ->
  preserves (engineReports reps) (onPlayer f).
Proof.
  intros Hf w Hw. open_world w. unfold engineReports in *. cbn in Hw.
  destruct wplayer as [pl|]; [|discriminate]. cbn. now rewrite Hf.
Qed.

Lemma switch_engineReports (reps : list Dash.Representation) (index : JS.number) :
  preserves (engineReports reps)
    (onPlayerThrowing (Dash.setRepresentationForTypeByIndex index)).
Proof.
  intros w Hw. open_world w. unfold engineReports in *. cbn in Hw.
  destruct wplayer as [pl|]; [|discriminate]. open_player pl.
  destruct pswitch; exact Hw.
Qed.

Lemma changeQuality_engineReports (reps : list Dash.Representation)
    (r : Render) (index : JS.number) :
  preserves (engineReports reps) (changeQuality r index).
Proof.
  pose proof (switch_engineReports reps).
  pose proof (fun v a => onPlayer_engineReports reps (Dash.updateSettings v a)
                           (fun pl => eq_refl)).
  unfold changeQuality, resumeIfWasPlaying, updateQualityList.
  keep frame_leaf.
Qed.

(** With an engine that reports representations, the recompute of a
    render without explicit selection sets the automatic label, and
    leaves the selected index alone. *)
Lemma updateQualityList_labels_automatic (r : Render) (w : World.t)
    (reps : list Dash.Representation) :
  engineReports reps w -> reps <> [] ->
  JS.strict_eq (State.currentQualityIndex (state r)) (-1)%float = true ->
  State.currentQuality (World.state (exec (updateQualityList r) w)) = autoLabel.
Proof.
  intros Hreps Hne Hindex. unfold engineReports in Hreps.
  destruct (World.playerRef w) as [player|] eqn:Hplayer; [|discriminate].
  injection Hreps as Hreps.
  assert (Hlen : Nat.eqb (List.length (Dash.videoRepresentations player)) 0 = false)
    by (rewrite Hreps; now destruct reps).
  unfold exec, updateQualityList. unfold_handlers.
  rewrite Hplayer, Hindex, Hlen. cbv [negb].
  destruct (Dash.currentVideoRepresentation player) as [rep|]; [|reflexivity].
  destruct (JS.find _ (World.formatListRef w)) as [item|]; [|reflexivity].
  destruct (JS.find _ (World.formatListRef w)) as [item'|];
    [destruct (FormatItem.display_desc item') as [d|];
       [destruct (JS.truthy_string d)|]|];
    now open_world w.
Qed.

Lemma onQualityChangeRendered_keeps_index (i : JS.number) (r : Render)
    (n o : option Dash.Representation) :
  preserves (fun w => State.currentQualityIndex (World.state w) = i)
            (onQualityChangeRendered r n o).
Proof. unfold onQualityChangeRendered, updateQualityList. keep frame_leaf. Qed.

Lemma onQualityChangeRendered_labels_automatic (r : Render) (w : World.t)
    (reps : list Dash.Representation) (n o : option Dash.Representation) :
  engineReports reps w -> reps <> [] ->
  JS.strict_eq (State.currentQualityIndex (state r)) (-1)%float = true ->
  State.currentQuality (World.state (exec (onQualityChangeRendered r n o) w))
  = autoLabel.
Proof.
  intros Hreps Hne Hindex. unfold onQualityChangeRendered. rewrite Hindex.
  rewrite (exec_bind _ _ _ tt (updateQualityList_fst r _)).
  apply (preserves_exec
           (fun w => State.currentQuality (World.state w) = autoLabel)).
  - keep frame_leaf.
  - now apply updateQualityList_labels_automatic with reps.
Qed.

(** X7: the engine's handlers are those of the render that created the
    engine; when that render had no explicit selection, a
    quality-change-rendered event after a successful manual switch puts
    the automatic label back while the selected index stays the manual
    one. *)
Theorem rendered_quality_overwrites_manual_label (w : World.t) (r : Render)
    (player : Dash.MediaPlayer) (index : JS.number) (target : Quality.t)
    (n o : option Dash.Representation) :
  World.playerRef w = Some player ->
  World.listeners w = Some r ->
  JS.strict_eq (State.currentQualityIndex (state r)) (-1)%float = true ->
  Dash.videoRepresentations player <> [] ->
  Dash.switchThrows player = false ->
  JS.strict_eq index (-1)%float = false ->
  JS.find (fun q => JS.strict_eq (Quality.index q) index)
          (State.availableQualities (World.state w)) = Some target ->
  let w1 := act w (Core (UserChangeQuality index)) in
  let w2 := act w1 (EngineQualityChangeRendered n o) in
  State.currentQualityIndex (World.state w1) = index
  /\ State.currentQuality (World.state w1) = Quality.label target
  /\ State.currentQualityIndex (World.state w2) = index
  /\ State.currentQuality (World.state w2) = autoLabel.
Proof.
  intros Hplayer Hl Hr Hreps Hthrows Hindex Hfind w1 w2.
  destruct (changeQuality_success_result (render w) w index player target
              Hplayer Hthrows Hindex Hfind) as (H1 & H2 & _).
  fold (act w (Core (UserChangeQuality index))) in H1, H2. fold w1 in H1, H2.
  assert (Hkept : engineKept (Some r) w1).
  { apply (handle_engineKept (Some r) w (Core (UserChangeQuality index)) eq_refl).
    split; [now rewrite Hplayer|exact Hl]. }
  assert (Hrep : engineReports (Dash.videoRepresentations player) w1).
  { apply (changeQuality_engineReports _ (render w) index).
    unfold engineReports. now rewrite Hplayer. }
  destruct Hkept as [Hp1 Hl1].
  assert (Hw2 : w2 = exec (onQualityChangeRendered r n o) w1).
  { subst w2. unfold act. cbn [handle]. unfold engineHandler. rewrite Hl1.
    now destruct (World.playerRef w1). }
  rewrite Hw2. repeat split; [exact H1|exact H2| |].
  - now apply (onQualityChangeRendered_keeps_index index r n o).
  - now apply onQualityChangeRendered_labels_automatic
      with (Dash.videoRepresentations player).
Qed.

Lemma engine_handlers_are_never_renewed_witness :
  isSome (World.playerRef (perform Scenario.streaming Scenario.login)) = true
  /\ World.listeners (perform Scenario.streaming Scenario.login)
     = World.listeners Scenario.streaming.
Proof.
  exact (engine_handlers_are_never_renewed Scenario.streaming Scenario.login
           eq_refl eq_refl).
Defined.

Lemma menu_is_built_with_the_login_state_at_creation_witness :
  let w' := perform Scenario.streaming Scenario.login in
  State.availableQualities (World.state (act w' (Core EngineStreamInitialized)))
  = newQualities false (World.formatListRef w')
      match World.playerRef w' with
      | Some player => Dash.videoRepresentations player
      | None => []
      end.
Proof.
  exact (menu_is_built_with_the_login_state_at_creation Scenario.streaming
           (render (Sample.playing false Sample.video)) Scenario.login
           eq_refl eq_refl eq_refl).
Defined.

Lemma rendered_quality_overwrites_manual_label_witness :
  let w1 := act Scenario.streaming (Core (UserChangeQuality 2%float)) in
  let w2 := act w1 (EngineQualityChangeRendered None None) in
  State.currentQualityIndex (World.state w1) = 2%float
  /\ State.currentQuality (World.state w1) = "1080P 高清"
  /\ State.currentQualityIndex (World.state w2) = 2%float
  /\ State.currentQuality (World.state w2) = autoLabel.
Proof.
  exact (rendered_quality_overwrites_manual_label Scenario.streaming
           (render (Sample.playing false Sample.video)) (Sample.player false)
           2%float Scenario.highest None None
           eq_refl eq_refl eq_refl ltac:(discriminate) eq_refl eq_refl eq_refl).
Defined.

(** C2, at the failing input: the engine was created while the viewer was
    not logged in; the viewer logs in and the manifest requested then
    arrives, with an item that has no codec string and an id below 112.
    On stream-initialized the viewer is logged in, and the menu the
    handler stores is the one of a viewer who is not: it still holds the
    entry that needs a login.  Built with the login state the component
    shows, the menu would not hold it. *)
Theorem menu_after_login_still_needs_login :
  let w := perform Scenario.streaming Scenario.login in
  let menu :=
    State.availableQualities
      (World.state (act w (Core EngineStreamInitialized))) in
  State.isLoggedIn (World.state w) = true
  /\ option_map (fun r => State.isLoggedIn (state r)) (World.listeners w)
     = Some false
  /\ World.formatListRef w = Scenario.formats
  /\ menu = newQualities false Scenario.formats Sample.representations
  /\ map Quality.needLogin menu = [false; false; false; true]
  /\ map Quality.index menu = [2%float; 1%float; 0%float; 16%float]
  /\ map Quality.needLogin
       (newQualities true Scenario.formats Sample.representations)
     = [false; false; false].
Proof. vm_compute. repeat split. Qed.

(** ** Volume and mute *)

Lemma handleVolumeChange_result (v : JS.number) (w : World.t) (e : Video.Element) :
  World.videoPlayerRef w = Some e ->
  volumeAccepted v = true ->
  exec (handleVolumeChange v) w
  = World.with_state
      (State.with_isMuted (JS.strict_eq v 0%float)
         (State.with_volume v (World.state w)))
      (World.with_videoPlayerRef (Some (Video.set_volume v e)) w).
Proof.
  intros He Hv. unfold exec, handleVolumeChange, assignVolume. rewrite Hv.
  unfold_handlers. open_world w. cbn in He. subst wvideo. reflexivity.
Qed.

Lemma toggleMute_mutes (r : Render) (w : World.t) (e : Video.Element) :
  World.videoPlayerRef w = Some e ->
  State.isMuted (state r) = false ->
  exec (toggleMute r) w
  = World.with_state (State.with_isMuted true (World.state w))
      (World.with_videoPlayerRef (Some (Video.set_muted true e)) w).
Proof.
  intros He Hm. unfold exec, toggleMute. rewrite Hm.
  unfold_handlers. open_world w. cbn in He. subst wvideo. reflexivity.
Qed.

Lemma toggleMute_unmutes_silent (r : Render) (w : World.t) (e : Video.Element) :
  World.videoPlayerRef w = Some e ->
  State.isMuted (state r) = true ->
  JS.strict_eq (State.volume (state r)) 0%float = true ->
  exec (toggleMute r) w
  = World.with_state
      (State.with_volume 0.5%float (State.with_isMuted false (World.state w)))
      (World.with_videoPlayerRef
         (Some (Video.set_volume 0.5%float (Video.set_muted false e))) w).
Proof.
  intros He Hm Hv. unfold exec, toggleMute. rewrite Hm, Hv.
  unfold_handlers. open_world w. cbn in He. subst wvideo. reflexivity.
Qed.

(** X8: the volume control never touches the element's [muted] flag:
    after the mute button, a volume above zero makes the component show
    the sound as on, at that volume, while the element stays muted. *)
Theorem volume_after_mute_leaves_element_muted (w : World.t) (e : Video.Element)
    (v : JS.number) :
  World.videoPlayerRef w = Some e ->
  State.isMuted (World.state w) = false ->
  volumeAccepted v = true ->
  JS.strict_eq v 0%float = false ->
  let w' := perform w [Core UserToggleMute; VolumeChanged v] in
  State.isMuted (World.state w') = false
  /\ State.volume (World.state w') = v
  /\ World.videoPlayerRef w'
     = Some (Video.set_volume v (Video.set_muted true e)).
Proof.
  intros He Hm Hv Hz w'.
  assert (Hw' : w' = World.with_state
                       (State.with_isMuted false
                          (State.with_volume v
                             (State.with_isMuted true (World.state w))))
                       (World.with_videoPlayerRef
                          (Some (Video.set_volume v (Video.set_muted true e))) w)).
  { subst w'. cbn [perform fold_left]. unfold act. cbn [handle handlerOf].
    rewrite (toggleMute_mutes (render w) w e He Hm).
    rewrite (handleVolumeChange_result v _ (Video.set_muted true e));
      [|now open_world w|exact Hv].
    rewrite Hz. now open_world w. }
  rewrite Hw'. now open_world w.
Qed.

(** A volume of zero is one the element takes. *)
Lemma zero_volume_accepted (v : JS.number) :
  JS.strict_eq v 0%float = true -> volumeAccepted v = true.
Proof.
  unfold JS.strict_eq, volumeAccepted. rewrite eqb_spec, !leb_spec.
  unfold SFeqb, SFleb. intros H.
  destruct (SFcompare (Prim2SF v) (Prim2SF 0)) as [[]|] eqn:E; try discriminate.
  destruct (SFcompare_Eq_cases _ _ E) as [Ev|(s1 & s2 & Ev & _)];
    rewrite Ev; reflexivity.
Qed.

(** X9: the volume control at zero shows the sound as muted; the mute
    button then unmutes and puts the volume at 0.5, in the component and
    on the element. *)
Theorem unmute_after_zero_volume (w : World.t) (e : Video.Element)
    (v : JS.number) :
  World.videoPlayerRef w = Some e ->
  JS.strict_eq v 0%float = true ->
  let w1 := act w (VolumeChanged v) in
  let w2 := act w1 (Core UserToggleMute) in
  State.isMuted (World.state w1) = true
  /\ State.isMuted (World.state w2) = false
  /\ State.volume (World.state w2) = 0.5%float
  /\ World.videoPlayerRef w2
     = Some (Video.set_volume 0.5%float (Video.set_muted false (Video.set_volume v e))).
Proof.
  intros He Hz w1 w2.
  assert (H1 : w1 = World.with_state
                      (State.with_isMuted true (State.with_volume v (World.state w)))
                      (World.with_videoPlayerRef (Some (Video.set_volume v e)) w)).
  { subst w1. unfold act. cbn [handle].
    rewrite (handleVolumeChange_result v w e He (zero_volume_accepted v Hz)).
    now rewrite Hz. }
  assert (H2 : w2 = exec (toggleMute (render w1)) w1) by reflexivity.
  rewrite H2, (toggleMute_unmutes_silent (render w1) w1 (Video.set_volume v e));
    rewrite H1; try (now open_world w).
Qed.

Lemma volume_after_mute_leaves_element_muted_witness :
  let w' := perform Sample.mounted [Core UserToggleMute; VolumeChanged 0.5%float] in
  State.isMuted (World.state w') = false
  /\ State.volume (World.state w') = 0.5%float
  /\ option_map Video.muted (World.videoPlayerRef w') = Some true.
Proof.
  destruct (volume_after_mute_leaves_element_muted Sample.mounted Sample.video
              0.5%float eq_refl eq_refl eq_refl eq_refl) as (H1 & H2 & H3).
  intros w'. subst w'. rewrite H3. split; [exact H1|split; [exact H2|reflexivity]].
Defined.

Lemma unmute_after_zero_volume_witness :
  let w1 := act Sample.mounted (VolumeChanged 0%float) in
  let w2 := act w1 (Core UserToggleMute) in
  State.isMuted (World.state w1) = true
  /\ State.isMuted (World.state w2) = false
  /\ State.volume (World.state w2) = 0.5%float
  /\ option_map Video.volume (World.videoPlayerRef w2) = Some 0.5%float.
Proof.
  destruct (unmute_after_zero_volume Sample.mounted Sample.video 0%float
              eq_refl eq_refl) as (H1 & H2 & H3 & H4).
  intros w1 w2. subst w1 w2. rewrite H4.
  split; [exact H1|split; [exact H2|split; [exact H3|reflexivity]]].
Defined.

(** ** Teardown and set-up of the engine *)

(** X10: with an engine, the teardown resets it and forgets it; when the
    reset throws, the engine stays in [playerRef] and a warning is logged.
    Either way the teardown returns, the kept timer is cleared and
    forgotten, and the state of the component is untouched. *)
Theorem destroyPlayer_with_engine (w : World.t) (player : Dash.MediaPlayer) :
  World.playerRef w = Some player ->
  let w' := exec destroyPlayer w in
  throws destroyPlayer w = false
  /\ World.playerRef w' = (if Dash.resetThrows player then Some player else None)
  /\ World.console w'
     = (if Dash.resetThrows player
        then World.console w ++ [ConsoleWarn "销毁播放器时发生错误:"]
        else World.console w)
  /\ World.hideControlsTimer w' = None
  /\ World.timers w' = timersWithoutKept w
  /\ World.state w' = World.state w.
Proof.
  intros Hplayer w'. subst w'.
  unfold throws, exec, destroyPlayer, revokePreviousBlobUrl, timersWithoutKept.
  unfold_handlers. rewrite Hplayer.
  open_world w. open_player player. cbn in Hplayer. subst wplayer.
  destruct preset, wtimer as [i|], wblob as [[|c u]|];
    vm_compute; repeat split.
Qed.

(** X11: with a video element, [initPlayer] always ends with a new
    engine in [playerRef], whatever was there before (an engine whose
    reset throws included): automatic switching on for video and audio,
    the view and the render's source attached; its handlers are those of
    the render, and the host is told once.  The state of the component is
    untouched: a manual selection it shows stays shown. *)
Theorem initPlayer_leaves_fresh_engine (r : Render) (w : World.t)
    (e : Video.Element) :
  World.videoPlayerRef w = Some e ->
  let w' := exec (initPlayer r) w in
  throws (initPlayer r) w = false
  /\ World.playerRef w' = Some (freshEngine r)
  /\ World.listeners w' = Some r
  /\ World.calls w' = World.calls w ++ [OnLoaded]
  /\ World.hideControlsTimer w'
     = (if isSome (World.playerRef w) then None else World.hideControlsTimer w)
  /\ World.state w' = World.state w.
Proof.
  intros He w'. subst w'.
  unfold throws, exec, initPlayer, destroyPlayer, revokePreviousBlobUrl, freshEngine.
  unfold_handlers. rewrite He.
  open_world w. cbn in He. subst wvideo.
  destruct wplayer as [[? ? ? ? ? ? ? ? ? []]|], wtimer as [i|],
    wblob as [[|c u]|]; vm_compute; repeat split.
Qed.

(** X12: with a video element and a source address that is not empty,
    [updateSrc] returns with the address attached: to the engine that was
    there, otherwise to the one it creates; only a created engine is
    reported to the host and gets the handlers of the render.  The state
    of the component is untouched. *)
Theorem updateSrc_attaches_source (r : Render) (w : World.t) (e : Video.Element)
    (newSource : Source.t) :
  World.videoPlayerRef w = Some e ->
  JS.truthy_string (Source.src newSource) = true ->
  let w' := exec (updateSrc r newSource) w in
  throws (updateSrc r newSource) w = false
  /\ World.playerRef w'
     = Some (Dash.attachSource (Source.src newSource)
               match World.playerRef w with
               | Some player => player
               | None => freshEngine r
               end)
  /\ World.calls w'
     = (if isSome (World.playerRef w) then World.calls w
        else World.calls w ++ [OnLoaded])
  /\ World.listeners w'
     = (if isSome (World.playerRef w) then World.listeners w else Some r)
  /\ World.state w' = World.state w.
Proof.
  intros He Hsrc w'. subst w'.
  unfold throws, exec, updateSrc, initPlayer, destroyPlayer,
    revokePreviousBlobUrl, freshEngine.
  unfold_handlers. rewrite Hsrc.
  open_world w. cbn in He. subst wvideo.
  destruct wplayer as [pl|], wtimer as [i|], wblob as [[|c u]|];
    vm_compute; repeat split.
Qed.

Lemma destroyPlayer_with_engine_witness :
  let w := World.with_playerRef (Some Scenario.stubborn) Sample.mounted in
  throws destroyPlayer w = false
  /\ World.playerRef (exec destroyPlayer w) = Some Scenario.stubborn
  /\ World.console (exec destroyPlayer w) = [ConsoleWarn "销毁播放器时发生错误:"]
  /\ World.playerRef (exec destroyPlayer (Sample.playing false Sample.video)) = None.
Proof.
  destruct (destroyPlayer_with_engine
              (World.with_playerRef (Some Scenario.stubborn) Sample.mounted)
              Scenario.stubborn eq_refl) as (H1 & H2 & H3 & _).
  destruct (destroyPlayer_with_engine (Sample.playing false Sample.video)
              (Sample.player false) eq_refl) as (_ & H5 & _).
  exact (conj H1 (conj H2 (conj H3 H5))).
Defined.

Lemma initPlayer_leaves_fresh_engine_witness :
  let w := World.with_playerRef (Some Scenario.stubborn) Sample.mounted in
  let w' := exec (initPlayer (render w)) w in
  option_map Dash.resetThrows (World.playerRef w') = Some false
  /\ option_map Dash.view (World.playerRef w') = Some true
  /\ World.listeners w' = Some (render w)
  /\ World.calls w' = [OnLoaded].
Proof.
  intros w w'.
  destruct (initPlayer_leaves_fresh_engine (render w) w Sample.video eq_refl)
    as (_ & H2 & H3 & H4 & _ & _).
  fold w' in H2, H3, H4. rewrite H2.
  split; [reflexivity|split; [reflexivity|split; [exact H3|exact H4]]].
Defined.

Lemma updateSrc_attaches_source_witness :
  let source := {| Source.src := "blob:7"; Source.type := "application/dash+xml" |} in
  option_map Dash.source
    (World.playerRef (exec (updateSrc (render Sample.mounted) source) Sample.mounted))
  = Some (Some "blob:7")
  /\ option_map Dash.source
       (World.playerRef
          (exec (updateSrc (render Scenario.streaming) source) Scenario.streaming))
     = Some (Some "blob:7")
  /\ World.calls (exec (updateSrc (render Sample.mounted) source) Sample.mounted)
     = [OnLoaded]
  /\ World.calls (exec (updateSrc (render Scenario.streaming) source) Scenario.streaming)
     = [].
Proof.
  intros source.
  destruct (updateSrc_attaches_source (render Sample.mounted) Sample.mounted
              Sample.video source eq_refl eq_refl) as (_ & H2 & H3 & _).
  destruct (updateSrc_attaches_source (render Scenario.streaming) Scenario.streaming
              Sample.video source eq_refl eq_refl) as (_ & H5 & H6 & _).
  rewrite H2, H5. split; [reflexivity|split; [reflexivity|split; [exact H3|exact H6]]].
Defined.

(** ** Selecting a quality *)

(** X13: a selection the menu cannot serve changes nothing: without an
    engine, with an empty menu, or for an index other than -1 that no
    entry of the menu has. *)
Theorem quality_change_without_target_changes_nothing (w : World.t)
    (index : JS.number) :
  World.playerRef w = None
  \/ State.availableQualities (World.state w) = []
  \/ (JS.strict_eq index (-1)%float = false
      /\ JS.find (fun q => JS.strict_eq (Quality.index q) index)
                 (State.availableQualities (World.state w)) = None) ->
  act w (Core (UserChangeQuality index)) = w.
Proof.
  intros H. unfold act, exec. cbn [handle handlerOf].
  now rewrite (changeQuality_idle (render w) w index H).
Qed.

(** X14: a switch to an entry of the menu that the engine accepts:
    automatic switching is off, the engine is asked for the entry's
    index, the index and the label of the entry are the selected ones,
    the sub-label is empty, and the message naming the entry is shown,
    with one more timer pending to clear it. *)
Theorem changeQuality_switch_success (r : Render) (w : World.t)
    (index : JS.number) (player : Dash.MediaPlayer) (targetQuality : Quality.t) :
  World.playerRef w = Some player ->
  Dash.switchThrows player = false ->
  JS.strict_eq index (-1)%float = false ->
  JS.find (fun q => JS.strict_eq (Quality.index q) index)
          (State.availableQualities (state r)) = Some targetQuality ->
  let w' := exec (changeQuality r index) w in
  throws (changeQuality r index) w = false
  /\ State.currentQualityIndex (World.state w') = index
  /\ State.currentQuality (World.state w') = Quality.label targetQuality
  /\ State.currentAutoQuality (World.state w') = ""
  /\ State.switchMessage (World.state w')
     = ("正在切换到 " ++ Quality.label targetQuality ++ ", 请稍等...")%string
  /\ option_map Dash.autoSwitchBitrateVideo (World.playerRef w') = Some false
  /\ option_map Dash.requestedVideoIndex (World.playerRef w') = Some (Some index)
  /\ World.timers w' = World.timers w ++ [(World.nextTimer w, ClearSwitchMessage)].
Proof.
  intros Hplayer Hthrows Hindex Hfind w'. split.
  - apply returns_throws, changeQuality_returns.
  - exact (changeQuality_success_result r w index player targetQuality
             Hplayer Hthrows Hindex Hfind).
Qed.

Ltac selected_leaf :=
  let w := fresh "w" in
  let H1 := fresh "Hindex" in
  let H2 := fresh "Hlabel" in
  let H3 := fresh "Hengine" in
  intros w (H1 & H2 & H3); destruct w;
  split; [exact H1|split; [first [exact H2|reflexivity]|exact H3]].

Lemma updateQualityList_automaticSelected (r : Render) :
  preserves automaticSelected (updateQualityList r).
Proof. unfold updateQualityList. keep selected_leaf. Qed.

Lemma resumeIfWasPlaying_automaticSelected (b : bool) :
  preserves automaticSelected (resumeIfWasPlaying b).
Proof. unfold resumeIfWasPlaying. keep selected_leaf. Qed.

Lemma resumeIfWasPlaying_keeps_sublabel (s : string) (b : bool) :
  preserves (fun w => State.currentAutoQuality (World.state w) = s)
            (resumeIfWasPlaying b).
Proof. unfold resumeIfWasPlaying. keep frame_leaf. Qed.

(** The recompute of a render with an explicit selection does nothing. *)
Lemma updateQualityList_manual_render (r : Render) (w : World.t) :
  JS.strict_eq (State.currentQualityIndex (state r)) (-1)%float = false ->
  exec (updateQualityList r) w = w.
Proof.
  intros H. unfold exec, updateQualityList. cbv [bind get ret]. rewrite H.
  now destruct (World.playerRef w).
Qed.

(** X15: selecting -1 with an engine and a menu brings the automatic
    selection back: index -1, the automatic label, automatic switching
    on.  The sub-label is recomputed by the render the selection was made
    in: when that render shows an explicit selection, its recompute does
    nothing and the sub-label stays as it was. *)
Theorem changeQuality_back_to_automatic (r : Render) (w : World.t)
    (player : Dash.MediaPlayer) (index : JS.number) :
  World.playerRef w = Some player ->
  State.availableQualities (state r) <> [] ->
  JS.strict_eq index (-1)%float = true ->
  let w' := exec (changeQuality r index) w in
  State.currentQualityIndex (World.state w') = (-1)%float
  /\ State.currentQuality (World.state w') = autoLabel
  /\ option_map Dash.autoSwitchBitrateVideo (World.playerRef w') = Some true
  /\ (JS.strict_eq (State.currentQualityIndex (state r)) (-1)%float = false ->
      State.currentAutoQuality (World.state w')
      = State.currentAutoQuality (World.state w)).
Proof.
  intros Hplayer Hmenu Hindex w'. subst w'.
  rewrite (changeQuality_automatic_steps r w index player Hplayer Hmenu Hindex).
  rewrite <- !and_assoc. split.
  - rewrite !and_assoc.
    apply (preserves_exec automaticSelected),
          (preserves_exec automaticSelected);
      [apply resumeIfWasPlaying_automaticSelected
      |apply updateQualityList_automaticSelected|].
    now open_world w.
  - intros Hmanual. rewrite (updateQualityList_manual_render r _ Hmanual).
    apply (preserves_exec
             (fun w' => State.currentAutoQuality (World.state w')
                        = State.currentAutoQuality (World.state w)));
      [apply resumeIfWasPlaying_keeps_sublabel|now open_world w].
Qed.

Lemma quality_change_without_target_changes_nothing_witness :
  act (Sample.playing false Sample.video) (Core (UserChangeQuality 7%float))
  = Sample.playing false Sample.video
  /\ act Sample.mounted (Core (UserChangeQuality 2%float)) = Sample.mounted.
Proof.
  split.
  - exact (quality_change_without_target_changes_nothing
             (Sample.playing false Sample.video) 7%float
             (or_intror (or_intror (conj eq_refl eq_refl)))).
  - exact (quality_change_without_target_changes_nothing Sample.mounted 2%float
             (or_introl eq_refl)).
Defined.

Lemma changeQuality_switch_success_witness :
  let w := Sample.playing false Sample.video in
  let w' := exec (changeQuality (render w) 2%float) w in
  throws (changeQuality (render w) 2%float) w = false
  /\ State.currentQualityIndex (World.state w') = 2%float
  /\ State.currentQuality (World.state w') = "1080P 高清"
  /\ option_map Dash.autoSwitchBitrateVideo (World.playerRef w') = Some false
  /\ World.timers w' = [(1%positive, ClearSwitchMessage)].
Proof.
  intros w w'.
  destruct (changeQuality_switch_success (render w) w 2%float (Sample.player false)
              Scenario.highest eq_refl eq_refl eq_refl eq_refl)
    as (H1 & H2 & H3 & _ & _ & H6 & _ & H8).
  exact (conj H1 (conj H2 (conj H3 (conj H6 H8)))).
Defined.

Lemma changeQuality_back_to_automatic_witness :
  let w := Scenario.manual in
  let w' := exec (changeQuality (render w) (-1)%float) w in
  State.currentQualityIndex (World.state w') = (-1)%float
  /\ State.currentQuality (World.state w') = autoLabel
  /\ option_map Dash.autoSwitchBitrateVideo (World.playerRef w') = Some true
  /\ State.currentAutoQuality (World.state w') = "".
Proof.
  intros w w'.
  destruct (changeQuality_back_to_automatic (render w) w
              (Dash.updateSettings false None (Sample.player false)) (-1)%float
              eq_refl ltac:(discriminate) eq_refl)
    as (H1 & H2 & H3 & H4).
  exact (conj H1 (conj H2 (conj H3 (H4 eq_refl)))).
Defined.

(** ** Timestamps that are not numbers *)

Section NotANumber.
Local Open Scope string_scope.

Lemma is_NaN (x : float) : Prim2SF x = S754_nan -> x = JS.NaN.
Proof.
  intros H. rewrite <- (SF2Prim_Prim2SF x), H. reflexivity.
Qed.

Lemma add_NaN_r (x : float) : (x + JS.NaN)%float = JS.NaN.
Proof.
  apply is_NaN. rewrite add_spec. change (Prim2SF JS.NaN) with S754_nan.
  unfold SF64add, SFadd. now destruct (Prim2SF x).
Qed.

Lemma add_NaN_l (x : float) : (JS.NaN + x)%float = JS.NaN.
Proof.
  apply is_NaN. rewrite add_spec. change (Prim2SF JS.NaN) with S754_nan.
  reflexivity.
Qed.

Lemma leb_NaN_l (x : float) : PrimFloat.leb JS.NaN x = false.
Proof. rewrite leb_spec. reflexivity. Qed.

Lemma leb_NaN_r (x : float) : PrimFloat.leb x JS.NaN = false.
Proof.
  rewrite leb_spec. change (Prim2SF JS.NaN) with S754_nan.
  unfold SFleb, SFcompare. now destruct (Prim2SF x) as [[]|[]| |[]].
Qed.

(** X16: a timestamp with two fields only, as in [MM:SS] or [MM:SS,mmm],
    has no seconds: the result is [NaN]. *)
Theorem parseTimeToSeconds_two_fields (m s ms : string) :
  field m -> field s -> JS.includes "," ms = false ->
  parseTimeToSeconds (m ++ ":" ++ s) = JS.NaN
  /\ parseTimeToSeconds (m ++ ":" ++ s ++ "," ++ ms) = JS.NaN.
Proof.
  intros [Hm Hm'] [Hs Hs'] Hms.
  assert (Hsplit : JS.split ":" (m ++ ":" ++ s) = [m; s]).
  { change (m ++ ":" ++ s) with (m ++ String ":" s).
    now rewrite split_at_separator, split_without_separator. }
  assert (Hcomma : JS.includes "," (m ++ ":" ++ s) = false).
  { now rewrite !includes_app, Hm', Hs'. }
  split; unfold parseTimeToSeconds.
  - rewrite (split_without_separator "," _ Hcomma). cbn [nth nth_error].
    rewrite Hsplit. cbn [map nth_error JS.ToNumber].
    now rewrite add_NaN_r, add_NaN_l.
  - replace (m ++ ":" ++ s ++ "," ++ ms) with ((m ++ ":" ++ s) ++ String "," ms)
      by (now rewrite !string_app_assoc).
    rewrite (split_at_separator _ _ _ Hcomma), (split_without_separator _ ms Hms).
    cbn [nth nth_error]. rewrite Hsplit. cbn [map nth_error JS.ToNumber].
    now rewrite add_NaN_r, add_NaN_l.
Qed.

End NotANumber.

Lemma currentSubtitleAt_find (t : JS.number) (subs : list ProcessedSubtitle.t) :
  currentSubtitleAt t subs
  = match JS.find (fun sub =>
                     PrimFloat.leb (ProcessedSubtitle.startTime sub) t
                     && PrimFloat.leb t (ProcessedSubtitle.endTime sub)) subs with
    | Some sub => ProcessedSubtitle.text sub
    | None => ""
    end.
Proof.
  unfold currentSubtitleAt. destruct subs as [|sub subs]; [reflexivity|].
  cbn [List.length Nat.eqb]. destruct (JS.find _ _); [|reflexivity].
  apply truthy_string_self.
Qed.

Lemma find_skips {A} (p : A -> bool) (pre post : list A) (x : A) :
  p x = false -> JS.find p (pre ++ x :: post) = JS.find p (pre ++ post).
Proof.
  intros Hx. induction pre as [|y pre IH]; cbn; [now rewrite Hx|].
  now rewrite IH.
Qed.

(** X17: a subtitle line whose start or end is not a number is never
    shown, at no time, and hides no other line: the subtitle shown is the
    one shown without the line. *)
Theorem subtitle_without_time_is_never_shown (t : JS.number)
    (before after : list Subtitle.t) (sub : Subtitle.t) :
  parseTimeToSeconds (Subtitle.start sub) = JS.NaN
  \/ parseTimeToSeconds (Subtitle.end_ sub) = JS.NaN ->
  currentSubtitleAt t (processedSubtitles (before ++ sub :: after))
  = currentSubtitleAt t (processedSubtitles (before ++ after)).
Proof.
  intros H. rewrite !currentSubtitleAt_find. unfold processedSubtitles.
  rewrite !map_app. cbn [map]. rewrite find_skips; [reflexivity|].
  cbn [ProcessedSubtitle.startTime ProcessedSubtitle.endTime].
  destruct H as [-> | ->].
  - now rewrite leb_NaN_l.
  - now rewrite leb_NaN_r, andb_false_r.
Qed.

Lemma parseTimeToSeconds_two_fields_witness :
  parseTimeToSeconds "01:05" = JS.NaN /\ parseTimeToSeconds "01:05,500" = JS.NaN.
Proof.
  exact (parseTimeToSeconds_two_fields "01" "05" "500"
           (conj eq_refl eq_refl) (conj eq_refl eq_refl) eq_refl).
Defined.

Lemma subtitle_without_time_is_never_shown_witness :
  currentSubtitleAt 65%float
    (processedSubtitles
       [Scenario.line "01:00" "01:10" "a";
        Scenario.line "00:01:00,000" "00:01:10,000" "b"])
  = "b".
Proof.
  pose proof (subtitle_without_time_is_never_shown 65%float []
                [Scenario.line "00:01:00,000" "00:01:10,000" "b"]
                (Scenario.line "01:00" "01:10" "a") (or_introl eq_refl)) as H.
  cbn [app] in H. rewrite H. vm_compute. reflexivity.
Defined.

(** ** Every entry of the menu has something behind it *)

Lemma findIndex_from_some {A} (p : A -> bool) (l : list A) (i n : nat) :
  JS.findIndex_from p l i = Some n ->
  exists k x, n = i + k /\ nth_error l k = Some x /\ p x = true.
Proof.
  revert i. induction l as [|y l IH]; cbn; intros i; [discriminate|].
  destruct (p y) eqn:Hy.
  - intros [= <-]. exists 0, y. repeat split; [lia|exact Hy].
  - intros H. destruct (IH _ H) as (k & x & -> & Hk & Hx).
    exists (S k), x. repeat split; [lia|exact Hk|exact Hx].
Qed.

Lemma pushQuality_justified (isLoggedIn : bool) (reps : list Dash.Representation)
    (item : FormatItem.t) (q : Quality.t) :
  In q (pushQuality isLoggedIn reps [] item) ->
  Quality.id q = FormatItem.id item
  /\ Quality.label q = FormatItem.new_description item
  /\ entryJustified isLoggedIn reps q.
Proof.
  unfold pushQuality, entryJustified.
  destruct (JS.truthy_number (FormatItem.id item)
            && JS.truthy_opt_string (FormatItem.codecs item)).
  - destruct (JS.findIndex _ reps) as [n|] eqn:Hn; [|intros []].
    intros [<-|[]]. cbn. repeat split.
    destruct (findIndex_from_some _ _ _ _ Hn) as (k & rep & -> & Hk & Hrep).
    now exists k, rep.
  - destruct isLoggedIn; cbn [negb andb]; [intros []|].
    destruct (PrimFloat.ltb (FormatItem.id item) 112) eqn:Hlt; [|intros []].
    intros [<-|[]]. cbn. repeat split. exact Hlt.
Qed.

Lemma newQualities_cons (isLoggedIn : bool) (item : FormatItem.t)
    (items : list FormatItem.t) (reps : list Dash.Representation) :
  newQualities isLoggedIn (item :: items) reps
  = pushQuality isLoggedIn reps [] item ++ newQualities isLoggedIn items reps.
Proof. apply (newQualities_split isLoggedIn [] items item reps). Qed.

Lemma newQualities_justified (isLoggedIn : bool)
    (formatList : list FormatItem.t) (videoReps : list Dash.Representation)
    (q : Quality.t) :
  In q (newQualities isLoggedIn formatList videoReps) ->
  (exists item, In item formatList
                /\ Quality.id q = FormatItem.id item
                /\ Quality.label q = FormatItem.new_description item)
  /\ entryJustified isLoggedIn videoReps q.
Proof.
  induction formatList as [|item items IH]; [intros []|].
  rewrite newQualities_cons, in_app_iff. intros [H|H].
  - destruct (pushQuality_justified _ _ _ _ H) as (Hid & Hlabel & Hq).
    split; [|exact Hq]. exists item. repeat split; [now left|exact Hid|exact Hlabel].
  - destruct (IH H) as [(item' & Hin & Hid & Hlabel) Hq].
    split; [|exact Hq]. exists item'. repeat split; [now right|exact Hid|exact Hlabel].
Qed.

(** X18: every entry of the menu that the stream-initialized handler of
    render [r] stores comes from an item of the format list in
    [formatListRef], with its id and label.  An entry that needs no login
    points at a representation the engine reported: its index is the
    position of a representation with the entry's id.  An entry that
    needs a login is there only when [isLoggedIn] is false in [r], the
    render that created the handler, which need not be the login state
    the component shows when the handler runs; it has an id below 112 as
    index. *)
Theorem menu_entries_are_justified (r : Render) (w : World.t) (q : Quality.t) :
  In q (State.availableQualities (World.state (exec (onStreamInitialized r) w))) ->
  (exists item, In item (World.formatListRef w)
                /\ Quality.id q = FormatItem.id item
                /\ Quality.label q = FormatItem.new_description item)
  /\ entryJustified (State.isLoggedIn (state r))
       match World.playerRef w with
       | Some player => Dash.videoRepresentations player
       | None => []
       end q.
Proof.
  rewrite onStreamInitialized_menu. apply newQualities_justified.
Qed.

Lemma menu_entries_are_justified_witness :
  let w := Scenario.streaming in
  (exists item, In item (World.formatListRef w)
                /\ Quality.id Scenario.highest = FormatItem.id item
                /\ Quality.label Scenario.highest = FormatItem.new_description item)
  /\ entryJustified false Sample.representations Scenario.highest.
Proof.
  exact (menu_entries_are_justified (render Scenario.streaming) Scenario.streaming
           Scenario.highest (or_introl eq_refl)).
Defined.

(** ** Without a video element *)

Lemma initPlayer_detached (r : Render) : preserves detachedWorld (initPlayer r).
Proof.
  unfold initPlayer. apply preserves_get_with. intros w [Hv Hp].
  rewrite Hv. unfold exec, callHost, modify. now open_world w.
Qed.

Lemma onPlayer_detached (f : Dash.MediaPlayer -> Dash.MediaPlayer) :
  preserves detachedWorld (onPlayer f).
Proof.
  intros w [Hv Hp]. unfold onPlayer. cbv [bind get]. rewrite Hp. now split.
Qed.

Lemma onPlayerThrowing_detached (f : Dash.MediaPlayer -> option Dash.MediaPlayer) :
  preserves detachedWorld (onPlayerThrowing f).
Proof.
  intros w [Hv Hp]. unfold onPlayerThrowing. cbv [bind get]. rewrite Hp. now split.
Qed.

Lemma onVideo_detached (f : Video.Element -> Video.Element) :
  preserves detachedWorld (onVideo f).
Proof.
  intros w [Hv Hp]. unfold onVideo. cbv [bind get]. rewrite Hv. now split.
Qed.

Lemma playAndWarn_detached : preserves detachedWorld playAndWarn.
Proof.
  intros w [Hv Hp]. unfold playAndWarn. cbv [bind get]. rewrite Hv. now split.
Qed.

Lemma handle_detached (w : World.t) (a : Action) :
  preserves detachedWorld (handle w a).
Proof.
  pose proof initPlayer_detached. pose proof onPlayer_detached.
  pose proof onPlayerThrowing_detached. pose proof onVideo_detached.
  pose proof playAndWarn_detached.
  destruct a as [[resp|s| | |i| |i|]| | |v|n o| |e|u];
    cbn [handle handlerOf]; try apply engineHandler_preserves; intros;
    unfold manifestResponse, formatListEffect, optionsEffect, updateSrc,
      destroyPlayer, revokePreviousBlobUrl, handleLoginSuccess, urlEffect, refetchManifest,
      onStreamInitialized, changeQuality, resumeIfWasPlaying,
      toggleMute, fireTimer, handleMouseMove, hideControlsFn,
      handleVolumeChange, assignVolume,
      onQualityChangeRendered, onPlaybackEnded, onEngineError,
      updateQualityList;
    keep ltac:(first [frame_leaf
                     |let w := fresh "w" in
                      let Hv := fresh "Hv" in
                      let Hp := fresh "Hp" in
                      intros w [Hv Hp]; destruct w; split; [exact Hv|reflexivity]]).
Qed.

(** X19: a component without video element never gets an engine,
    whatever happens. *)
Theorem no_engine_without_video_element (p : Props.t) (actions : list Action) :
  World.playerRef (perform (World.initial p None) actions) = None
  /\ World.videoPlayerRef (perform (World.initial p None) actions) = None.
Proof.
  assert (H : detachedWorld (perform (World.initial p None) actions)).
  { apply perform_preserves; [exact handle_detached|now split]. }
  destruct H as [Hv Hp]. now split.
Qed.

(** ** From the manifest to the engine *)

(** X20: with a video element, a manifest that arrives ends up in the
    engine: the format list is stored, in the state and in the ref the
    handlers read; the manifest gets a new object URL, which becomes the
    source of the options and is attached to the engine, to the one that
    was there or to a new one. *)
Theorem manifest_reaches_engine (w : World.t) (e : Video.Element)
    (data : ManifestData) :
  World.videoPlayerRef w = Some e ->
  let w' := act w (Core (FetchSettled (Some data))) in
  let blobUrl := blobUrlOfNat (World.nextObjectURL w) in
  State.options (World.state w')
  = {| Source.src := blobUrl; Source.type := "application/dash+xml" |}
  /\ State.formatListTwo (World.state w') = formatList data
  /\ World.formatListRef w' = formatList data
  /\ option_map Dash.source (World.playerRef w') = Some (Some blobUrl)
  /\ option_map Dash.autoSwitchBitrateVideo (World.playerRef w')
     = match World.playerRef w with
       | Some player => Some (Dash.autoSwitchBitrateVideo player)
       | None => Some true
       end.
Proof.
  intros He w' blobUrl. subst w' blobUrl.
  unfold act, exec. cbn [handle handlerOf].
  unfold manifestResponse, formatListEffect, optionsEffect, updateSrc, initPlayer,
    destroyPlayer, revokePreviousBlobUrl, render, blobUrlOfNat.
  unfold_handlers.
  open_world w. cbn in He. subst wvideo. destruct data as [mpd formats].
  destruct wplayer as [pl|], wtimer as [i|], wblob as [[|c u]|];
    vm_compute; repeat split.
Qed.

Lemma manifest_reaches_engine_witness :
  let w' := act Sample.mounted (Core (FetchSettled (Some Scenario.manifest))) in
  Source.src (State.options (World.state w')) = "blob:0"
  /\ World.formatListRef w' = Scenario.formats
  /\ option_map Dash.source (World.playerRef w') = Some (Some "blob:0").
Proof.
  intros w'.
  destruct (manifest_reaches_engine Sample.mounted Sample.video Scenario.manifest
              eq_refl) as (H1 & _ & H3 & H4 & _).
  fold w' in H1, H3, H4. rewrite H1.
  split; [reflexivity|split; [exact H3|exact H4]].
Defined.

(** ** The timer of the last mouse move *)

Lemma find_fresh_timer (l : list (positive * Timer)) (n : positive) (t : Timer) :
  Forall (fun p => (fst p < n)%positive) l ->
  JS.find (fun p => Pos.eqb (fst p) n) (l ++ [(n, t)]) = Some (n, t).
Proof.
  intros H. apply find_first; [|apply Pos.eqb_refl].
  rewrite Forall_forall in H. intros y Hy. specialize (H y Hy).
  apply Pos.eqb_neq. lia.
Qed.

Lemma filter_fresh_timer (l : list (positive * Timer)) (n : positive) (t : Timer) :
  Forall (fun p => (fst p < n)%positive) l ->
  filter (fun p => negb (Pos.eqb (fst p) n)) (l ++ [(n, t)]) = l.
Proof.
  intros H. rewrite filter_app. cbn. rewrite Pos.eqb_refl. cbn.
  rewrite app_nil_r. induction H as [|p l Hp Hl IH]; cbn; [reflexivity|].
  rewrite IH. replace (Pos.eqb (fst p) n) with false; [reflexivity|].
  symmetry. apply Pos.eqb_neq. lia.
Qed.

Lemma fireTimer_hide (i : positive) (playing : bool) (w : World.t) :
  JS.find (fun p => Pos.eqb (fst p) i) (World.timers w)
  = Some (i, HideControlsIfPlaying playing) ->
  exec (fireTimer i) w
  = World.with_state
      (if playing then State.with_showControls false (World.state w)
       else World.state w)
      (World.with_timers
         (filter (fun p => negb (Pos.eqb (fst p) i)) (World.timers w))
         (World.nextTimer w) w).
Proof.
  intros H. unfold exec, fireTimer. unfold_handlers. rewrite H.
  open_world w. now destruct playing.
Qed.

Lemma find_app_some {A} (p : A -> bool) (l l' : list A) (x : A) :
  JS.find p l = Some x -> JS.find p (l ++ l') = Some x.
Proof.
  induction l as [|y l IH]; cbn; [discriminate|]. now destruct (p y).
Qed.

Lemma find_filter_other (i n : positive) (l : list (positive * Timer)) :
  i <> n ->
  JS.find (fun p => Pos.eqb (fst p) n) (filter (fun p => negb (Pos.eqb (fst p) i)) l)
  = JS.find (fun p => Pos.eqb (fst p) n) l.
Proof.
  intros Hi. induction l as [|y l IH]; cbn; [reflexivity|].
  destruct (Pos.eqb (fst y) i) eqn:E; cbn.
  - apply Pos.eqb_eq in E. rewrite IH.
    replace (Pos.eqb (fst y) n) with false; [reflexivity|].
    symmetry. apply Pos.eqb_neq. congruence.
  - now rewrite IH.
Qed.

Section TimerLeftAlone.

Variables (n : positive) (t : Timer).

Lemma setTimeout_timerPending (t' : Timer) :
  preserves (timerPending n t) (setTimeout t').
Proof.
  intros w H. open_world w. unfold timerPending in *. cbn in H |- *.
  now apply find_app_some.
Qed.

Lemma clearTimeout_timerPending (i : positive) :
  i <> n -> preserves (timerPending n t) (clearTimeout i).
Proof.
  intros Hi w H. open_world w. unfold timerPending in *. cbn in H |- *.
  now rewrite find_filter_other.
Qed.

Lemma fireTimer_timerPending (i : positive) :
  i <> n -> preserves (timerPending n t) (fireTimer i).
Proof.
  intros Hi. pose proof (clearTimeout_timerPending i Hi).
  unfold fireTimer. keep frame_leaf.
Qed.

Lemma initPlayer_timerPending (r : Render) (w : World.t) :
  World.playerRef w = None ->
  timerPending n t w -> timerPending n t (exec (initPlayer r) w).
Proof.
  intros Hp Hw. unfold initPlayer. rewrite exec_get_bind. cbv beta.
  rewrite Hp. apply preserves_exec; [keep frame_leaf|exact Hw].
Qed.

Lemma initPlayer_fst (r : Render) (w : World.t) :
  fst (initPlayer r w) = Returned tt.
Proof.
  destruct (initPlayer_returns (fun _ => True) r w I) as [[] E]. exact E.
Qed.

Lemma updateSrc_timerPending (r : Render) (s : Source.t) :
  preserves (timerPending n t) (updateSrc r s).
Proof.
  unfold updateSrc. apply preserves_get_with. intros w Hw.
  destruct (World.playerRef w) eqn:E.
  - match goal with
    | |- timerPending _ _ (exec (bind _ ?k) _) =>
        change (timerPending n t (exec (k tt) w))
    end.
    cbv beta. apply preserves_exec; [|exact Hw].
    unfold revokePreviousBlobUrl. keep frame_leaf.
  - rewrite (exec_bind _ _ _ tt (initPlayer_fst r w)).
    apply preserves_exec; [|now apply initPlayer_timerPending].
    unfold revokePreviousBlobUrl. keep frame_leaf.
Qed.

Lemma handle_timerPending (w : World.t) (a : Action) :
  leavesTimer n a = true -> preserves (timerPending n t) (handle w a).
Proof.
  pose proof setTimeout_timerPending. pose proof updateSrc_timerPending.
  destruct a as [[resp|s| | |i| |i|]| | |v|v' o| |e|u]; intros Ha;
    try discriminate Ha; cbn [handle handlerOf];
    try apply engineHandler_preserves; intros.
  7: { apply fireTimer_timerPending. cbn in Ha. intros ->.
       now rewrite Pos.eqb_refl in Ha. }
  all: unfold manifestResponse, formatListEffect, optionsEffect,
      handleLoginSuccess, urlEffect, refetchManifest,
      onStreamInitialized, changeQuality, resumeIfWasPlaying,
      toggleMute, hideControlsFn, handleVolumeChange, assignVolume,
      onQualityChangeRendered, onPlaybackEnded, onEngineError,
      updateQualityList;
    keep frame_leaf.
Qed.

Lemma perform_timerPending (actions : list Action) (w : World.t) :
  forallb (leavesTimer n) actions = true ->
  timerPending n t w -> timerPending n t (perform w actions).
Proof.
  revert w. induction actions as [|a actions IH]; intros w Hall Hw; [exact Hw|].
  cbn in Hall. apply andb_true_iff in Hall as [Ha Hall].
  cbn [perform fold_left]. apply (IH _ Hall).
  now apply (handle_timerPending w a Ha).
Qed.

End TimerLeftAlone.

Lemma mouse_move_timerPending (w : World.t) :
  timersTracked w ->
  timerPending (World.nextTimer w)
    (HideControlsIfPlaying (State.isPlaying (World.state w))) (act w MouseMoved).
Proof.
  intros Hw. pose proof (timersWithoutKept_lt w Hw) as Hlt.
  unfold act, timerPending. cbn [handle]. rewrite handleMouseMove_result.
  clear Hw. open_world w. cbn in Hlt |- *. now apply find_fresh_timer.
Qed.

(** X21: the timer a mouse move starts decides with the playing state of
    the render of the move: whatever happens before it fires, as long as
    no other mouse move and no teardown cancels it, when it fires the
    controls are hidden if the video was playing at the move, and left as
    they are otherwise; the playing state at the time it fires plays no
    part. *)
Theorem hide_timer_acts_on_the_render_of_the_move (w : World.t)
    (between : list Action) :
  timersTracked w ->
  forallb (leavesTimer (World.nextTimer w)) between = true ->
  let w1 := perform (act w MouseMoved) between in
  let w2 := act w1 (Core (TimerFired (World.nextTimer w))) in
  State.showControls (World.state w2)
  = (if State.isPlaying (World.state w) then false
     else State.showControls (World.state w1)).
Proof.
  intros Hw Hbetween w1 w2.
  assert (Hpending : timerPending (World.nextTimer w)
                       (HideControlsIfPlaying (State.isPlaying (World.state w))) w1).
  { apply perform_timerPending; [exact Hbetween|].
    now apply mouse_move_timerPending. }
  assert (Hw2 : w2 = exec (fireTimer (World.nextTimer w)) w1) by reflexivity.
  rewrite Hw2, (fireTimer_hide _ _ w1 Hpending).
  destruct (State.isPlaying (World.state w)); now open_world w1.
Qed.

Lemma hide_timer_acts_on_the_render_of_the_move_witness :
  let w := Scenario.streaming in
  let w1 := perform (act w MouseMoved) [EnginePlaybackEnded] in
  let w2 := act w1 (Core (TimerFired (World.nextTimer w))) in
  State.isPlaying (World.state w) = true
  /\ State.showControls (World.state w2) = false.
Proof.
  split; [reflexivity|].
  exact (hide_timer_acts_on_the_render_of_the_move Scenario.streaming
           [EnginePlaybackEnded] streaming_tracked eq_refl).
Defined.

(** ** Requests for the manifest *)





(** ** The timer that clears the switch message *)

Lemma destroyPlayer_timers (w : World.t) :
  World.timers (exec destroyPlayer w) = timersWithoutKept w.
Proof.
  unfold exec, destroyPlayer, revokePreviousBlobUrl, timersWithoutKept.
  unfold_handlers. open_world w.
  destruct wplayer as [[? ? ? ? ? ? ? ? ? []]|], wtimer as [i|],
    wblob as [[|c u]|]; reflexivity.
Qed.

(** The kept timer is not one that clears the message. *)
Lemma timersWithoutKept_pending (n : positive) (w : World.t) :
  timersTracked w -> timerPending n ClearSwitchMessage w ->
  JS.find (fun p => Pos.eqb (fst p) n) (timersWithoutKept w)
  = Some (n, ClearSwitchMessage).
Proof.
  intros (_ & _ & Hhide & _) Hn. unfold timerPending in Hn.
  unfold timersWithoutKept.
  destruct (World.hideControlsTimer w) as [i|] eqn:Hi; [|exact Hn].
  rewrite find_filter_other; [exact Hn|]. intros ->.
  destruct (find_some _ _ _ Hn) as (pre & post & Hl & _ & _).
  rewrite Forall_forall in Hhide.
  assert (Hin : In (n, ClearSwitchMessage) (World.timers w))
    by (rewrite Hl; apply in_elt).
  destruct (Hhide _ Hin) as [_ H]. specialize (H eq_refl). discriminate H.
Qed.

Lemma handle_messagePending (n : positive) (w : World.t) (a : Action) :
  firesTimer n a = false ->
  preserves (fun w' => timersTracked w' /\ timerPending n ClearSwitchMessage w')
            (handle w a).
Proof.
  intros Ha w' [Ht Hn]. split; [now apply handle_tracked|].
  destruct (leavesTimer n a) eqn:Hleaves;
    [now apply (handle_timerPending n ClearSwitchMessage w a Hleaves)|].
  pose proof (timersWithoutKept_pending n w' Ht Hn) as Hkept.
  destruct a as [[resp|s| | |i| |i|]| | |v|v' o| |e|u]; try discriminate Hleaves.
  - cbn in Ha, Hleaves. rewrite Ha in Hleaves. discriminate Hleaves.
  - change (timerPending n ClearSwitchMessage (exec destroyPlayer w')).
    unfold timerPending. now rewrite destroyPlayer_timers.
  - change (timerPending n ClearSwitchMessage (exec (handleMouseMove (render w)) w')).
    unfold timerPending. rewrite handleMouseMove_result.
    clear Ht Hn. open_world w'. cbn in Hkept |- *. now apply find_app_some.
Qed.

Lemma perform_messagePending (n : positive) (actions : list Action) (w : World.t) :
  existsb (firesTimer n) actions = false ->
  timersTracked w -> timerPending n ClearSwitchMessage w ->
  timerPending n ClearSwitchMessage (perform w actions).
Proof.
  revert w. induction actions as [|a actions IH]; intros w Hno Ht Hn; [exact Hn|].
  cbn in Hno. apply orb_false_iff in Hno as [Ha Hno].
  cbn [perform fold_left].
  destruct (handle_messagePending n w a Ha w (conj Ht Hn)) as [Ht' Hn'].
  now apply (IH _ Hno).
Qed.

Lemma fireTimer_clear (i : positive) (w : World.t) :
  timerPending i ClearSwitchMessage w ->
  State.switchMessage (World.state (exec (fireTimer i) w)) = "".
Proof.
  unfold timerPending. intros H. unfold exec, fireTimer. unfold_handlers.
  rewrite H. now open_world w.
Qed.

(** X23: the timer of a switch clears whatever message is shown when it
    fires.  After a switch that the engine accepts, and whatever happens
    then, later switches with their own messages included, when the
    timer of that first switch fires the message shown is cleared. *)
Theorem switch_timer_clears_any_message (w : World.t) (player : Dash.MediaPlayer)
    (index : JS.number) (targetQuality : Quality.t) (between : list Action) :
  timersTracked w ->
  World.playerRef w = Some player ->
  Dash.switchThrows player = false ->
  JS.strict_eq index (-1)%float = false ->
  JS.find (fun q => JS.strict_eq (Quality.index q) index)
          (State.availableQualities (World.state w)) = Some targetQuality ->
  existsb (firesTimer (World.nextTimer w)) between = false ->
  let w1 := perform (act w (Core (UserChangeQuality index))) between in
  State.switchMessage
    (World.state (act w1 (Core (TimerFired (World.nextTimer w))))) = "".
Proof.
  intros Ht Hplayer Hthrows Hindex Hfind Hbetween w1.
  apply fireTimer_clear, perform_messagePending; [exact Hbetween| |].
  - now apply (handle_tracked w (Core (UserChangeQuality index))).
  - destruct (changeQuality_success_result (render w) w index player targetQuality
                Hplayer Hthrows Hindex Hfind) as (_ & _ & _ & _ & _ & _ & Htimers).
    unfold timerPending, act. cbn [handle handlerOf]. rewrite Htimers.
    apply find_fresh_timer. now destruct Ht.
Qed.

Lemma switch_timer_clears_any_message_witness :
  let w := Scenario.streaming in
  let w1 := perform (act w (Core (UserChangeQuality 2%float)))
              [Core (UserChangeQuality 1%float); MouseMoved] in
  State.switchMessage (World.state (act w1 (Core (TimerFired 1%positive)))) = "".
Proof.
  exact (switch_timer_clears_any_message Scenario.streaming (Sample.player false)
           2%float Scenario.highest
           [Core (UserChangeQuality 1%float); MouseMoved]
           streaming_tracked eq_refl eq_refl eq_refl eq_refl eq_refl).
Defined.

(** ** The height of the container *)

Section ContainerHeight.
Local Open Scope string_scope.

Lemma prefix_refl (s : string) : String.prefix s s = true.
Proof.
  induction s as [|c s IH]; cbn; [reflexivity|].
  destruct (ascii_dec c c); [exact IH|contradiction].
Qed.

Lemma includesString_suffix (pattern s : string) :
  includesString pattern (s ++ pattern) = true.
Proof.
  induction s as [|c s IH]; cbn.
  - destruct pattern; cbn; [reflexivity|].
    now rewrite prefix_refl; destruct (ascii_dec a a).
  - rewrite IH. apply orb_true_r.
Qed.

(** X24: the height given to the container always has a unit: it
    contains [%] or [px]; a height that has one is kept as it is, so
    computing the height of a computed height changes nothing. *)
Theorem containerHeight_has_unit (height : string) :
  (JS.includes "%" (containerHeight height)
   || includesString "px" (containerHeight height) = true)
  /\ containerHeight (containerHeight height) = containerHeight height
  /\ (JS.includes "%" height || includesString "px" height = true ->
      containerHeight height = height).
Proof.
  assert (Hunit : JS.includes "%" (containerHeight height)
                  || includesString "px" (containerHeight height) = true).
  { unfold containerHeight.
    destruct (JS.includes "%" height || includesString "px" height) eqn:E;
      [exact E|]. rewrite includesString_suffix. apply orb_true_r. }
  split; [exact Hunit|split].
  - unfold containerHeight at 1. now rewrite Hunit.
  - intros H. unfold containerHeight. now rewrite H.
Qed.

End ContainerHeight.

(** ** The message of a rendered quality change *)

Lemma updateQualityList_keeps_message (msg : string)
    (timers : list (positive * Timer)) (next : positive) (r : Render) :
  preserves (fun w => State.switchMessage (World.state w) = msg
                      /\ World.timers w = timers /\ World.nextTimer w = next)
            (updateQualityList r).
Proof. unfold updateQualityList. keep frame_leaf. Qed.

Lemma updateQualityList_keeps_formats (l : list FormatItem.t) (r : Render) :
  preserves (fun w => World.formatListRef w = l) (updateQualityList r).
Proof. unfold updateQualityList. keep frame_leaf. Qed.

(** X25: the handler of quality-change-rendered shows a message only for
    a change between two representations with different indexes, the new
    one with the id of an item of the format list: then the message
    names that item and one more timer is pending to clear it; otherwise
    message and timers stay as they are. *)
Theorem rendered_quality_message (r : Render) (w : World.t)
    (newRepresentation oldRepresentation : option Dash.Representation) :
  let w' := exec (onQualityChangeRendered r newRepresentation oldRepresentation) w in
  let known rep :=
    JS.find (fun q => JS.strict_eq (FormatItem.id q) (JS.Number (Dash.id rep)))
            (World.formatListRef w) in
  (forall new old quality,
      newRepresentation = Some new -> oldRepresentation = Some old ->
      JS.strict_eq (Dash.index new) (Dash.index old) = false ->
      known new = Some quality ->
      State.switchMessage (World.state w')
      = ("已经切换到 " ++ FormatItem.new_description quality)%string
      /\ World.timers w' = World.timers w ++ [(World.nextTimer w, ClearSwitchMessage)])
  /\ (newRepresentation = None \/ oldRepresentation = None
      \/ (exists new old,
             newRepresentation = Some new /\ oldRepresentation = Some old
             /\ (JS.strict_eq (Dash.index new) (Dash.index old) = true
                 \/ known new = None)) ->
      State.switchMessage (World.state w') = State.switchMessage (World.state w)
      /\ World.timers w' = World.timers w).
Proof.
  intros w' known. subst w' known. cbv beta.
  pose proof (updateQualityList_keeps_message
                (State.switchMessage (World.state w)) (World.timers w)
                (World.nextTimer w) r w
                (conj eq_refl (conj eq_refl eq_refl)))
    as (Hmsg & Htimers & Hnext).
  pose proof (updateQualityList_keeps_formats (World.formatListRef w) r w eq_refl)
    as Hformats.
  assert (Hfirst : forall k : unit -> M unit,
             exec (bind (if JS.strict_eq (State.currentQualityIndex (state r))
                              (-1)%float
                         then updateQualityList r else ret tt) k) w
             = exec (k tt)
                 (if JS.strict_eq (State.currentQualityIndex (state r)) (-1)%float
                  then exec (updateQualityList r) w else w)).
  { intros k. destruct (JS.strict_eq _ _); [|reflexivity].
    apply exec_bind, updateQualityList_fst. }
  unfold onQualityChangeRendered. rewrite Hfirst.
  set (w1 := if JS.strict_eq (State.currentQualityIndex (state r)) (-1)%float
             then exec (updateQualityList r) w else w).
  assert (H1 : State.switchMessage (World.state w1) = State.switchMessage (World.state w)
               /\ World.timers w1 = World.timers w
               /\ World.nextTimer w1 = World.nextTimer w
               /\ World.formatListRef w1 = World.formatListRef w).
  { subst w1. destruct (JS.strict_eq _ _); [|now repeat split].
    unfold exec. now repeat split. }
  destruct H1 as (H1 & H2 & H3 & H4). clearbody w1.
  split.
  - intros new old quality -> -> Hindex Hknown. rewrite Hindex. cbn [negb].
    rewrite exec_get_bind. cbv beta. rewrite H4, Hknown.
    rewrite <- H2, <- H3. unfold_handlers. now open_world w1.
  - intros [->|[->|(new & old & -> & -> & [Hindex|Hknown])]].
    + now split.
    + now destruct newRepresentation.
    + now rewrite Hindex.
    + destruct (JS.strict_eq (Dash.index new) (Dash.index old)); cbn [negb];
        [now split|].
      rewrite exec_get_bind. cbv beta. rewrite H4, Hknown. now split.
Qed.

Lemma rendered_quality_message_witness :
  let w := Scenario.streaming in
  let new := {| Dash.id := "80"; Dash.index := 2%float |} in
  let old := {| Dash.id := "64"; Dash.index := 1%float |} in
  let w' := exec (onQualityChangeRendered (render w) (Some new) (Some old)) w in
  State.switchMessage (World.state w') = "已经切换到 1080P 高清"
  /\ World.timers w' = [(1%positive, ClearSwitchMessage)].
Proof.
  intros w new old w'.
  destruct (rendered_quality_message (render w) w (Some new) (Some old)) as [H _].
  exact (H new old (nth 0 Sample.formats
                      {| FormatItem.id := 0%float; FormatItem.new_description := "";
                         FormatItem.display_desc := None; FormatItem.codecs := None |})
           eq_refl eq_refl eq_refl eq_refl).
Defined.

(** ** Teardown twice, a refused volume *)

(** X26: the teardown is idempotent when the engine, if there is one,
    lets itself be reset: a second teardown changes nothing. *)
Theorem destroyPlayer_idempotent (w : World.t) :
  option_map Dash.resetThrows (World.playerRef w) <> Some true ->
  exec destroyPlayer (exec destroyPlayer w) = exec destroyPlayer w.
Proof.
  intros Hreset. unfold exec, destroyPlayer, revokePreviousBlobUrl.
  unfold_handlers. open_world w.
  destruct wplayer as [[? ? ? ? ? ? ? ? ? []]|], wtimer as [i|],
    wblob as [[|c u]|]; try reflexivity; now contradiction Hreset.
Qed.

Lemma destroyPlayer_idempotent_witness :
  exec destroyPlayer (exec destroyPlayer Scenario.streaming)
  = exec destroyPlayer Scenario.streaming.
Proof.
  exact (destroyPlayer_idempotent Scenario.streaming ltac:(discriminate)).
Defined.

(** X27: the volume control stores the value before it reaches the
    element.  A value the element refuses is in the state all the same,
    while the element keeps its volume, the muted state is not updated and
    the handler throws; without an element the value is stored and
    nothing else happens. *)
Theorem volume_is_stored_before_it_is_applied (w : World.t) (v : JS.number) :
  let w' := act w (VolumeChanged v) in
  State.volume (World.state w') = v
  /\ (isSome (World.videoPlayerRef w) && volumeAccepted v = false ->
      World.videoPlayerRef w' = World.videoPlayerRef w
      /\ State.isMuted (World.state w') = State.isMuted (World.state w)
      /\ throws (handleVolumeChange v) w = isSome (World.videoPlayerRef w)).
Proof.
  intros w'. subst w'. unfold act, exec, throws. cbn [handle].
  unfold handleVolumeChange, assignVolume. unfold_handlers.
  open_world w. cbn [World.videoPlayerRef World.state World.with_state isSome].
  destruct wvideo as [e|], (volumeAccepted v); cbn; repeat split;
    intros; discriminate.
Qed.
